(** * log4go (kimiazhu fork): configuration loading and the package-level
    convenience wrappers, embedded in Rocq.

    The development follows the two Go files of the package that carry the
    behaviour studied here:

    - the XML configuration loader ([LoadConfiguration], [convertLevel],
      [strToNumSuffix], [xmlToFileLogWriter] and its siblings);
    - the wrappers around the process-wide logger [Global] ([Finest] ..
      [Critical], [isLevelEnabled]).

    Go's [int] is taken to be 64 bits wide (the [amd64] targets); integer
    arithmetic wraps around as the language specification prescribes. Go
    strings are byte strings and are modelled by [string] (a list of 8-bit
    [ascii] characters). *)

From Stdlib Require Import ZArith String Ascii List Bool Lia.
From stdpp Require Import base option gmap strings list fin_maps pretty.

Local Open Scope Z_scope.

#[local] Set Default Proof Using "Type".

(** ** Machine integers *)

Definition intSize : Z := 64.
Definition maxUint64 : Z := 2 ^ 64 - 1.
Definition minInt : Z := - 2 ^ 63.
Definition maxInt : Z := 2 ^ 63 - 1.

(** Conversion of an integer to [int]: the value modulo [2^64], read as a
    two's complement number. *)
Definition wrap_int (z : Z) : Z := (z + 2 ^ 63) mod 2 ^ 64 - 2 ^ 63.

(** [a * b] on [int] operands. *)
Definition int_mul (a b : Z) : Z := wrap_int (a * b).

(** ** [strconv]: the part of the Go standard library that
    [strToNumSuffix] calls

    [strconv.Atoi s] is [ParseInt(s, 10, 0)] converted to [int]. The three
    functions below follow the library's code for base 10 and a 64-bit
    [int]. *)

Inductive NumError := ErrSyntax | ErrRange.

(** The value of a byte as a digit in some base up to 36, as [ParseUint]
    computes it before comparing it with the base. *)
Definition digit_value (c : ascii) : option Z :=
  let b := Z.of_N (N_of_ascii c) in
  if (48 <=? b) && (b <=? 57) then Some (b - 48)
  else if (97 <=? b) && (b <=? 122) then Some (b - 97 + 10)
  else if (65 <=? b) && (b <=? 90) then Some (b - 65 + 10)
  else None.

(** [cutoff] is the smallest number such that [cutoff * 10 > maxUint64]. *)
Definition ParseUint_cutoff : Z := maxUint64 / 10 + 1.

(** The loop of [ParseUint]: [n] is the value accumulated so far. A byte
    that is no decimal digit ends the loop with a syntax error and value 0;
    an overflow ends it at once with a range error and the largest value,
    whatever follows in the string. *)
Fixpoint ParseUint_loop (s : string) (n : Z) : Z * option NumError :=
  match s with
  | EmptyString => (n, None)
  | String c rest =>
      match digit_value c with
      | None => (0, Some ErrSyntax)
      | Some v =>
          if 10 <=? v then (0, Some ErrSyntax)
          else if ParseUint_cutoff <=? n then (maxUint64, Some ErrRange)
          else
            let n := n * 10 in
            let n1 := (n + v) mod 2 ^ 64 in
            if (n1 <? n) || (maxUint64 <? n1) then (maxUint64, Some ErrRange)
            else ParseUint_loop rest n1
      end
  end.

Definition ParseUint (s : string) : Z * option NumError :=
  match s with
  | EmptyString => (0, Some ErrSyntax)
  | _ => ParseUint_loop s 0
  end.

Definition ParseInt (s : string) : Z * option NumError :=
  match s with
  | EmptyString => (0, Some ErrSyntax)
  | String c rest =>
      let neg := Ascii.eqb c "-" in
      let s := if Ascii.eqb c "+" || Ascii.eqb c "-" then rest else s in
      match ParseUint s with
      | (_, Some ErrSyntax) => (0, Some ErrSyntax)
      | (un, _) =>
          let cutoff := 2 ^ (intSize - 1) in
          if negb neg && (cutoff <=? un) then (cutoff - 1, Some ErrRange)
          else if neg && (cutoff <? un) then (- cutoff, Some ErrRange)
          else
            let n := wrap_int un in
            (if neg then wrap_int (- n) else n, None)
      end
  end.

Definition Atoi (s : string) : Z * option NumError := ParseInt s.

(** ** [strToNumSuffix]

    The [switch] on the last byte, with its [fallthrough]s: the result is the
    scale [num] and the string left to parse. A suffix is looked at only when
    the string has at least two bytes. *)
Definition suffix_switch (str : string) (mult : Z) : Z * string :=
  let num := 1 in
  if 1 <? Z.of_nat (String.length str) then
    match String.get (String.length str - 1) str with
    | Some c =>
        let isG := Ascii.eqb c "G" || Ascii.eqb c "g" in
        let isM := Ascii.eqb c "M" || Ascii.eqb c "m" in
        let isK := Ascii.eqb c "K" || Ascii.eqb c "k" in
        let num := if isG then int_mul num mult else num in
        let num := if isG || isM then int_mul num mult else num in
        if isG || isM || isK
        then (int_mul num mult, String.substring 0 (String.length str - 1) str)
        else (num, str)
    | None => (num, str)
    end
  else (num, str).

(** Parse a number with K/M/G suffixes based on thousands (1000) or 2^10
    (1024). The error of [Atoi] is dropped. *)
Definition strToNumSuffix (str : string) (mult : Z) : Z :=
  let '(num, str) := suffix_switch str mult in
  let '(parsed, _) := Atoi str in
  int_mul parsed num.

(** ** Strings: the functions of package [strings] the loader uses *)

Definition nl : string := String "010" EmptyString.
Definition cr : string := String "013" EmptyString.

(** [strings.Repeat s count]. *)
Fixpoint Repeat (s : string) (count : nat) : string :=
  match count with
  | O => EmptyString
  | S k => s +:+ Repeat s k
  end.

Fixpoint in_cutset (c : ascii) (cutset : string) : bool :=
  match cutset with
  | EmptyString => false
  | String d rest => Ascii.eqb c d || in_cutset c rest
  end.

Fixpoint TrimLeft (s cutset : string) : string :=
  match s with
  | EmptyString => EmptyString
  | String c rest => if in_cutset c cutset then TrimLeft rest cutset else s
  end.

Definition TrimRight (s cutset : string) : string :=
  String.rev (TrimLeft (String.rev s) cutset).

(** [strings.Trim s cutset]: [s] without the leading and trailing bytes that
    belong to [cutset]. *)
Definition Trim (s cutset : string) : string :=
  TrimRight (TrimLeft s cutset) cutset.

(** The cutset of every property value: blank, carriage return, line feed. *)
Definition blanks : string := " " +:+ cr +:+ nl.

(** ** Levels *)

(** [type Level int]. *)
Definition Level : Type := Z.

(** Modelled from the spec: the constant block of the levels is declared in a
    file that is not part of these sources; the ranks follow the order the
    specification gives (FINEST < FINE < DEBUG < TRACE < INFO < ACCESS <
    WARNING < ERROR < CRITICAL). The theorems hold whatever the ranks are;
    only the worked examples compare two named levels. *)

Definition FINEST : Level := 0.
Definition FINE : Level := 1.
Definition DEBUG : Level := 2.
Definition TRACE : Level := 3.
Definition INFO : Level := 4.
Definition ACCESS : Level := 5.
Definition WARNING : Level := 6.
Definition ERROR : Level := 7.
Definition CRITICAL : Level := 8.

(** ** Writers, filters, records

    The writer constructors ([NewConsoleLogWriter], [NewFileLogWriter],
    [NewXMLLogWriter], [NewSocketLogWriter]) and the setters are declared
    outside these sources: a writer is represented by the arguments it was
    built and set up with. *)
Inductive LogWriter :=
| ConsoleLogWriter
| FileLogWriter (file : string) (rotate : bool) (format : string)
    (maxlines maxsize : Z) (daily : bool)
| XMLLogWriter (file : string) (rotate : bool) (maxrecords maxsize : Z)
    (daily : bool)
| SocketLogWriter (protocol endpoint : string).

(** [Filter{Level, LogWriter, Excludes}], as the loader builds it. The writer
    is an interface value and may be [nil]. *)
Record Filter := mkFilter {
  Filter_Level : Level;
  Filter_LogWriter : option LogWriter;
  Filter_Excludes : list string
}.

(** [type Logger map[string]*Filter]. *)
Abbreviation Logger := (gmap string Filter).

(** Modelled from the spec: the record type is declared outside these
    sources. "Record: {level, created, source, message}." *)
Record LogRecord := mkLogRecord {
  Record_Level : Level;
  Record_Created : Z;
  Record_Source : string;
  Record_Message : string
}.

(** ** Values handed to the wrappers

    An [interface{}] argument is a datum or one of the two closure types the
    type switches name. A [func() string] is represented by the string it
    returns at its n-th invocation in the run. *)
Inductive Value :=
| VStr (s : string)
| VInt (n : Z)
| VErr (text : string).

Inductive Iface :=
| IVal (v : Value)
| IFunc0 (f : nat -> string)
| IFunc1 (f : Value -> string).

(** [errors.New text]. *)
Inductive error := errors_New (text : string).

(** ** Messages written to the standard streams *)
Inductive Diag :=
| Out_Load (filename : string)
| Err_Open (filename : string)
| Err_Read (filename : string)
| Err_Parse (filename : string)
| Err_MissingAttr (attr filename : string)
| Err_MissingChild (child filename : string)
| Err_UnknownLevel (filename level : string)
| Err_UnknownType (filename type : string)
| Warn_UnknownProperty (prop kind filename : string)
| Err_MissingProperty (prop kind filename : string).

(** ** The world a call runs in *)

(** A call of [Global.intLogf]: level, format, arguments. *)
Record LogCall := mkLogCall {
  call_level : Level;
  call_format : string;
  call_args : list Value
}.

Record World := mkWorld {
  Global : Logger;                         (* the filter mapping *)
  closure_calls : nat;                     (* invocations of caller closures *)
  stack_captures : list Z;                 (* depths passed to CallStack *)
  log_calls : list LogCall;                (* calls handed to the logger *)
  delivered : list (string * LogRecord);   (* LogWrite: filter name, record *)
  closed : list (option LogWriter);        (* writers closed *)
  created : list LogWriter;                (* writers instantiated *)
  mkdirs : list string;                    (* directories made *)
  diag : list Diag                         (* lines printed *)
}.

Definition set_Global (g : Logger) (w : World) : World :=
  mkWorld g (closure_calls w) (stack_captures w) (log_calls w) (delivered w)
    (closed w) (created w) (mkdirs w) (diag w).

Definition tick_closure (w : World) : World :=
  mkWorld (Global w) (S (closure_calls w)) (stack_captures w) (log_calls w)
    (delivered w) (closed w) (created w) (mkdirs w) (diag w).

Definition add_stack_capture (depth : Z) (w : World) : World :=
  mkWorld (Global w) (closure_calls w) (stack_captures w ++ [depth])
    (log_calls w) (delivered w) (closed w) (created w) (mkdirs w) (diag w).

Definition add_log_call (c : LogCall) (w : World) : World :=
  mkWorld (Global w) (closure_calls w) (stack_captures w) (log_calls w ++ [c])
    (delivered w) (closed w) (created w) (mkdirs w) (diag w).

Definition add_delivered (l : list (string * LogRecord)) (w : World) : World :=
  mkWorld (Global w) (closure_calls w) (stack_captures w) (log_calls w)
    (delivered w ++ l) (closed w) (created w) (mkdirs w) (diag w).

Definition add_closed (l : list (option LogWriter)) (w : World) : World :=
  mkWorld (Global w) (closure_calls w) (stack_captures w) (log_calls w)
    (delivered w) (closed w ++ l) (created w) (mkdirs w) (diag w).

Definition add_created (x : LogWriter) (w : World) : World :=
  mkWorld (Global w) (closure_calls w) (stack_captures w) (log_calls w)
    (delivered w) (closed w) (created w ++ [x]) (mkdirs w) (diag w).

Definition add_mkdir (d : string) (w : World) : World :=
  mkWorld (Global w) (closure_calls w) (stack_captures w) (log_calls w)
    (delivered w) (closed w) (created w) (mkdirs w ++ [d]) (diag w).

Definition add_diag (d : Diag) (w : World) : World :=
  mkWorld (Global w) (closure_calls w) (stack_captures w) (log_calls w)
    (delivered w) (closed w) (created w) (mkdirs w) (diag w ++ [d]).

(** How a call ends: it returns, the process exits ([os.Exit]), or the
    goroutine panics. *)
Inductive Outcome (A : Type) :=
| Ret (a : A)
| Exit (code : Z)
| Panic.

Arguments Ret {A} a.
Arguments Exit {A} code.
Arguments Panic {A}.

Definition M (A : Type) : Type := World -> Outcome A * World.

Definition ret {A} (a : A) : M A := fun w => (Ret a, w).

Definition bind {A B} (m : M A) (k : A -> M B) : M B :=
  fun w =>
    match m w with
    | (Ret a, w') => k a w'
    | (Exit c, w') => (Exit c, w')
    | (Panic, w') => (Panic, w')
    end.

Notation "x <- m ;; k" := (bind m (fun x => k))
  (at level 100, m at next level, right associativity).
Notation "m ;; k" := (bind m (fun _ => k))
  (at level 100, right associativity).

Definition os_Exit {A} (code : Z) : M A := fun w => (Exit code, w).
Definition panic {A} : M A := fun w => (Panic, w).
Definition modify (f : World -> World) : M unit := fun w => (Ret tt, f w).
Definition print (d : Diag) : M unit := modify (add_diag d).

(** [for _, x := range l { body }] where the body may exit. *)
Fixpoint for_each {A} (body : A -> M unit) (l : list A) : M unit :=
  match l with
  | [] => ret tt
  | x :: rest => body x ;; for_each body rest
  end.

(** A [range] loop that updates local variables [s]. *)
Fixpoint for_fold {A S} (body : S -> A -> M S) (l : list A) (s : S) : M S :=
  match l with
  | [] => ret s
  | x :: rest => s' <- body s x ;; for_fold body rest s'
  end.

(** Invoking a caller closure: the invocation is counted. *)
Definition call_closure (f : nat -> string) : M string :=
  fun w => (Ret (f (closure_calls w)), tick_closure w).

Definition call_closure1 (f : Value -> string) (v : Value) : M string :=
  fun w => (Ret (f v), tick_closure w).

(** ** The XML configuration, as [encoding/xml] decodes it

    The fields [Value], [Level], [Type] and [Filter] of the Go structs carry
    an underscore here, their names being taken. *)

Record xmlProperty := mkProperty {
  Name : string;
  Value_ : string
}.

Record xmlFilter := mkXmlFilter {
  Enabled : string;
  Tag : string;
  Level_ : string;
  Type_ : string;
  Property : list xmlProperty;
  Exclude : list string
}.

Record xmlLoggerConfig := mkXmlLoggerConfig {
  Filter_ : list xmlFilter
}.

(** What opening, reading and decoding the configuration file yields. *)
Inductive ConfigFile :=
| OpenFails
| ReadFails
| UnmarshalFails
| Decoded (xc : xmlLoggerConfig).

(** The local variables of [xmlToFileLogWriter]. *)
Record FileLocals := mkFileLocals {
  fl_file : string;
  fl_format : string;
  fl_maxlines : Z;
  fl_maxsize : Z;
  fl_daily : bool;
  fl_rotate : bool
}.

(** The local variables of [xmlToXMLLogWriter]. *)
Record XMLLocals := mkXMLLocals {
  xl_file : string;
  xl_maxrecords : Z;
  xl_maxsize : Z;
  xl_daily : bool;
  xl_rotate : bool
}.

(** The local variables of [xmlToSocketLogWriter]. *)
Record SocketLocals := mkSocketLocals {
  sl_endpoint : string;
  sl_protocol : string
}.

Definition is_empty (s : string) : bool := (String.length s =? 0)%nat.

(** ** Numerals: what a string denotes, for stating what the parser computes *)

Definition is_digit (c : ascii) : bool :=
  let b := Z.of_N (N_of_ascii c) in (48 <=? b) && (b <=? 57).

Fixpoint all_digits (s : string) : bool :=
  match s with
  | EmptyString => true
  | String c rest => is_digit c && all_digits rest
  end.

(** The number denoted by the decimal digits of [s], after the digits that
    already gave [acc]. *)
Fixpoint decimal_value (s : string) (acc : Z) : Z :=
  match s with
  | EmptyString => acc
  | String c rest => decimal_value rest (acc * 10 + (Z.of_N (N_of_ascii c) - 48))
  end.

Definition nonempty (s : string) : bool :=
  match s with EmptyString => false | _ => true end.

(** The integer a numeral denotes: an optional sign, then one or more decimal
    digits. [None] for every other string. *)
Definition numeral_value (s : string) : option Z :=
  match s with
  | EmptyString => None
  | String c rest =>
      if Ascii.eqb c "-" then
        if nonempty rest && all_digits rest
        then Some (- decimal_value rest 0) else None
      else if Ascii.eqb c "+" then
        if nonempty rest && all_digits rest
        then Some (decimal_value rest 0) else None
      else if all_digits s then Some (decimal_value s 0) else None
  end.

(** The longest run of decimal digits a string starts with. *)
Fixpoint leading_digits (s : string) : string :=
  match s with
  | EmptyString => EmptyString
  | String c rest =>
      if is_digit c then String c (leading_digits rest) else EmptyString
  end.

Definition unsigned_part (s : string) : string :=
  match s with
  | EmptyString => EmptyString
  | String c rest =>
      if Ascii.eqb c "+" || Ascii.eqb c "-" then rest else s
  end.

(** The number denoted by the digits a string starts with, after its sign. *)
Definition leading_value (s : string) : Z :=
  decimal_value (leading_digits (unsigned_part s)) 0.

(** The power of the multiplier a suffix letter stands for. *)
Definition suffix_power (c : ascii) : option Z :=
  if Ascii.eqb c "K" || Ascii.eqb c "k" then Some 1
  else if Ascii.eqb c "M" || Ascii.eqb c "m" then Some 2
  else if Ascii.eqb c "G" || Ascii.eqb c "g" then Some 3
  else None.

(** [ParseInt] once the sign is taken off and [ParseUint] has answered. *)
Definition ParseInt_finish (neg : bool) (r : Z * option NumError)
    : Z * option NumError :=
  match r with
  | (_, Some ErrSyntax) => (0, Some ErrSyntax)
  | (un, _) =>
      if negb neg && (2 ^ 63 <=? un) then (2 ^ 63 - 1, Some ErrRange)
      else if neg && (2 ^ 63 <? un) then (- 2 ^ 63, Some ErrRange)
      else (if neg then wrap_int (- wrap_int un) else wrap_int un, None)
  end.

(** ** A small environment to run the model in

    A fragment of [fmt.Sprintf] (the verbs [%s] and [%v] on the values of
    this development, [%%], and literal text), a logger that takes a format
    without arguments as the message, a path join with a slash, and patterns
    that match as prefixes. *)

Definition show_value (v : Value) : string :=
  match v with
  | VStr s => s
  | VInt n => if n <? 0 then "-" +:+ pretty (Z.to_N (- n)) else pretty (Z.to_N n)
  | VErr text => text
  end.

Fixpoint Sprintf_sv (format : string) (args : list Value) : string :=
  match format with
  | EmptyString => EmptyString
  | String c rest =>
      if Ascii.eqb c "%" then
        match rest with
        | EmptyString => "%!(NOVERB)"
        | String verb rest' =>
            if Ascii.eqb verb "s" || Ascii.eqb verb "v" then
              match args with
              | a :: args' => show_value a +:+ Sprintf_sv rest' args'
              | [] =>
                  "%!" +:+ String verb "(MISSING)" +:+ Sprintf_sv rest' []
              end
            else if Ascii.eqb verb "%" then String "%" (Sprintf_sv rest' args)
            else "%!" +:+ String verb "(NOVERB)" +:+ Sprintf_sv rest' args
        end
      else String c (Sprintf_sv rest args)
  end.

(** The string holds no [%], so that formatting has no verb to read in
    it. *)
Fixpoint no_percent (s : string) : bool :=
  match s with
  | EmptyString => true
  | String c rest => negb (Ascii.eqb c "%") && no_percent rest
  end.

Definition Sprint_sv (x : Iface) : string :=
  match x with
  | IVal v => show_value v
  | _ => "0x0"
  end.

Definition logf_render_sv (format : string) (args : list Value) : string :=
  match args with
  | [] => format
  | _ => Sprintf_sv format args
  end.

Definition Join_slash (dir name : string) : string := dir +:+ "/" +:+ name.

Definition World0 : World := mkWorld ∅ 0 [] [] [] [] [] [] [].

(** A logger with one console filter at threshold ERROR. *)
Definition World_errors_only : World :=
  mkWorld {["stdout" := mkFilter ERROR (Some ConsoleLogWriter) []]}
    0 [] [] [] [] [] [] [].

(** A disabled file filter that names no file. *)
Definition filter_disabled_no_file : xmlFilter :=
  mkXmlFilter "false" "logfile" "DEBUG" "file"
    [mkProperty "maxsize" "10M"] [].

(** An enabled file filter with a file name and a property the loader does
    not know. *)
Definition filter_file_with_colour : xmlFilter :=
  mkXmlFilter "true" "logfile" "INFO" "file"
    [mkProperty "colour" "red"; mkProperty "filename" " app.log "] [].

(** A console filter with a level the loader does not know. *)
Definition filter_verbose_console : xmlFilter :=
  mkXmlFilter "true" "stdout" "VERBOSE" "console" [] [].

(** A console filter without the [enabled] attribute. *)
Definition filter_console_no_enabled : xmlFilter :=
  mkXmlFilter "" "stdout" "INFO" "console" [] [].

(** A console filter without the child [tag]. *)
Definition filter_console_no_tag : xmlFilter :=
  mkXmlFilter "true" "" "INFO" "console" [] [].

(** ** More of the Go libraries: [strings.Split] and slicing *)

(** [strings.Split s sep] for a separator of one byte, as [SetupFileLog]
    calls it: the pieces of [s] between the separators. The empty string has
    one piece, the empty string. *)
Fixpoint Split (s : string) (sep : ascii) : list string :=
  match s with
  | EmptyString => [EmptyString]
  | String c rest =>
      if Ascii.eqb c sep then EmptyString :: Split rest sep
      else
        match Split rest sep with
        | piece :: pieces => String c piece :: pieces
        | [] => [String c EmptyString]
        end
  end.

(** How often a byte occurs in a string. *)
Fixpoint count_byte (c : ascii) (s : string) : nat :=
  match s with
  | EmptyString => 0
  | String c' rest => (if Ascii.eqb c' c then 1 else 0) + count_byte c rest
  end.

(** [s[1:]]: the string without its first byte; slicing an empty string
    panics ([None]). *)
Definition slice_from_1 (s : string) : option string :=
  match s with
  | EmptyString => None
  | String _ rest => Some rest
  end.

(** The configuration of [SetupFileLog], as [encoding/json] decodes it. The
    field [Level] carries a prefix here, its name being taken. *)
Record jsonConfig := mkJsonConfig {
  json_Level : string;
  Filename : string;
  Format : string;
  Maxlines : string;
  Maxsize : string;
  Excludes : string
}.

(** [n] verbs [%v] with one blank between two of them. *)
Definition spaced_verbs (n : nat) : string :=
  match n with
  | O => EmptyString
  | S k => "%v" +:+ Repeat " %v" k
  end.

(** A configuration for [SetupFileLog], and a configuration file in which two
    enabled filters share a tag. *)
Definition json_example : jsonConfig :=
  mkJsonConfig "DEBUG" "log/all.log" "%M" "100K" "100M" "".

Definition filter_console_as_logfile : xmlFilter :=
  mkXmlFilter "true" "logfile" "WARNING" "console" [] ["net/http"].

Definition filter_socket_blank : xmlFilter :=
  mkXmlFilter "true" "remote" "INFO" "socket"
    [mkProperty "endpoint" ("  " +:+ nl)] [].



Section Log4go.

(** *** The environment

    Formatting ([fmt.Sprintf], [fmt.Sprint]), the stack printer
    ([stack.CallStack] of the [golib] package), the clock, the file system and
    the path functions belong to the Go runtime and libraries. *)
Variable Sprintf : string -> list Value -> string.
Variable Sprint : Iface -> string.
Variable CallStack_text : Z -> string.
Variable time_Now : Z.
Variable read_config : string -> ConfigFile.
Variable exec_dir : string.
Variable filepath_Join : string -> string -> string.
Variable filepath_Dir : string -> string.
Variable dir_missing : string -> bool.

(** The part of the logger that is declared outside these sources and is not
    described by the specification: how [intLogf] turns the format and the
    arguments it is handed into the record's message, which source tag it
    gives the record, and when an exclude pattern matches a source tag. *)
Variable logf_render : string -> list Value -> string.
Variable caller_source : string.
Variable pattern_matches : string -> string -> bool.

(** *** The logger core *)

(** Modelled from the spec: the acceptance test of a filter is not in these
    sources. "A record is accepted by a Filter iff [record.level >=
    threshold] AND no pattern in [excludes] matches [record.source]." *)
Definition Filter_accepts (f : Filter) (r : LogRecord) : bool :=
  (Filter_Level f <=? Record_Level r)
  && forallb (fun p => negb (pattern_matches p (Record_Source r)))
       (Filter_Excludes f).

(** Modelled from the spec: [Logger.Log] is not in these sources. "For every
    filter whose threshold is satisfied and whose excludes do not match
    [source], build a Record and call [writer.accept(record)]." The filters
    are visited in the order [map_to_list] lists them; Go leaves the order of
    a [range] over a map open. *)
Definition Log (lvl : Level) (source message : string) : M unit :=
  fun w =>
    let rec := mkLogRecord lvl time_Now source message in
    let accepting :=
      List.filter (fun nf => Filter_accepts (snd nf) rec)
        (map_to_list (Global w)) in
    (Ret tt, add_delivered (List.map (fun nf => (fst nf, rec)) accepting) w).

(** Does some filter's threshold admit [lvl]? The loop of [isLevelEnabled],
    which stops at the first filter that does. *)
Fixpoint isLevelEnabled_loop (lvl : Level) (filters : list (string * Filter))
    (enabled : bool) : bool :=
  match filters with
  | [] => enabled
  | (_, filt) :: rest =>
      if Filter_Level filt <=? lvl then true
      else isLevelEnabled_loop lvl rest enabled
  end.

Definition isLevelEnabled (lvl : Level) : M bool :=
  fun w => (Ret (isLevelEnabled_loop lvl (map_to_list (Global w)) false), w).

Definition IsFinestEnabled : M bool := isLevelEnabled FINEST.
Definition IsFineEnabled : M bool := isLevelEnabled FINE.
Definition IsDebugEnabled : M bool := isLevelEnabled DEBUG.
Definition IsTraceEnabled : M bool := isLevelEnabled TRACE.
Definition IsInfoEnabled : M bool := isLevelEnabled INFO.
Definition IsWarnEnabled : M bool := isLevelEnabled WARNING.
Definition IsErrorEnabled : M bool := isLevelEnabled ERROR.

(** Modelled from the spec: [intLogf] is not in these sources. "Same as [Log]
    but the message is produced by formatting [format] with [args]; formatting
    happens once even if multiple filters accept." *)
Definition intLogf (lvl : Level) (format : string) (args : list Value)
    : M unit :=
  modify (add_log_call (mkLogCall lvl format args)) ;;
  let msg := logf_render format args in
  Log lvl caller_source msg.

(** Modelled from the spec: [intLogc] is not in these sources. "The closure is
    invoked at most once, and only if at least one filter's threshold would
    accept [level]. If no filter accepts, the closure must not be called at
    all." *)
Definition intLogc (lvl : Level) (closure : nat -> string) : M unit :=
  enabled <- isLevelEnabled lvl ;;
  if enabled then
    msg <- call_closure closure ;;
    Log lvl caller_source msg
  else ret tt.

(** Modelled from the spec: [Logger.Close] is not in these sources. "Calls
    [close()] on every writer, then empties the filter mapping." *)
Definition Close : M unit :=
  fun w =>
    (Ret tt,
     set_Global ∅
       (add_closed (List.map (fun nf => Filter_LogWriter (snd nf))
                      (map_to_list (Global w))) w)).

(** [CallStack(depth)]: the capture is recorded. *)
Definition CallStack (depth : Z) : M string :=
  fun w => (Ret (CallStack_text depth), add_stack_capture depth w).

(** *** The wrappers around [Global]

    Each wrapper switches on the dynamic type of its first argument: a
    string, a [func() string], or anything else. *)

Definition Finest (arg0 : Iface) (args : list Value) : M unit :=
  let lvl := FINEST in
  match arg0 with
  | IVal (VStr first) =>
      (* Use the string as a format string *)
      intLogf lvl first args
  | IFunc0 first =>
      (* Log the closure (no other arguments used) *)
      intLogc lvl first
  | _ =>
      (* Build a format string so that it will be similar to Sprint *)
      intLogf lvl (Sprint arg0 +:+ Repeat " %v" (length args)) args
  end.

Definition Fine (arg0 : Iface) (args : list Value) : M unit :=
  let lvl := FINE in
  match arg0 with
  | IVal (VStr first) =>
      (* Use the string as a format string *)
      intLogf lvl first args
  | IFunc0 first =>
      (* Log the closure (no other arguments used) *)
      intLogc lvl first
  | _ =>
      (* Build a format string so that it will be similar to Sprint *)
      intLogf lvl (Sprint arg0 +:+ Repeat " %v" (length args)) args
  end.

Definition Debug (arg0 : Iface) (args : list Value) : M unit :=
  let lvl := DEBUG in
  match arg0 with
  | IVal (VStr first) =>
      (* Use the string as a format string *)
      intLogf lvl first args
  | IFunc0 first =>
      (* Log the closure (no other arguments used) *)
      intLogc lvl first
  | _ =>
      (* Build a format string so that it will be similar to Sprint *)
      intLogf lvl (Sprint arg0 +:+ Repeat " %v" (length args)) args
  end.

Definition Trace (arg0 : Iface) (args : list Value) : M unit :=
  let lvl := TRACE in
  match arg0 with
  | IVal (VStr first) =>
      (* Use the string as a format string *)
      intLogf lvl first args
  | IFunc0 first =>
      (* Log the closure (no other arguments used) *)
      intLogc lvl first
  | _ =>
      (* Build a format string so that it will be similar to Sprint *)
      intLogf lvl (Sprint arg0 +:+ Repeat " %v" (length args)) args
  end.

Definition Info (arg0 : Iface) (args : list Value) : M unit :=
  let lvl := INFO in
  match arg0 with
  | IVal (VStr first) =>
      (* Use the string as a format string *)
      intLogf lvl first args
  | IFunc0 first =>
      (* Log the closure (no other arguments used) *)
      intLogc lvl first
  | _ =>
      (* Build a format string so that it will be similar to Sprint *)
      intLogf lvl (Sprint arg0 +:+ Repeat " %v" (length args)) args
  end.

Definition Access (arg0 : Iface) (args : list Value) : M unit :=
  let lvl := ACCESS in
  match arg0 with
  | IVal (VStr first) =>
      (* Use the string as a format string *)
      intLogf lvl first args
  | IFunc0 first =>
      (* Log the closure (no other arguments used) *)
      intLogc lvl first
  | _ =>
      (* Build a format string so that it will be similar to Sprint *)
      intLogf lvl (Sprint arg0 +:+ Repeat " %v" (length args)) args
  end.

(** [Warn], [Error] and [Critical] return an error for easy function returns.
    "These functions will execute a closure exactly once, to build the error
    message for the return." *)

Definition Warn (arg0 : Iface) (args : list Value) : M (option error) :=
  let lvl := WARNING in
  match arg0 with
  | IVal (VStr first) =>
      (* Use the string as a format string *)
      intLogf lvl first args ;;
      ret (Some (errors_New (Sprintf first args)))
  | IFunc0 first =>
      (* Log the closure (no other arguments used) *)
      str <- call_closure first ;;
      intLogf lvl "%s" [VStr str] ;;
      ret (Some (errors_New str))
  | first =>
      (* Build a format string so that it will be similar to Sprint *)
      intLogf lvl (Sprint first +:+ Repeat " %v" (length args)) args ;;
      ret (Some (errors_New
                   (Sprint first +:+ Sprintf (Repeat " %v" (length args)) args)))
  end.

Definition Error (arg0 : Iface) (args : list Value) : M (option error) :=
  let lvl := ERROR in
  match arg0 with
  | IVal (VStr first) =>
      (* Use the string as a format string *)
      intLogf lvl first args ;;
      ret (Some (errors_New (Sprintf first args)))
  | IFunc0 first =>
      (* Log the closure (no other arguments used) *)
      str <- call_closure first ;;
      intLogf lvl "%s" [VStr str] ;;
      ret (Some (errors_New str))
  | first =>
      (* Build a format string so that it will be similar to Sprint *)
      intLogf lvl (Sprint first +:+ Repeat " %v" (length args)) args ;;
      ret (Some (errors_New
                   (Sprint first +:+ Sprintf (Repeat " %v" (length args)) args)))
  end.

(** [Critical] logs the call stack as well. Its switch has a fourth case, a
    [func(interface{}) string] applied to [args[0]]; indexing an empty [args]
    panics. *)
Definition Critical (arg0 : Iface) (args : list Value) : M (option error) :=
  let lvl := CRITICAL in
  match arg0 with
  | IVal (VStr first) =>
      (* Use the string as a format string *)
      stack <- CallStack 3 ;;
      let msg :=
        Sprintf ("%s" +:+ nl +:+ "%s") [VStr (Sprintf first args); VStr stack] in
      intLogf lvl msg [] ;;
      ret (Some (errors_New (Sprintf first args)))
  | IFunc0 first =>
      (* Log the closure (no other arguments used) *)
      str <- call_closure first ;;
      stack <- CallStack 3 ;;
      intLogf lvl ("%s" +:+ nl +:+ "%s") [VStr str; VStr stack] ;;
      ret (Some (errors_New str))
  | IFunc1 first =>
      match args with
      | [] => panic
      | a0 :: _ =>
          str <- call_closure1 first a0 ;;
          stack <- CallStack 3 ;;
          intLogf lvl ("%s" +:+ nl +:+ "%s") [VStr str; VStr stack] ;;
          ret (Some (errors_New str))
      end
  | first =>
      (* Build a format string so that it will be similar to Sprint *)
      stack <- CallStack 3 ;;
      let msg :=
        Sprintf ("%s" +:+ nl +:+ "%s")
          [VStr (Sprint first +:+ Sprintf (Repeat " %v" (length args)) args);
           VStr stack] in
      intLogf lvl msg [] ;;
      ret (Some (errors_New
                   (Sprint first +:+ Sprintf (Repeat " %v" (length args)) args)))
  end.

(** The message a caller asks for, by the shape of the first argument: the
    format filled with the arguments, what the closure returns, or the
    arguments printed one after the other. [calls] is the number of closure
    invocations made before the call. *)
Definition rendered_message (arg0 : Iface) (args : list Value) (calls : nat)
    : string :=
  match arg0 with
  | IVal (VStr format) => Sprintf format args
  | IFunc0 closure => closure calls
  | _ => Sprint arg0 +:+ Sprintf (Repeat " %v" (length args)) args
  end.

(** The same for [Critical], whose switch knows closures of one argument. *)
Definition rendered_message_Critical (arg0 : Iface) (args : list Value)
    (calls : nat) : string :=
  match arg0, args with
  | IFunc1 closure, a0 :: _ => closure a0
  | _, _ => rendered_message arg0 args calls
  end.

(** *** The configuration loader *)

Definition convertLevel (level filename : string) : M (Level * bool) :=
  if String.eqb level "ACCESS" then ret (ACCESS, false)
  else if String.eqb level "FINEST" then ret (FINEST, false)
  else if String.eqb level "FINE" then ret (FINE, false)
  else if String.eqb level "DEBUG" then ret (DEBUG, false)
  else if String.eqb level "TRACE" then ret (TRACE, false)
  else if String.eqb level "INFO" then ret (INFO, false)
  else if String.eqb level "WARNING" then ret (WARNING, false)
  else if String.eqb level "ERROR" then ret (ERROR, false)
  else if String.eqb level "CRITICAL" then ret (CRITICAL, false)
  else
    print (Err_UnknownLevel filename level) ;;
    ret (0, true).

(** The constructors: the writer is instantiated (this is recorded) and
    handed back. *)
Definition new_writer (x : LogWriter) : M (option LogWriter) :=
  fun w => (Ret (Some x), add_created x w).

Definition xmlToConsoleLogWriter (filename : string) (excludes : list string)
    (props : list xmlProperty) (enabled : bool)
    : M (option LogWriter * bool) :=
  (* Parse properties *)
  for_each (fun prop =>
      print (Warn_UnknownProperty (Name prop) "console" filename)) props ;;
  (* If it's disabled, we're just checking syntax *)
  if negb enabled then ret (None, true)
  else
    x <- new_writer ConsoleLogWriter ;;
    ret (x, true).

(** [os.Stat] of a directory reports that it does not exist. *)
Definition stat_missing (d : string) : M bool :=
  fun w => (Ret (dir_missing d && negb (bool_decide (d ∈ mkdirs w))), w).

Definition file_property (filename : string) (l : FileLocals)
    (prop : xmlProperty) : M FileLocals :=
  let n := Name prop in
  let v := Trim (Value_ prop) blanks in
  if String.eqb n "filename" then
    let file := filepath_Join exec_dir v in
    missing <- stat_missing (filepath_Dir file) ;;
    (if missing then modify (add_mkdir (filepath_Dir file)) else ret tt) ;;
    ret (mkFileLocals file (fl_format l) (fl_maxlines l) (fl_maxsize l)
           (fl_daily l) (fl_rotate l))
  else if String.eqb n "format" then
    ret (mkFileLocals (fl_file l) v (fl_maxlines l) (fl_maxsize l)
           (fl_daily l) (fl_rotate l))
  else if String.eqb n "maxlines" then
    ret (mkFileLocals (fl_file l) (fl_format l) (strToNumSuffix v 1000)
           (fl_maxsize l) (fl_daily l) (fl_rotate l))
  else if String.eqb n "maxsize" then
    ret (mkFileLocals (fl_file l) (fl_format l) (fl_maxlines l)
           (strToNumSuffix v 1024) (fl_daily l) (fl_rotate l))
  else if String.eqb n "daily" then
    ret (mkFileLocals (fl_file l) (fl_format l) (fl_maxlines l) (fl_maxsize l)
           (negb (String.eqb v "false")) (fl_rotate l))
  else if String.eqb n "rotate" then
    ret (mkFileLocals (fl_file l) (fl_format l) (fl_maxlines l) (fl_maxsize l)
           (fl_daily l) (negb (String.eqb v "false")))
  else
    print (Warn_UnknownProperty n "file" filename) ;;
    ret l.

Definition xmlToFileLogWriter (filename : string) (excludes : list string)
    (props : list xmlProperty) (enabled : bool)
    : M (option LogWriter * bool) :=
  (* Parse properties *)
  l <- for_fold (file_property filename) props
         (mkFileLocals "" "[%D %T] [%L] (%S) %M" 0 0 false false) ;;
  (* Check properties *)
  if is_empty (fl_file l) then
    print (Err_MissingProperty "filename" "file" filename) ;;
    ret (None, false)
  else
    (* If it's disabled, we're just checking syntax *)
    if negb enabled then ret (None, true)
    else
      flw <- new_writer
               (FileLogWriter (fl_file l) (fl_rotate l) (fl_format l)
                  (fl_maxlines l) (fl_maxsize l) (fl_daily l)) ;;
      ret (flw, true).

Definition xml_property (filename : string) (l : XMLLocals)
    (prop : xmlProperty) : M XMLLocals :=
  let n := Name prop in
  let v := Trim (Value_ prop) blanks in
  if String.eqb n "filename" then
    ret (mkXMLLocals (filepath_Join exec_dir v) (xl_maxrecords l)
           (xl_maxsize l) (xl_daily l) (xl_rotate l))
  else if String.eqb n "maxrecords" then
    ret (mkXMLLocals (xl_file l) (strToNumSuffix v 1000) (xl_maxsize l)
           (xl_daily l) (xl_rotate l))
  else if String.eqb n "maxsize" then
    ret (mkXMLLocals (xl_file l) (xl_maxrecords l) (strToNumSuffix v 1024)
           (xl_daily l) (xl_rotate l))
  else if String.eqb n "daily" then
    ret (mkXMLLocals (xl_file l) (xl_maxrecords l) (xl_maxsize l)
           (negb (String.eqb v "false")) (xl_rotate l))
  else if String.eqb n "rotate" then
    ret (mkXMLLocals (xl_file l) (xl_maxrecords l) (xl_maxsize l)
           (xl_daily l) (negb (String.eqb v "false")))
  else
    print (Warn_UnknownProperty n "xml" filename) ;;
    ret l.

Definition xmlToXMLLogWriter (filename : string) (excludes : list string)
    (props : list xmlProperty) (enabled : bool)
    : M (option LogWriter * bool) :=
  (* Parse properties *)
  l <- for_fold (xml_property filename) props
         (mkXMLLocals "" 0 0 false false) ;;
  (* Check properties *)
  if is_empty (xl_file l) then
    print (Err_MissingProperty "filename" "xml" filename) ;;
    ret (None, false)
  else
    (* If it's disabled, we're just checking syntax *)
    if negb enabled then ret (None, true)
    else
      xlw <- new_writer
               (XMLLogWriter (xl_file l) (xl_rotate l) (xl_maxrecords l)
                  (xl_maxsize l) (xl_daily l)) ;;
      ret (xlw, true).

(** The messages of the socket loader say "file filter", as the source does. *)
Definition socket_property (filename : string) (l : SocketLocals)
    (prop : xmlProperty) : M SocketLocals :=
  let n := Name prop in
  let v := Trim (Value_ prop) blanks in
  if String.eqb n "endpoint" then ret (mkSocketLocals v (sl_protocol l))
  else if String.eqb n "protocol" then ret (mkSocketLocals (sl_endpoint l) v)
  else
    print (Warn_UnknownProperty n "file" filename) ;;
    ret l.

Definition xmlToSocketLogWriter (filename : string) (exclude : list string)
    (props : list xmlProperty) (enabled : bool)
    : M (option LogWriter * bool) :=
  (* Parse properties *)
  l <- for_fold (socket_property filename) props (mkSocketLocals "" "udp") ;;
  (* Check properties *)
  if is_empty (sl_endpoint l) then
    print (Err_MissingProperty "endpoint" "file" filename) ;;
    ret (None, false)
  else
    (* If it's disabled, we're just checking syntax *)
    if negb enabled then ret (None, true)
    else
      slw <- new_writer (SocketLogWriter (sl_protocol l) (sl_endpoint l)) ;;
      ret (slw, true).

(** [log[name] = &Filter{...}]. *)
Definition set_filter (name : string) (f : Filter) : M unit :=
  modify (fun w => set_Global (<[name := f]> (Global w)) w).

(** The body of the loop over the [<filter>] elements, in its three steps.

    First the required children are checked and the level is converted. The
    flag [bad] that the four checks set is assigned anew by the result of
    [convertLevel]; the step exits when it is set then, and yields the level
    and whether the filter is enabled otherwise. *)
Definition LoadConfiguration_required (filename : string) (xmlfilt : xmlFilter)
    : M (Level * bool) :=
  let bad := false in
  let enabled := false in
  (* Check required children *)
  be <- (if is_empty (Enabled xmlfilt) then
           print (Err_MissingAttr "enabled" filename) ;;
           ret (true, enabled)
         else ret (bad, negb (String.eqb (Enabled xmlfilt) "false"))) ;;
  let bad := fst be in
  let enabled := snd be in
  bad <- (if is_empty (Tag xmlfilt) then
            print (Err_MissingChild "tag" filename) ;; ret true
          else ret bad) ;;
  bad <- (if is_empty (Type_ xmlfilt) then
            print (Err_MissingChild "type" filename) ;; ret true
          else ret bad) ;;
  bad <- (if is_empty (Level_ xmlfilt) then
            print (Err_MissingChild "level" filename) ;; ret true
          else ret bad) ;;
  lb <- convertLevel (Level_ xmlfilt) filename ;;
  let lvl := fst lb in
  let bad := snd lb in
  (* Just so all of the required attributes are errored at the same time if
     missing *)
  (if bad then os_Exit 1 else ret tt) ;;
  ret (lvl, enabled).

(** Then the [switch] on the type builds the writer. *)
Definition LoadConfiguration_writer (filename : string) (xmlfilt : xmlFilter)
    (enabled : bool) : M (option LogWriter * bool) :=
  let t := Type_ xmlfilt in
  if String.eqb t "console" then
    xmlToConsoleLogWriter filename (Exclude xmlfilt) (Property xmlfilt) enabled
  else if String.eqb t "file" then
    xmlToFileLogWriter filename (Exclude xmlfilt) (Property xmlfilt) enabled
  else if String.eqb t "xml" then
    xmlToXMLLogWriter filename (Exclude xmlfilt) (Property xmlfilt) enabled
  else if String.eqb t "socket" then
    xmlToSocketLogWriter filename (Exclude xmlfilt) (Property xmlfilt) enabled
  else
    print (Err_UnknownType filename t) ;;
    os_Exit 1.

(** Last, the filter is added to the logger if it is enabled. *)
Definition LoadConfiguration_filter (filename : string) (xmlfilt : xmlFilter)
    : M unit :=
  le <- LoadConfiguration_required filename xmlfilt ;;
  let lvl := fst le in
  let enabled := snd le in
  fg <- LoadConfiguration_writer filename xmlfilt enabled ;;
  let filt := fst fg in
  let good := snd fg in
  (* Just so all of the required params are errored at the same time if
     wrong *)
  (if negb good then os_Exit 1 else ret tt) ;;
  (* If we're disabled (syntax and correctness checks only), don't add to
     logger *)
  if negb enabled then ret tt
  else set_filter (Tag xmlfilt) (mkFilter lvl filt (Exclude xmlfilt)).

(** Load XML configuration. *)
Definition LoadConfiguration (filename : string) : M unit :=
  print (Out_Load filename) ;;
  Close ;;
  match read_config filename with
  | OpenFails => print (Err_Open filename) ;; os_Exit 1
  | ReadFails => print (Err_Read filename) ;; os_Exit 1
  | UnmarshalFails => print (Err_Parse filename) ;; os_Exit 1
  | Decoded xc => for_each (LoadConfiguration_filter filename) (Filter_ xc)
  end.

(** *** Vocabulary of the statements *)

(** The six wrappers that return nothing, each with its level. *)
Definition plain_entries : list ((Iface -> list Value -> M unit) * Level) :=
  [(Finest, FINEST); (Fine, FINE); (Debug, DEBUG); (Trace, TRACE);
   (Info, INFO); (Access, ACCESS)].

(** What the statements about [Critical] assume of the formatting done
    outside these sources: [fmt.Sprintf] with the format ["%s\n%s"] and two
    strings joins them by a line feed, the logger does the same with that
    format, and the logger takes a format that comes without arguments as the
    message itself. *)
Definition Sprintf_joins_lines : Prop :=
  forall a b, Sprintf ("%s" +:+ nl +:+ "%s") [VStr a; VStr b] = a +:+ nl +:+ b.

Definition logf_render_joins_lines : Prop :=
  forall a b,
    logf_render ("%s" +:+ nl +:+ "%s") [VStr a; VStr b] = a +:+ nl +:+ b.

Definition logf_render_plain : Prop :=
  forall msg, logf_render msg [] = msg.

(** What the statements about the text of the returned error assume of the
    formatting: the logger formats with [fmt.Sprintf] when it is handed
    arguments; [fmt.Sprintf] gives a string for the verb [%s], copies text
    without [%] as it is, and makes nothing of the empty format. *)
Definition logf_render_formats : Prop :=
  forall format args,
    args <> [] -> logf_render format args = Sprintf format args.

Definition Sprintf_string : Prop :=
  forall s, Sprintf "%s" [VStr s] = s.

Definition Sprintf_copies_text : Prop :=
  forall text format args,
    no_percent text = true ->
    Sprintf (text +:+ format) args = text +:+ Sprintf format args.

Definition Sprintf_empty : Prop := Sprintf EmptyString [] = EmptyString.

(** The calls of [Warn] and [Error] in which the logger is handed what the
    error is built from: a closure; a format string with arguments, or one
    without [%]; another value without further arguments, or one whose printed
    form has no [%]. *)
Definition logs_its_text (arg0 : Iface) (args : list Value) : Prop :=
  match arg0 with
  | IVal (VStr format) => args <> [] \/ no_percent format = true
  | IFunc0 _ => True
  | _ => args = [] \/ no_percent (Sprint arg0) = true
  end.

(** [Critical] indexes [args[0]] when its first argument is a closure of one
    argument: the call is well formed when that argument is there. *)
Definition has_closure_argument (arg0 : Iface) (args : list Value) : Prop :=
  match arg0, args with
  | IFunc1 _, [] => False
  | _, _ => True
  end.

(** The nine level names of [convertLevel], with their levels. *)
Definition level_names : list (string * Level) :=
  [("ACCESS", ACCESS); ("FINEST", FINEST); ("FINE", FINE); ("DEBUG", DEBUG);
   ("TRACE", TRACE); ("INFO", INFO); ("WARNING", WARNING); ("ERROR", ERROR);
   ("CRITICAL", CRITICAL)].

Definition known_level (name : string) : Prop :=
  In name (List.map fst level_names).

(** The writer types of the loader, and per type: the properties its loader
    knows, the property it requires, and the word its messages use for the
    type (the socket loader says "file"). *)
Definition writer_types : list string := ["console"; "file"; "xml"; "socket"].

Definition known_properties (type : string) : list string :=
  if String.eqb type "file"
  then ["filename"; "format"; "maxlines"; "maxsize"; "daily"; "rotate"]
  else if String.eqb type "xml"
  then ["filename"; "maxrecords"; "maxsize"; "daily"; "rotate"]
  else if String.eqb type "socket" then ["endpoint"; "protocol"]
  else [].

Definition required_property (type : string) : option string :=
  if String.eqb type "file" then Some "filename"
  else if String.eqb type "xml" then Some "filename"
  else if String.eqb type "socket" then Some "endpoint"
  else None.

Definition message_kind (type : string) : string :=
  if String.eqb type "socket" then "file" else type.

(** The trimmed value of the last property called [name], after [acc]. *)
Fixpoint last_value_from (name : string) (props : list xmlProperty)
    (acc : option string) : option string :=
  match props with
  | [] => acc
  | prop :: rest =>
      last_value_from name rest
        (if String.eqb (Name prop) name
         then Some (Trim (Value_ prop) blanks) else acc)
  end.

Definition last_value (name : string) (props : list xmlProperty)
    : option string :=
  last_value_from name props None.

(** The required property of a filter is there: a file name for the file and
    xml writers, an endpoint that is not blank for the socket writer; a
    console writer requires none. *)
Definition required_property_present (type : string)
    (props : list xmlProperty) : Prop :=
  match required_property type with
  | None => True
  | Some req =>
      exists v, last_value req props = Some v
                /\ (type = "socket" -> v <> EmptyString)
  end.

(** [w'] is [w] but for lines printed and directories made since. *)
Definition same_logger (w w' : World) : Prop :=
  Global w' = Global w
  /\ closed w' = closed w
  /\ created w' = created w
  /\ exists lines, diag w' = diag w ++ lines.

(** Whether the loader takes a filter as enabled. *)
Definition enabled_of (xmlfilt : xmlFilter) : bool :=
  negb (is_empty (Enabled xmlfilt))
  && negb (String.eqb (Enabled xmlfilt) "false").

(** The value the loader of a type checks for emptiness: the joined file
    name, or the endpoint; [None] for the console, which checks nothing. *)
Definition required_field (type : string) (props : list xmlProperty)
    : option string :=
  if String.eqb type "file" || String.eqb type "xml" then
    Some (match last_value "filename" props with
          | Some v => filepath_Join exec_dir v
          | None => EmptyString
          end)
  else if String.eqb type "socket" then
    Some (match last_value "endpoint" props with
          | Some v => v
          | None => EmptyString
          end)
  else None.

(** [filepath.Join] of the directory of the executable with any name is not
    the empty path. *)
Definition Join_not_empty : Prop :=
  forall v, filepath_Join exec_dir v <> EmptyString.

(** What a writer loader may do, started in [w]: print, make directories,
    and then report the required property missing, or pass a disabled filter
    without a writer, or instantiate the writer of an enabled one. *)
Definition loader_outcome (type filename : string) (props : list xmlProperty)
    (enabled : bool) (w : World)
    (r : Outcome (option LogWriter * bool) * World) : Prop :=
  exists w1,
    same_logger w w1
    /\ (forall prop,
          In prop props -> ~ In (Name prop) (known_properties type) ->
          In (Warn_UnknownProperty (Name prop) (message_kind type) filename)
            (diag w1))
    /\ ((exists req,
            required_field type props = Some EmptyString
            /\ r = (Ret (None, false),
                    add_diag
                      (Err_MissingProperty req (message_kind type) filename)
                      w1))
        \/ (required_field type props <> Some EmptyString
            /\ enabled = false /\ r = (Ret (None, true), w1))
        \/ (required_field type props <> Some EmptyString
            /\ enabled = true
            /\ exists x, r = (Ret (Some x, true), add_created x w1))).

(** *** More of the wrappers *)

(** The recovered value of a panic and the slice of the remaining arguments
    are handed to [Critical] as one argument each: how a slice is boxed into
    an [interface{}] belongs to the environment. *)
Variable slice_value : list Value -> Value.

(** Compatibility with [log]: the arguments are printed with one [%v] each.
    The slice [[1:]] drops the blank the repeated verb starts with. *)
Definition Stderr (args : list Value) : M unit :=
  if 0 <? Z.of_nat (length args) then
    match slice_from_1 (Repeat " %v" (length args)) with
    | Some format => intLogf ERROR format args
    | None => panic
    end
  else ret tt.

Definition Stderrf (format : string) (args : list Value) : M unit :=
  intLogf ERROR format args.

Definition Stdout (args : list Value) : M unit :=
  if 0 <? Z.of_nat (length args) then
    match slice_from_1 (Repeat " %v" (length args)) with
    | Some format => intLogf INFO format args
    | None => panic
    end
  else ret tt.

Definition Stdoutf (format : string) (args : list Value) : M unit :=
  intLogf INFO format args.

(** [Exit] of the package; the name is taken by the outcome of a call. *)
Definition Exit_ (args : list Value) : M unit :=
  (if 0 <? Z.of_nat (length args) then
     match slice_from_1 (Repeat " %v" (length args)) with
     | Some format => intLogf ERROR format args
     | None => panic
     end
   else ret tt) ;;
  Close ;; (* so that hopefully the messages get logged *)
  os_Exit 0.

Definition Exitf (format : string) (args : list Value) : M unit :=
  intLogf ERROR format args ;;
  Close ;; (* so that hopefully the messages get logged *)
  os_Exit 0.

Definition Crash (args : list Value) : M unit :=
  (if 0 <? Z.of_nat (length args) then
     match slice_from_1 (Repeat " %v" (length args)) with
     | Some format => intLogf CRITICAL format args
     | None => panic
     end
   else ret tt) ;;
  panic.

(** Logs the given message and crashes the program. *)
Definition Crashf (format : string) (args : list Value) : M unit :=
  intLogf CRITICAL format args ;;
  Close ;; (* so that hopefully the messages get logged *)
  panic.

(** [Recover], to be deferred: [recovered] is what [recover()] returns, [nil]
    ([None]) when no panic is in flight. The value [Critical] returns is
    dropped. *)
Definition Recover (recovered : option Value) (arg0 : Iface)
    (args : list Value) : M unit :=
  match recovered with
  | Some err =>
      match arg0 with
      | IFunc1 _ =>
          (* the recovered err will pass to this func *)
          Critical arg0 ([err] ++ [slice_value args]) ;; ret tt
      | IVal (VStr a) =>
          Critical (IVal (VStr (a +:+ nl +:+ "%v"))) (args ++ [err]) ;; ret tt
      | _ => Critical arg0 (args ++ [err]) ;; ret tt
      end
  | None => ret tt
  end.

(** *** [SetupFileLog]

    Sets the file logger up from a JSON configuration; [rotate] and [daily]
    are always on. The level is converted and the writer is built before
    either result is looked at. *)
Definition SetupFileLog (cnf : jsonConfig) : M unit :=
  lb <- convertLevel (json_Level cnf) (Filename cnf) ;;
  let lvl := fst lb in
  let bad := snd lb in
  let excludes := Split (Excludes cnf) "," in
  let props :=
    [mkProperty "filename" (Filename cnf);
     mkProperty "maxlines" (Maxlines cnf);
     mkProperty "maxsize" (Maxsize cnf);
     mkProperty "daily" "true";
     mkProperty "rotate" "true"] in
  fg <- xmlToFileLogWriter (Filename cnf) excludes props true ;;
  let filt := fst fg in
  let good := snd fg in
  if bad || negb good then os_Exit 1
  else set_filter "file" (mkFilter lvl filt excludes).

(** *** Vocabulary of the further statements *)

(** What the last property called [name] says, read as a flag (anything but
    ["false"] is [true]) or as a number with a suffix; the default without
    such a property. *)
Definition last_flag (name : string) (props : list xmlProperty) : bool :=
  match last_value name props with
  | Some v => negb (String.eqb v "false")
  | None => false
  end.

Definition last_number (name : string) (mult : Z) (props : list xmlProperty)
    : Z :=
  match last_value name props with
  | Some v => strToNumSuffix v mult
  | None => 0
  end.

Definition last_text (name default : string) (props : list xmlProperty)
    : string :=
  match last_value name props with
  | Some v => v
  | None => default
  end.

(** The locals of the three loaders after one more property. *)
Definition file_step (l : FileLocals) (prop : xmlProperty) : FileLocals :=
  let n := Name prop in
  let v := Trim (Value_ prop) blanks in
  mkFileLocals
    (if String.eqb n "filename" then filepath_Join exec_dir v else fl_file l)
    (if String.eqb n "format" then v else fl_format l)
    (if String.eqb n "maxlines" then strToNumSuffix v 1000 else fl_maxlines l)
    (if String.eqb n "maxsize" then strToNumSuffix v 1024 else fl_maxsize l)
    (if String.eqb n "daily" then negb (String.eqb v "false") else fl_daily l)
    (if String.eqb n "rotate" then negb (String.eqb v "false")
     else fl_rotate l).

Definition xml_step (l : XMLLocals) (prop : xmlProperty) : XMLLocals :=
  let n := Name prop in
  let v := Trim (Value_ prop) blanks in
  mkXMLLocals
    (if String.eqb n "filename" then filepath_Join exec_dir v else xl_file l)
    (if String.eqb n "maxrecords" then strToNumSuffix v 1000
     else xl_maxrecords l)
    (if String.eqb n "maxsize" then strToNumSuffix v 1024 else xl_maxsize l)
    (if String.eqb n "daily" then negb (String.eqb v "false") else xl_daily l)
    (if String.eqb n "rotate" then negb (String.eqb v "false")
     else xl_rotate l).

Definition socket_step (l : SocketLocals) (prop : xmlProperty)
    : SocketLocals :=
  let n := Name prop in
  let v := Trim (Value_ prop) blanks in
  mkSocketLocals
    (if String.eqb n "endpoint" then v else sl_endpoint l)
    (if String.eqb n "protocol" then v else sl_protocol l).

(** The writers the loaders build from a list of properties. *)
Definition file_writer_of (props : list xmlProperty) : LogWriter :=
  FileLogWriter
    (match last_value "filename" props with
     | Some v => filepath_Join exec_dir v
     | None => EmptyString
     end)
    (last_flag "rotate" props)
    (last_text "format" "[%D %T] [%L] (%S) %M" props)
    (last_number "maxlines" 1000 props)
    (last_number "maxsize" 1024 props)
    (last_flag "daily" props).

Definition xml_writer_of (props : list xmlProperty) : LogWriter :=
  XMLLogWriter
    (match last_value "filename" props with
     | Some v => filepath_Join exec_dir v
     | None => EmptyString
     end)
    (last_flag "rotate" props)
    (last_number "maxrecords" 1000 props)
    (last_number "maxsize" 1024 props)
    (last_flag "daily" props).

Definition socket_writer_of (props : list xmlProperty) : LogWriter :=
  SocketLogWriter (last_text "protocol" "udp" props)
    (last_text "endpoint" EmptyString props).

(** The filter of a configuration that the loader can build: its level and
    type are known and the field its loader checks is not empty. *)
Definition filter_loads (xf : xmlFilter) : Prop :=
  known_level (Level_ xf)
  /\ In (Type_ xf) writer_types
  /\ required_field (Type_ xf) (Property xf) <> Some EmptyString.

(** The last enabled filter of a list that carries the tag [name]. *)
Fixpoint last_enabled (name : string) (filters : list xmlFilter)
    : option xmlFilter :=
  match filters with
  | [] => None
  | xf :: rest =>
      match last_enabled name rest with
      | Some later => Some later
      | None =>
          if enabled_of xf && String.eqb (Tag xf) name then Some xf else None
      end
  end.

(** The call, if any, that a wrapper of this style hands to the logger. *)
Definition print_call (lvl : Level) (args : list Value) : list LogCall :=
  match args with
  | [] => []
  | _ => [mkLogCall lvl (spaced_verbs (length args)) args]
  end.

(** Every byte of a string belongs to the cutset. *)
Fixpoint all_in_cutset (s cutset : string) : bool :=
  match s with
  | EmptyString => true
  | String c rest => in_cutset c cutset && all_in_cutset rest cutset
  end.

(** The writer a filter of the configuration stands for, by its type, and the
    level its level name stands for. *)
Definition writer_of (xf : xmlFilter) : LogWriter :=
  let t := Type_ xf in
  if String.eqb t "console" then ConsoleLogWriter
  else if String.eqb t "file" then file_writer_of (Property xf)
  else if String.eqb t "xml" then xml_writer_of (Property xf)
  else socket_writer_of (Property xf).

Definition level_of (name : string) : Level :=
  match List.find (fun nl => String.eqb (fst nl) name) level_names with
  | Some nl => snd nl
  | None => 0
  end.

(** The filter the loader adds for an enabled filter of the configuration. *)
Definition loaded_filter (xf : xmlFilter) : Filter :=
  mkFilter (level_of (Level_ xf)) (Some (writer_of xf)) (Exclude xf).

(** What each loader returns, and the world it leaves, by the field it
    checks. *)
Definition loader_result (writer : LogWriter) (field : string)
    (missing : Diag) (enabled : bool) (w1 : World)
    : Outcome (option LogWriter * bool) * World :=
  if is_empty field then (Ret (None, false), add_diag missing w1)
  else if enabled then (Ret (Some writer, true), add_created writer w1)
  else (Ret (None, true), w1).

(** The field the loader of a filter checks is empty. *)
Definition field_missing (xf : xmlFilter) : bool :=
  match required_field (Type_ xf) (Property xf) with
  | Some field => is_empty field
  | None => false
  end.

(** The warnings of the console loader, one for each property. *)
Definition console_warnings (filename : string) (props : list xmlProperty)
    : list Diag :=
  List.map (fun prop => Warn_UnknownProperty (Name prop) "console" filename)
    props.

(** The writer [SetupFileLog] builds from a JSON configuration. *)
Definition json_writer (cnf : jsonConfig) : LogWriter :=
  FileLogWriter (filepath_Join exec_dir (Trim (Filename cnf) blanks)) true
    "[%D %T] [%L] (%S) %M"
    (strToNumSuffix (Trim (Maxlines cnf) blanks) 1000)
    (strToNumSuffix (Trim (Maxsize cnf) blanks) 1024) true.


(** * Properties *)

(** ** Machine integers *)

Lemma wrap_int_small (z : Z) : minInt <= z <= maxInt -> wrap_int z = z.
Proof.
  unfold wrap_int, minInt, maxInt. intros H.
  rewrite Z.mod_small by lia. lia.
Qed.

Lemma wrap_int_mul_r (a b : Z) : wrap_int (a * wrap_int b) = wrap_int (a * b).
Proof.
  unfold wrap_int.
  rewrite (Z.mod_eq (b + 2 ^ 63) (2 ^ 64)) by lia.
  replace (a * (b + 2 ^ 63 - 2 ^ 64 * ((b + 2 ^ 63) / 2 ^ 64) - 2 ^ 63) + 2 ^ 63)
    with (a * b + 2 ^ 63 + (- a * ((b + 2 ^ 63) / 2 ^ 64)) * 2 ^ 64) by ring.
  now rewrite Z_mod_plus_full.
Qed.

Lemma wrap_int_mul_mid (a b c : Z) :
  wrap_int (a * (wrap_int b * c)) = wrap_int (a * (b * c)).
Proof.
  replace (a * (wrap_int b * c)) with (a * c * wrap_int b) by ring.
  rewrite wrap_int_mul_r. f_equal. ring.
Qed.

Lemma int_mul_scale1 (n mult : Z) :
  int_mul n (int_mul 1 mult) = wrap_int (n * mult ^ 1).
Proof.
  unfold int_mul. rewrite wrap_int_mul_r. f_equal. ring.
Qed.

Lemma int_mul_scale2 (n mult : Z) :
  int_mul n (int_mul (int_mul 1 mult) mult) = wrap_int (n * mult ^ 2).
Proof.
  unfold int_mul. rewrite wrap_int_mul_r, wrap_int_mul_mid. f_equal. ring.
Qed.

Lemma int_mul_scale3 (n mult : Z) :
  int_mul n (int_mul (int_mul (int_mul 1 mult) mult) mult)
  = wrap_int (n * mult ^ 3).
Proof.
  unfold int_mul.
  rewrite wrap_int_mul_r, wrap_int_mul_mid.
  replace (n * (wrap_int (1 * mult) * mult * mult))
    with (n * mult * (wrap_int (1 * mult) * mult)) by ring.
  rewrite wrap_int_mul_mid. f_equal. ring.
Qed.

(** ** Digits *)

Lemma is_digit_value (c : ascii) :
  is_digit c = true ->
  digit_value c = Some (Z.of_N (N_of_ascii c) - 48)
  /\ 0 <= Z.of_N (N_of_ascii c) - 48 <= 9.
Proof.
  unfold is_digit, digit_value. cbv zeta.
  intros H. rewrite H. split; [reflexivity | lia].
Qed.

Lemma not_digit_value (c : ascii) :
  is_digit c = false ->
  match digit_value c with
  | None => True
  | Some v => 10 <= v
  end.
Proof.
  unfold is_digit, digit_value. cbv zeta. intros H. rewrite H.
  repeat match goal with
         | |- context [if ?b then _ else _] => destruct b eqn:?
         end; try exact I; lia.
Qed.

Lemma decimal_value_mono (s : string) :
  forall acc, all_digits s = true -> 0 <= acc -> acc <= decimal_value s acc.
Proof.
  induction s as [| c rest IH]; intros acc Hd Hacc; simpl in *.
  - lia.
  - apply andb_true_iff in Hd as [Hc Hrest].
    destruct (is_digit_value c Hc) as [_ Hv].
    specialize (IH (acc * 10 + (Z.of_N (N_of_ascii c) - 48)) Hrest).
    lia.
Qed.

(** ** [ParseUint], [ParseInt] and [Atoi] on numerals and on other strings *)

Lemma ParseUint_cutoff_value : ParseUint_cutoff = 1844674407370955162.
Proof. reflexivity. Qed.

Lemma maxUint64_value : maxUint64 = 18446744073709551615.
Proof. reflexivity. Qed.

Lemma ParseUint_loop_digit (c : ascii) (rest : string) (n : Z) :
  is_digit c = true -> 0 <= n ->
  n * 10 + (Z.of_N (N_of_ascii c) - 48) <= maxUint64 ->
  ParseUint_loop (String c rest) n
  = ParseUint_loop rest (n * 10 + (Z.of_N (N_of_ascii c) - 48)).
Proof.
  intros Hc Hn Hle. destruct (is_digit_value c Hc) as [Hv Hrange].
  cbn [ParseUint_loop]. rewrite Hv. cbv zeta.
  rewrite maxUint64_value in *.
  destruct (Z.leb_spec 10 (Z.of_N (N_of_ascii c) - 48)); [lia |].
  destruct (Z.leb_spec ParseUint_cutoff n);
    [rewrite ParseUint_cutoff_value in *; lia |].
  rewrite Z.mod_small by lia.
  destruct (Z.ltb_spec (n * 10 + (Z.of_N (N_of_ascii c) - 48)) (n * 10));
    [lia |].
  destruct (Z.ltb_spec 18446744073709551615
              (n * 10 + (Z.of_N (N_of_ascii c) - 48))); [lia |].
  reflexivity.
Qed.

Lemma ParseUint_loop_digit_overflow (c : ascii) (rest : string) (n : Z) :
  is_digit c = true -> 0 <= n <= maxUint64 ->
  maxUint64 < n * 10 + (Z.of_N (N_of_ascii c) - 48) ->
  ParseUint_loop (String c rest) n = (maxUint64, Some ErrRange).
Proof.
  intros Hc Hn Hgt. destruct (is_digit_value c Hc) as [Hv Hrange].
  cbn [ParseUint_loop]. rewrite Hv. cbv zeta.
  destruct (Z.leb_spec 10 (Z.of_N (N_of_ascii c) - 48)); [lia |].
  destruct (Z.leb_spec ParseUint_cutoff n); [reflexivity |].
  rewrite ParseUint_cutoff_value, maxUint64_value in *.
  assert (Hmod : (n * 10 + (Z.of_N (N_of_ascii c) - 48)) mod 2 ^ 64
                 = n * 10 + (Z.of_N (N_of_ascii c) - 48) - 2 ^ 64).
  { symmetry. apply Z.mod_unique with (q := 1); lia. }
  rewrite Hmod.
  destruct (Z.ltb_spec (n * 10 + (Z.of_N (N_of_ascii c) - 48) - 2 ^ 64)
              (n * 10)); [reflexivity | lia].
Qed.

Lemma ParseUint_loop_not_digit (c : ascii) (rest : string) (n : Z) :
  is_digit c = false ->
  ParseUint_loop (String c rest) n = (0, Some ErrSyntax).
Proof.
  intros Hc. pose proof (not_digit_value c Hc) as Hv.
  cbn [ParseUint_loop]. destruct (digit_value c) as [v |]; [| reflexivity].
  destruct (Z.leb_spec 10 v); [reflexivity | lia].
Qed.

Lemma append_cons (c : ascii) (s t : string) :
  String c s +:+ t = String c (s +:+ t).
Proof. reflexivity. Qed.

(** The loop consumes a run of digits whose value fits 64 bits. *)
Lemma ParseUint_loop_digits (ds rest : string) :
  forall n, all_digits ds = true -> 0 <= n ->
  decimal_value ds n <= maxUint64 ->
  ParseUint_loop (ds +:+ rest) n = ParseUint_loop rest (decimal_value ds n).
Proof.
  induction ds as [| c ds IH]; intros n Hd Hn Hle.
  - reflexivity.
  - cbn [all_digits] in Hd. apply andb_true_iff in Hd as [Hc Hds].
    destruct (is_digit_value c Hc) as [_ Hrange].
    cbn [decimal_value] in Hle |- *. rewrite append_cons.
    pose proof (decimal_value_mono ds
                  (n * 10 + (Z.of_N (N_of_ascii c) - 48)) Hds ltac:(lia)).
    rewrite ParseUint_loop_digit by (auto; lia).
    apply IH; auto; lia.
Qed.

(** It stops with a range error as soon as a run of digits overflows 64
    bits, whatever follows the run. *)
Lemma ParseUint_loop_overflow (ds rest : string) :
  forall n, all_digits ds = true -> 0 <= n <= maxUint64 ->
  maxUint64 < decimal_value ds n ->
  ParseUint_loop (ds +:+ rest) n = (maxUint64, Some ErrRange).
Proof.
  induction ds as [| c ds IH]; intros n Hd Hn Hgt.
  - cbn [decimal_value] in Hgt. lia.
  - cbn [all_digits] in Hd. apply andb_true_iff in Hd as [Hc Hds].
    destruct (is_digit_value c Hc) as [_ Hrange].
    cbn [decimal_value] in Hgt. rewrite append_cons.
    destruct (Z_le_gt_dec (n * 10 + (Z.of_N (N_of_ascii c) - 48)) maxUint64).
    + rewrite ParseUint_loop_digit by (auto; lia).
      apply IH; auto; lia.
    + apply ParseUint_loop_digit_overflow; auto; lia.
Qed.

Lemma append_empty_r (s : string) : s +:+ EmptyString = s.
Proof.
  induction s as [| c s IH]; [reflexivity |].
  rewrite append_cons. congruence.
Qed.

Lemma ParseUint_digits (ds : string) :
  nonempty ds = true -> all_digits ds = true ->
  ParseUint ds
  = if decimal_value ds 0 <=? maxUint64 then (decimal_value ds 0, None)
    else (maxUint64, Some ErrRange).
Proof.
  intros Hne Hd.
  assert (Hp : ParseUint ds = ParseUint_loop ds 0) by (destruct ds; easy).
  rewrite Hp. rewrite <- (append_empty_r ds) at 1.
  destruct (Z.leb_spec (decimal_value ds 0) maxUint64).
  - rewrite ParseUint_loop_digits by (auto; lia). reflexivity.
  - apply ParseUint_loop_overflow; auto. rewrite maxUint64_value. lia.
Qed.

(** Every string is its leading digits followed by nothing or by a byte that
    is no digit. *)
Lemma leading_digits_split (s : string) :
  all_digits (leading_digits s) = true
  /\ (s = leading_digits s
      \/ exists c rest, is_digit c = false
         /\ s = leading_digits s +:+ String c rest).
Proof.
  induction s as [| c s [IHd IHs]]; cbn [leading_digits].
  - split; [reflexivity | left; reflexivity].
  - destruct (is_digit c) eqn:Hc.
    + cbn [all_digits]. rewrite Hc, IHd. split; [reflexivity |].
      destruct IHs as [IHs | (c' & rest & Hc' & IHs)].
      * left. congruence.
      * right. exists c', rest. split; [exact Hc' |].
        rewrite append_cons. congruence.
    + split; [reflexivity |]. right. exists c, s. split; [exact Hc | reflexivity].
Qed.

Lemma not_all_digits_leading (s : string) :
  all_digits s = false ->
  exists c rest, is_digit c = false /\ s = leading_digits s +:+ String c rest.
Proof.
  intros H. destruct (leading_digits_split s) as [Hd [Hs | Hs]]; [| exact Hs].
  rewrite Hs, Hd in H. discriminate.
Qed.

(** A string that is no run of digits, and whose leading digits fit 64 bits,
    is a syntax error with value 0. *)
Lemma ParseUint_malformed (s : string) :
  nonempty s && all_digits s = false ->
  decimal_value (leading_digits s) 0 <= maxUint64 ->
  ParseUint s = (0, Some ErrSyntax).
Proof.
  intros Hbad Hle. destruct s as [| c0 s0]; [reflexivity |].
  cbn [nonempty andb] in Hbad.
  assert (Hp : ParseUint (String c0 s0) = ParseUint_loop (String c0 s0) 0)
    by reflexivity.
  rewrite Hp.
  destruct (not_all_digits_leading _ Hbad) as (c & rest & Hc & Hs).
  destruct (leading_digits_split (String c0 s0)) as [Hd _].
  rewrite Hs at 1.
  rewrite ParseUint_loop_digits by (auto; lia).
  apply ParseUint_loop_not_digit. exact Hc.
Qed.

(** A string whose leading digits already overflow 64 bits is a range error
    with the largest value, malformed or not. *)
Lemma ParseUint_overflow (s : string) :
  maxUint64 < decimal_value (leading_digits s) 0 ->
  ParseUint s = (maxUint64, Some ErrRange).
Proof.
  intros Hgt. destruct s as [| c0 s0]; [cbn in Hgt; rewrite maxUint64_value in Hgt; lia |].
  assert (Hp : ParseUint (String c0 s0) = ParseUint_loop (String c0 s0) 0)
    by reflexivity.
  rewrite Hp.
  destruct (leading_digits_split (String c0 s0)) as [Hd [Hs | (c & rest & _ & Hs)]].
  - rewrite Hs at 1. rewrite <- (append_empty_r (leading_digits _)) at 1.
    apply ParseUint_loop_overflow; auto. rewrite maxUint64_value. lia.
  - rewrite Hs at 1.
    apply ParseUint_loop_overflow; auto. rewrite maxUint64_value. lia.
Qed.

Lemma decimal_value_nonneg (s : string) :
  all_digits s = true -> 0 <= decimal_value s 0.
Proof. intros H. apply (decimal_value_mono s 0 H). lia. Qed.

Lemma ParseInt_unfold (c : ascii) (rest : string) :
  ParseInt (String c rest)
  = ParseInt_finish (Ascii.eqb c "-")
      (ParseUint (unsigned_part (String c rest))).
Proof. reflexivity. Qed.

Lemma ParseInt_finish_value (neg : bool) (u : Z) :
  0 <= u ->
  let v := if neg then - u else u in
  ParseInt_finish neg
    (if u <=? maxUint64 then (u, None) else (maxUint64, Some ErrRange))
  = if v <? minInt then (minInt, Some ErrRange)
    else if maxInt <? v then (maxInt, Some ErrRange)
    else (v, None).
Proof.
  intros Hu v. subst v. unfold ParseInt_finish, minInt, maxInt.
  rewrite maxUint64_value.
  destruct (Z.leb_spec u 18446744073709551615) as [Hle | Hgt].
  - destruct neg; cbn [negb andb].
    + destruct (Z.ltb_spec (2 ^ 63) u).
      * destruct (Z.ltb_spec (- u) (- 2 ^ 63)); [reflexivity | lia].
      * destruct (Z.ltb_spec (- u) (- 2 ^ 63)); [lia |].
        destruct (Z.ltb_spec (2 ^ 63 - 1) (- u)); [lia |].
        f_equal. destruct (Z.eq_dec u (2 ^ 63)) as [-> | Hne].
        -- reflexivity.
        -- rewrite (wrap_int_small u) by (unfold minInt, maxInt; lia).
           apply wrap_int_small. unfold minInt, maxInt. lia.
    + destruct (Z.leb_spec (2 ^ 63) u).
      * destruct (Z.ltb_spec u (- 2 ^ 63)); [lia |].
        destruct (Z.ltb_spec (2 ^ 63 - 1) u); [reflexivity | lia].
      * destruct (Z.ltb_spec u (- 2 ^ 63)); [lia |].
        destruct (Z.ltb_spec (2 ^ 63 - 1) u); [lia |].
        f_equal. apply wrap_int_small. unfold minInt, maxInt. lia.
  - destruct neg; cbn [negb andb].
    + destruct (Z.ltb_spec (- u) (- 2 ^ 63)); [reflexivity | lia].
    + destruct (Z.ltb_spec u (- 2 ^ 63)); [lia |].
      destruct (Z.ltb_spec (2 ^ 63 - 1) u); [reflexivity | lia].
Qed.

(** [Atoi] on a numeral: its value, clamped to the range of [int]. *)
Lemma Atoi_numeral (s : string) (v : Z) :
  numeral_value s = Some v ->
  Atoi s = if v <? minInt then (minInt, Some ErrRange)
           else if maxInt <? v then (maxInt, Some ErrRange)
           else (v, None).
Proof.
  unfold Atoi. destruct s as [| c rest]; [discriminate |].
  unfold numeral_value. rewrite ParseInt_unfold. unfold unsigned_part.
  destruct (Ascii.eqb c "-") eqn:Hminus.
  - rewrite orb_true_r.
    destruct (nonempty rest && all_digits rest) eqn:Hrest; [| discriminate].
    apply andb_true_iff in Hrest as [Hne Hd]. intros [= <-].
    rewrite (ParseUint_digits rest Hne Hd).
    apply (ParseInt_finish_value true). now apply decimal_value_nonneg.
  - rewrite orb_false_r. destruct (Ascii.eqb c "+") eqn:Hplus.
    + destruct (nonempty rest && all_digits rest) eqn:Hrest; [| discriminate].
      apply andb_true_iff in Hrest as [Hne Hd]. intros [= <-].
      rewrite (ParseUint_digits rest Hne Hd).
      apply (ParseInt_finish_value false). now apply decimal_value_nonneg.
    + destruct (all_digits (String c rest)) eqn:Hd; [| discriminate].
      intros [= <-].
      rewrite (ParseUint_digits (String c rest) eq_refl Hd).
      apply (ParseInt_finish_value false (decimal_value (String c rest) 0)).
      exact (decimal_value_nonneg (String c rest) Hd).
Qed.

(** [Atoi] on a string that is no numeral: 0, unless the digits it starts
    with overflow 64 bits. *)
Lemma Atoi_malformed (s : string) :
  numeral_value s = None -> leading_value s <= maxUint64 ->
  Atoi s = (0, Some ErrSyntax).
Proof.
  unfold Atoi, leading_value. destruct s as [| c rest]; [reflexivity |].
  unfold numeral_value. rewrite ParseInt_unfold. unfold unsigned_part.
  intros Hnum Hle.
  assert (Hbad : (let body := if Ascii.eqb c "+" || Ascii.eqb c "-"
                              then rest else String c rest in
                  nonempty body && all_digits body) = false).
  { cbv zeta. destruct (Ascii.eqb c "-"); [rewrite orb_true_r |
      rewrite orb_false_r; destruct (Ascii.eqb c "+")].
    - destruct (nonempty rest && all_digits rest); [discriminate | reflexivity].
    - destruct (nonempty rest && all_digits rest); [discriminate | reflexivity].
    - cbn [nonempty andb].
      destruct (all_digits (String c rest)); [discriminate | reflexivity]. }
  cbv zeta in Hbad.
  rewrite (ParseUint_malformed _ Hbad Hle). reflexivity.
Qed.

(** ... and the nearest bound of [int] when they do. *)
Lemma Atoi_overflow (s : string) :
  maxUint64 < leading_value s ->
  Atoi s = (match s with
            | String "-" _ => minInt
            | _ => maxInt
            end, Some ErrRange).
Proof.
  unfold Atoi, leading_value. intros Hgt.
  destruct s as [| c rest];
    [cbn in Hgt; rewrite maxUint64_value in Hgt; lia |].
  rewrite ParseInt_unfold. rewrite (ParseUint_overflow _ Hgt).
  destruct (Ascii.eqb_spec c "-") as [-> | Hne].
  - reflexivity.
  - assert (Hm : match c with
                 | "-"%char => minInt
                 | _ => maxInt
                 end = maxInt).
    { destruct c as [[] [] [] [] [] [] [] []]; try reflexivity.
      now contradiction Hne. }
    cbv beta iota. rewrite Hm. reflexivity.
Qed.

(** ** The last byte of a string *)

Lemma length_append_char (p : string) (c : ascii) :
  String.length (p +:+ String c EmptyString) = S (String.length p).
Proof.
  induction p as [| a p IH]; [reflexivity |].
  rewrite append_cons. cbn [String.length]. congruence.
Qed.

Lemma get_append_char (p : string) (c : ascii) :
  String.get (String.length p) (p +:+ String c EmptyString) = Some c.
Proof.
  induction p as [| a p IH]; [reflexivity |].
  rewrite append_cons. cbn [String.length String.get]. exact IH.
Qed.

Lemma substring_append_char (p : string) (c : ascii) :
  String.substring 0 (String.length p) (p +:+ String c EmptyString) = p.
Proof.
  induction p as [| a p IH]; [reflexivity |].
  rewrite append_cons. cbn [String.length String.substring]. congruence.
Qed.

Lemma get_last_cons (a : ascii) (s : string) :
  nonempty s = true ->
  String.get (String.length (String a s) - 1) (String a s)
  = String.get (String.length s - 1) s.
Proof.
  destruct s as [| b s]; [discriminate |]. intros _.
  cbn [String.length]. rewrite !Nat.sub_succ, !Nat.sub_0_r. reflexivity.
Qed.

(** The index [len(str)-1] is in range as soon as the string is not empty:
    the indexing in [strToNumSuffix] cannot panic. *)
Lemma get_last_in_range (s : string) :
  nonempty s = true ->
  exists c, String.get (String.length s - 1) s = Some c.
Proof.
  induction s as [| a s IH]; [discriminate |]. intros _.
  destruct s as [| b s].
  - exists a. reflexivity.
  - rewrite get_last_cons by reflexivity. apply IH. reflexivity.
Qed.

Lemma get_last_digit (s : string) :
  nonempty s = true -> all_digits s = true ->
  exists c, String.get (String.length s - 1) s = Some c /\ is_digit c = true.
Proof.
  induction s as [| a s IH]; [discriminate |]. intros _ Hd.
  cbn [all_digits] in Hd. apply andb_true_iff in Hd as [Ha Hs].
  destruct s as [| b s].
  - exists a. split; [reflexivity | exact Ha].
  - rewrite get_last_cons by reflexivity. apply IH; [reflexivity | exact Hs].
Qed.

Lemma numeral_last_digit (p : string) (v : Z) :
  numeral_value p = Some v ->
  exists c, String.get (String.length p - 1) p = Some c /\ is_digit c = true.
Proof.
  destruct p as [| a rest]; [discriminate |]. unfold numeral_value.
  destruct (Ascii.eqb a "-"); [| destruct (Ascii.eqb a "+")].
  - destruct (nonempty rest && all_digits rest) eqn:H; [| discriminate].
    apply andb_true_iff in H as [Hne Hd]. intros _.
    rewrite get_last_cons by exact Hne. now apply get_last_digit.
  - destruct (nonempty rest && all_digits rest) eqn:H; [| discriminate].
    apply andb_true_iff in H as [Hne Hd]. intros _.
    rewrite get_last_cons by exact Hne. now apply get_last_digit.
  - destruct (all_digits (String a rest)) eqn:Hd; [| discriminate]. intros _.
    now apply get_last_digit.
Qed.

Lemma numeral_nonempty (p : string) (v : Z) :
  numeral_value p = Some v -> nonempty p = true.
Proof. destruct p; [discriminate | reflexivity]. Qed.

Lemma digit_no_suffix (c : ascii) : is_digit c = true -> suffix_power c = None.
Proof.
  destruct c as [[] [] [] [] [] [] [] []]; try reflexivity; discriminate.
Qed.

Lemma nonempty_length (s : string) :
  nonempty s = true -> (1 <= String.length s)%nat.
Proof. destruct s; [discriminate | cbn; lia]. Qed.

(** ** The [switch] of [strToNumSuffix] *)

Lemma suffix_switch_short (str : string) (mult : Z) :
  (String.length str <= 1)%nat -> suffix_switch str mult = (1, str).
Proof.
  intros H. unfold suffix_switch.
  destruct (Z.ltb_spec 1 (Z.of_nat (String.length str))); [lia | reflexivity].
Qed.

Lemma suffix_switch_other (str : string) (mult : Z) (c : ascii) :
  String.get (String.length str - 1) str = Some c ->
  suffix_power c = None ->
  suffix_switch str mult = (1, str).
Proof.
  intros Hget Hc. unfold suffix_switch. rewrite Hget.
  unfold suffix_power in Hc.
  destruct (Ascii.eqb c "K" || Ascii.eqb c "k"); [discriminate |].
  destruct (Ascii.eqb c "M" || Ascii.eqb c "m"); [discriminate |].
  destruct (Ascii.eqb c "G" || Ascii.eqb c "g"); [discriminate |].
  cbv zeta. cbn [orb].
  destruct (1 <? Z.of_nat (String.length str)); reflexivity.
Qed.

Lemma suffix_power_cases (c : ascii) (k : Z) :
  suffix_power c = Some k ->
  (k = 1 /\ (c = "K" \/ c = "k"))%char
  \/ (k = 2 /\ (c = "M" \/ c = "m"))%char
  \/ (k = 3 /\ (c = "G" \/ c = "g"))%char.
Proof.
  unfold suffix_power.
  destruct (Ascii.eqb_spec c "K") as [-> | _]; [intros [= <-]; auto |].
  destruct (Ascii.eqb_spec c "k") as [-> | _]; [intros [= <-]; auto |].
  destruct (Ascii.eqb_spec c "M") as [-> | _]; [intros [= <-]; auto |].
  destruct (Ascii.eqb_spec c "m") as [-> | _]; [intros [= <-]; auto |].
  destruct (Ascii.eqb_spec c "G") as [-> | _]; [intros [= <-]; auto 6 |].
  destruct (Ascii.eqb_spec c "g") as [-> | _]; [intros [= <-]; auto 6 |].
  discriminate.
Qed.

Lemma suffix_switch_suffix (p : string) (c : ascii) (k mult : Z) :
  nonempty p = true -> suffix_power c = Some k ->
  snd (suffix_switch (p +:+ String c EmptyString) mult) = p
  /\ forall n, int_mul n (fst (suffix_switch (p +:+ String c EmptyString) mult))
               = wrap_int (n * mult ^ k).
Proof.
  intros Hne Hk. pose proof (nonempty_length p Hne) as Hlen.
  unfold suffix_switch. rewrite length_append_char.
  replace (S (String.length p) - 1)%nat with (String.length p) by lia.
  rewrite get_append_char, substring_append_char.
  destruct (Z.ltb_spec 1 (Z.of_nat (S (String.length p)))); [| lia].
  destruct (suffix_power_cases c k Hk)
    as [[-> [-> | ->]] | [[-> [-> | ->]] | [-> [-> | ->]]]];
    cbn [Ascii.eqb Bool.eqb orb fst snd]; cbv zeta; cbn [fst snd];
    (split; [reflexivity | intros n]).
  all: first [apply int_mul_scale1 | apply int_mul_scale2 | apply int_mul_scale3].
Qed.

Lemma strToNumSuffix_eq (str : string) (mult : Z) :
  strToNumSuffix str mult
  = int_mul (fst (Atoi (snd (suffix_switch str mult))))
      (fst (suffix_switch str mult)).
Proof.
  unfold strToNumSuffix. destruct (suffix_switch str mult) as [num p].
  cbn [fst snd]. destruct (Atoi p). reflexivity.
Qed.

Lemma suffix_switch_numeral (p : string) (v mult : Z) :
  numeral_value p = Some v -> suffix_switch p mult = (1, p).
Proof.
  intros Hp. destruct (numeral_last_digit p v Hp) as (c & Hget & Hc).
  apply (suffix_switch_other p mult c Hget). now apply digit_no_suffix.
Qed.

Lemma last_split (s : string) :
  nonempty s = true ->
  exists c, String.get (String.length s - 1) s = Some c
    /\ s = String.substring 0 (String.length s - 1) s +:+ String c EmptyString
    /\ String.length (String.substring 0 (String.length s - 1) s)
       = (String.length s - 1)%nat.
Proof.
  induction s as [| a s IH]; [discriminate |]. intros _.
  destruct s as [| b s].
  - exists a. repeat split; reflexivity.
  - destruct (IH eq_refl) as (c & Hget & Hs & Hlen). exists c.
    rewrite get_last_cons by reflexivity. split; [exact Hget |].
    replace (String.length (String a (String b s)) - 1)%nat
      with (S (String.length (String b s) - 1)) by (cbn [String.length]; lia).
    cbn [String.substring]. rewrite append_cons. split.
    + f_equal. exact Hs.
    + cbn [String.length]. f_equal. exact Hlen.
Qed.

(** ** Numeric suffix parsing *)

(** C3 (amended). [strToNumSuffix] computes in the 64-bit [int]. On a numeral
    (optional sign, one or more decimal digits) whose value fits [int],
    followed by nothing or by one of K/k, M/m, G/g, it returns the value times
    [mult^0], [mult^1], [mult^2], [mult^3], wrapped to 64 bits, hence the
    exact product whenever that fits. A numeral beyond the range of [int] is
    read as the nearest bound of [int], not as 0. A string whose numeric part
    is no numeral yields 0 provided the digits it starts with fit 64 bits;
    when they do not, the nearest bound of [int] is read again. The indexing
    of the last byte is always in range. ["10K"] with 1000 gives
    10000, ["2M"] with 1024 gives 2097152, ["5"] gives 5, ["abc"] gives 0. *)
Theorem strToNumSuffix_numerals :
  (forall p v mult,
      numeral_value p = Some v -> minInt <= v <= maxInt ->
      strToNumSuffix p mult = v)
  /\ (forall p v c k mult,
      numeral_value p = Some v -> minInt <= v <= maxInt ->
      suffix_power c = Some k ->
      strToNumSuffix (p +:+ String c EmptyString) mult = wrap_int (v * mult ^ k)
      /\ (minInt <= v * mult ^ k <= maxInt ->
          strToNumSuffix (p +:+ String c EmptyString) mult = v * mult ^ k))
  /\ (forall p v mult,
      numeral_value p = Some v ->
      (maxInt < v -> strToNumSuffix p mult = maxInt)
      /\ (v < minInt -> strToNumSuffix p mult = minInt))
  /\ (forall str mult,
      numeral_value (snd (suffix_switch str mult)) = None ->
      leading_value (snd (suffix_switch str mult)) <= maxUint64 ->
      strToNumSuffix str mult = 0)
  /\ (forall str mult,
      maxUint64 < leading_value (snd (suffix_switch str mult)) ->
      strToNumSuffix str mult
      = int_mul (match snd (suffix_switch str mult) with
                 | String "-" _ => minInt
                 | _ => maxInt
                 end) (fst (suffix_switch str mult)))
  /\ (forall str,
      (1 < String.length str)%nat ->
      exists c, String.get (String.length str - 1) str = Some c)
  /\ strToNumSuffix "10K" 1000 = 10000
  /\ strToNumSuffix "2M" 1024 = 2 * 1024 * 1024
  /\ (forall mult, strToNumSuffix "5" mult = 5)
  /\ (forall mult, strToNumSuffix "abc" mult = 0).
Proof.
  assert (Hplain : forall p v mult,
             numeral_value p = Some v ->
             strToNumSuffix p mult = int_mul (fst (Atoi p)) 1).
  { intros p v mult Hp. rewrite strToNumSuffix_eq.
    now rewrite (suffix_switch_numeral p v mult Hp). }
  assert (Hone : forall z, minInt <= z <= maxInt -> int_mul z 1 = z).
  { intros z Hz. unfold int_mul. rewrite Z.mul_1_r. now apply wrap_int_small. }
  repeat apply conj.
  - intros p v mult Hp Hv. rewrite (Hplain p v mult Hp), (Atoi_numeral p v Hp).
    destruct (Z.ltb_spec v minInt); [lia |].
    destruct (Z.ltb_spec maxInt v); [lia |]. cbn [fst]. now apply Hone.
  - intros p v c k mult Hp Hv Hk.
    assert (Heq : strToNumSuffix (p +:+ String c EmptyString) mult
                  = wrap_int (v * mult ^ k)).
    { rewrite strToNumSuffix_eq.
      destruct (suffix_switch_suffix p c k mult (numeral_nonempty p v Hp) Hk)
        as [Hsnd Hfst].
      rewrite Hsnd, Hfst, (Atoi_numeral p v Hp).
      destruct (Z.ltb_spec v minInt); [lia |].
      destruct (Z.ltb_spec maxInt v); [lia |]. reflexivity. }
    split; [exact Heq |]. intros Hfit. rewrite Heq. now apply wrap_int_small.
  - intros p v mult Hp. rewrite (Hplain p v mult Hp), (Atoi_numeral p v Hp).
    split; intros Hv.
    + destruct (Z.ltb_spec v minInt); [unfold minInt, maxInt in *; lia |].
      destruct (Z.ltb_spec maxInt v); [| lia]. reflexivity.
    + destruct (Z.ltb_spec v minInt); [| lia]. reflexivity.
  - intros str mult Hnone Hle. rewrite strToNumSuffix_eq.
    rewrite (Atoi_malformed _ Hnone Hle). reflexivity.
  - intros str mult Hover. rewrite strToNumSuffix_eq.
    now rewrite (Atoi_overflow _ Hover).
  - intros str Hlen. apply get_last_in_range.
    destruct str; [cbn in Hlen; lia | reflexivity].
  - reflexivity.
  - reflexivity.
  - intros mult. apply (Hplain "5" 5 mult eq_refl).
  - intros mult. rewrite strToNumSuffix_eq.
    rewrite (suffix_switch_other "abc" mult "c" eq_refl eq_refl). reflexivity.
Qed.

(** C10. A suffix letter is looked at only when the string has at least two
    bytes: a shorter string is parsed as it stands, and whenever the switch
    recognises a suffix, what is left in front of it is not empty. The
    one-byte strings ["K"], ["M"] and ["G"] give 0 for every multiplier. *)
Theorem strToNumSuffix_suffix_needs_prefix :
  (forall str mult,
      (String.length str < 2)%nat -> suffix_switch str mult = (1, str))
  /\ (forall str mult,
      suffix_switch str mult = (1, str)
      \/ exists c k,
           suffix_power c = Some k
           /\ nonempty (snd (suffix_switch str mult)) = true
           /\ (2 <= String.length str)%nat
           /\ str = snd (suffix_switch str mult) +:+ String c EmptyString)
  /\ (forall mult,
      strToNumSuffix "K" mult = 0
      /\ strToNumSuffix "M" mult = 0
      /\ strToNumSuffix "G" mult = 0).
Proof.
  repeat apply conj.
  - intros str mult H. apply suffix_switch_short. lia.
  - intros str mult.
    destruct (le_lt_dec (String.length str) 1) as [Hshort | Hlong].
    { left. now apply suffix_switch_short. }
    assert (Hne : nonempty str = true)
      by (destruct str; [cbn in Hlong; lia | reflexivity]).
    destruct (last_split str Hne) as (c & Hget & Hsplit & Hlen).
    destruct (suffix_power c) as [k |] eqn:Hk.
    + right. exists c, k. split; [exact Hk |].
      assert (Hp : nonempty (String.substring 0 (String.length str - 1) str)
                   = true).
      { destruct (String.substring 0 (String.length str - 1) str);
          [cbn in Hlen; lia | reflexivity]. }
      set (p := String.substring 0 (String.length str - 1) str) in *.
      clearbody p. subst str.
      destruct (suffix_switch_suffix p c k mult Hp Hk) as [Hsnd _].
      rewrite Hsnd. repeat split; [exact Hp | lia].
    + left. now apply (suffix_switch_other str mult c).
  - intros mult. repeat split; reflexivity.
Qed.

(** ** The level-enabled check *)

Lemma isLevelEnabled_loop_true (lvl : Level) (filters : list (string * Filter)) :
  isLevelEnabled_loop lvl filters false = true
  <-> exists name filt, In (name, filt) filters /\ Filter_Level filt <= lvl.
Proof.
  induction filters as [| [name filt] rest IH]; cbn [isLevelEnabled_loop].
  - split; [discriminate | intros (? & ? & [] & _)].
  - destruct (Z.leb_spec (Filter_Level filt) lvl) as [Hle | Hgt].
    + split; [intros _ | reflexivity].
      exists name, filt. split; [left; reflexivity | exact Hle].
    + rewrite IH. split.
      * intros (n & f & Hin & Hle). exists n, f. split; [right |]; assumption.
      * intros (n & f & [Heq | Hin] & Hle).
        -- injection Heq as <- <-. lia.
        -- exists n, f. split; assumption.
Qed.

Lemma In_map_to_list (g : Logger) (name : string) (filt : Filter) :
  In (name, filt) (map_to_list g) <-> g !! name = Some filt.
Proof. rewrite <- list_elem_of_In. apply elem_of_map_to_list. Qed.

(** C4. [isLevelEnabled lvl] returns [true] exactly when some filter of the
    mapping has a threshold at or below [lvl]; it leaves the world as it is,
    and on a logger without filters it returns [false]. The exported
    predicates are this check at their level. *)
Theorem isLevelEnabled_iff_some_threshold (w : World) (lvl : Level) :
  (exists b, isLevelEnabled lvl w = (Ret b, w)
     /\ (b = true
         <-> exists name filt,
               Global w !! name = Some filt /\ Filter_Level filt <= lvl))
  /\ (Global w = ∅ -> isLevelEnabled lvl w = (Ret false, w))
  /\ IsFinestEnabled = isLevelEnabled FINEST
  /\ IsFineEnabled = isLevelEnabled FINE
  /\ IsDebugEnabled = isLevelEnabled DEBUG
  /\ IsTraceEnabled = isLevelEnabled TRACE
  /\ IsInfoEnabled = isLevelEnabled INFO
  /\ IsWarnEnabled = isLevelEnabled WARNING
  /\ IsErrorEnabled = isLevelEnabled ERROR.
Proof.
  split; [| split; [| repeat split]].
  - eexists. split; [reflexivity |].
    rewrite isLevelEnabled_loop_true.
    split; intros (name & filt & H & Hle); exists name, filt;
      (split; [apply In_map_to_list; exact H | exact Hle]).
  - intros Hempty. unfold isLevelEnabled.
    rewrite Hempty, map_to_list_empty. reflexivity.
Qed.

(** ** Filter acceptance and dispatch *)

Lemma Filter_accepts_iff (f : Filter) (r : LogRecord) :
  Filter_accepts f r = true
  <-> Filter_Level f <= Record_Level r
      /\ forall p, In p (Filter_Excludes f) ->
                   pattern_matches p (Record_Source r) = false.
Proof.
  unfold Filter_accepts. rewrite andb_true_iff, Z.leb_le, forallb_forall.
  split; intros [Hl He]; (split; [exact Hl |]); intros p Hp;
    specialize (He p Hp).
  - now apply negb_true_iff.
  - now apply negb_true_iff.
Qed.

(** C1. A filter accepts a record exactly when the record's level is at
    least the threshold and no exclude pattern matches the record's source.
    Acceptance is antitone in the threshold: a filter with a lower threshold
    and the same excludes accepts whatever the other accepts. [Log] hands the
    record to exactly the filters of the mapping that accept it. *)
Theorem Filter_accepts_threshold_and_excludes :
  (forall f r,
      Filter_accepts f r = true
      <-> Filter_Level f <= Record_Level r
          /\ forall p, In p (Filter_Excludes f) ->
                       pattern_matches p (Record_Source r) = false)
  /\ (forall w t t' e r,
      t <= t' ->
      Filter_accepts (mkFilter t' w e) r = true ->
      Filter_accepts (mkFilter t w e) r = true)
  /\ (forall w lvl source message,
      let r := mkLogRecord lvl time_Now source message in
      exists new,
        Log lvl source message w = (Ret tt, add_delivered new w)
        /\ forall name r',
             In (name, r') new
             <-> r' = r /\ exists f, Global w !! name = Some f
                                     /\ Filter_accepts f r = true).
Proof.
  split; [exact Filter_accepts_iff | split].
  - intros w t t' e r Hle. rewrite !Filter_accepts_iff. cbn.
    intros [Hl He]. split; [lia | exact He].
  - intros w lvl source message r. eexists. split; [reflexivity |].
    intros name r'. rewrite in_map_iff. split.
    + intros ([n f] & Heq & Hin). cbn [fst snd] in Heq.
      injection Heq as <- <-. apply filter_In in Hin as [Hin Hacc].
      cbn [snd] in Hacc. split; [reflexivity |]. exists f.
      split; [now apply In_map_to_list | exact Hacc].
    + intros (-> & f & Hlook & Hacc). exists (name, f).
      split; [reflexivity |]. apply filter_In.
      split; [now apply In_map_to_list | exact Hacc].
Qed.

(** ** The wrappers *)

Ltac run_wrapper :=
  cbv beta delta [bind ret modify intLogf intLogc Log call_closure
                  call_closure1 CallStack isLevelEnabled panic] iota zeta;
  cbn [fst snd closure_calls stack_captures log_calls delivered Global
       closed created mkdirs diag tick_closure add_stack_capture add_log_call
       add_delivered].

Lemma isLevelEnabled_loop_false (w : World) (lvl : Level) :
  (forall name filt, Global w !! name = Some filt -> lvl < Filter_Level filt) ->
  isLevelEnabled_loop lvl (map_to_list (Global w)) false = false.
Proof.
  intros Hnone. apply not_true_is_false. rewrite isLevelEnabled_loop_true.
  intros (name & filt & Hin & Hle). apply In_map_to_list in Hin.
  specialize (Hnone name filt Hin). lia.
Qed.

Lemma isLevelEnabled_loop_some (w : World) (lvl : Level) :
  (exists name filt, Global w !! name = Some filt /\ Filter_Level filt <= lvl) ->
  isLevelEnabled_loop lvl (map_to_list (Global w)) false = true.
Proof.
  intros (name & filt & Hlook & Hle). apply isLevelEnabled_loop_true.
  exists name, filt. split; [now apply In_map_to_list | exact Hle].
Qed.

(** What [intLogc] does to the count of closure invocations. *)
Lemma intLogc_closure_calls (lvl : Level) (closure : nat -> string) (w : World) :
  closure_calls (snd (intLogc lvl closure w))
  = if isLevelEnabled_loop lvl (map_to_list (Global w)) false
    then S (closure_calls w) else closure_calls w.
Proof.
  run_wrapper.
  destruct (isLevelEnabled_loop lvl (map_to_list (Global w)) false);
    reflexivity.
Qed.

(** C2 (amended). With a [func() string] as first argument, [Finest], [Fine],
    [Debug], [Trace], [Info] and [Access] invoke the closure at most once:
    not at all when no filter's threshold admits the level of the call, once
    when some filter's does. [Warn], [Error] and [Critical] invoke it exactly
    once in every state of the logger, to build the error they return. *)
Theorem closure_invocations (w : World) (closure : nat -> string)
    (args : list Value) :
  (forall entry lvl,
      In (entry, lvl) plain_entries ->
      let w' := snd (entry (IFunc0 closure) args w) in
      (closure_calls w' = closure_calls w
       \/ closure_calls w' = S (closure_calls w))
      /\ ((forall name filt,
              Global w !! name = Some filt -> lvl < Filter_Level filt) ->
          closure_calls w' = closure_calls w)
      /\ ((exists name filt,
              Global w !! name = Some filt /\ Filter_Level filt <= lvl) ->
          closure_calls w' = S (closure_calls w)))
  /\ closure_calls (snd (Warn (IFunc0 closure) args w)) = S (closure_calls w)
  /\ closure_calls (snd (Error (IFunc0 closure) args w)) = S (closure_calls w)
  /\ closure_calls (snd (Critical (IFunc0 closure) args w))
     = S (closure_calls w).
Proof.
  split; [| repeat split].
  intros entry lvl Hin w'.
  assert (Hw' : closure_calls w'
                = if isLevelEnabled_loop lvl (map_to_list (Global w)) false
                  then S (closure_calls w) else closure_calls w).
  { subst w'. cbn [plain_entries In] in Hin.
    destruct Hin as [H | [H | [H | [H | [H | [H | []]]]]]];
      injection H as <- <-; apply intLogc_closure_calls. }
  rewrite Hw'. repeat split.
  - destruct (isLevelEnabled_loop lvl _ false); auto.
  - intros Hnone. now rewrite (isLevelEnabled_loop_false w lvl Hnone).
  - intros Hsome. now rewrite (isLevelEnabled_loop_some w lvl Hsome).
Qed.

Lemma Forall_map_snd_const {A B C} (P : B -> Prop) (l : list (A * C)) (r : B) :
  P r -> Forall (fun nr => P (snd nr)) (List.map (fun nf => (fst nf, r)) l).
Proof. intros Hr. induction l; constructor; auto. Qed.

(** What a call of [Critical] does, for every shape of the first argument:
    the call handed to the logger, the records delivered, the stack captured
    and the error returned. *)
Lemma Critical_effect (arg0 : Iface) (args : list Value) (w : World) :
  Sprintf_joins_lines -> logf_render_joins_lines -> logf_render_plain ->
  has_closure_argument arg0 args ->
  let r := Critical arg0 args w in
  let text := rendered_message_Critical arg0 args (closure_calls w) in
  let message := text +:+ nl +:+ CallStack_text 3 in
  fst r = Ret (Some (errors_New text))
  /\ (exists call,
        log_calls (snd r) = log_calls w ++ [call]
        /\ call_level call = CRITICAL
        /\ logf_render (call_format call) (call_args call) = message)
  /\ (exists new,
        delivered (snd r) = delivered w ++ new
        /\ Forall (fun nr => Record_Message (snd nr) = message
                             /\ Record_Level (snd nr) = CRITICAL) new)
  /\ stack_captures (snd r) = stack_captures w ++ [3].
Proof.
  intros HS HL HP Hargs. cbv zeta.
  assert (Hmsg : forall a b,
             logf_render (Sprintf ("%s" +:+ nl +:+ "%s") [VStr a; VStr b]) []
             = a +:+ nl +:+ b)
    by (intros a b; now rewrite HP, HS).
  destruct arg0 as [[first | n | text] | closure | closure];
    try (destruct args as [| a0 args]; [destruct Hargs |]);
    unfold Critical, rendered_message_Critical, rendered_message;
    run_wrapper.
  all: split; [reflexivity |]; repeat split;
    [ eexists; split; [reflexivity | split; [reflexivity |]];
      cbn [call_format call_args]; first [apply Hmsg | apply HL]
    | eexists; split; [reflexivity |];
      apply (Forall_map_snd_const
               (fun r => Record_Message r = _ /\ Record_Level r = CRITICAL));
      cbn [Record_Message Record_Level];
      split; [first [apply Hmsg | apply HL] | reflexivity] ].
Qed.

(** C5. Whatever the shape of its first argument (a format string, a
    [func() string], a [func(interface{}) string] with its argument, or
    anything else), [Critical] hands the logger one call at level CRITICAL
    whose message is the caller's message, a line feed, and the stack captured
    by [CallStack(3)]; every record delivered for the call carries that
    message, and the capture at depth 3 is the only one made. The other
    wrappers ([Finest], [Fine], [Debug], [Trace], [Info], [Access], [Warn],
    [Error]) capture no stack. The statement about the message assumes of the
    formatting outside these sources what [Sprintf_joins_lines],
    [logf_render_joins_lines] and [logf_render_plain] say. *)
Theorem Critical_logs_message_and_stack :
  (forall arg0 args w,
      Sprintf_joins_lines -> logf_render_joins_lines -> logf_render_plain ->
      has_closure_argument arg0 args ->
      let w' := snd (Critical arg0 args w) in
      let message :=
        rendered_message_Critical arg0 args (closure_calls w)
        +:+ nl +:+ CallStack_text 3 in
      (exists call,
          log_calls w' = log_calls w ++ [call]
          /\ call_level call = CRITICAL
          /\ logf_render (call_format call) (call_args call) = message)
      /\ (exists new,
          delivered w' = delivered w ++ new
          /\ Forall (fun nr => Record_Message (snd nr) = message
                               /\ Record_Level (snd nr) = CRITICAL) new)
      /\ stack_captures w' = stack_captures w ++ [3])
  /\ (forall arg0 args w,
      (forall entry lvl,
          In (entry, lvl) plain_entries ->
          stack_captures (snd (entry arg0 args w)) = stack_captures w)
      /\ stack_captures (snd (Warn arg0 args w)) = stack_captures w
      /\ stack_captures (snd (Error arg0 args w)) = stack_captures w).
Proof.
  split.
  - intros arg0 args w HS HL HP Hargs.
    exact (proj2 (Critical_effect arg0 args w HS HL HP Hargs)).
  - intros arg0 args w. split; [| split].
    + intros entry lvl Hin. cbn [plain_entries In] in Hin.
      destruct Hin as [H | [H | [H | [H | [H | [H | []]]]]]];
        injection H as <- <-;
        destruct arg0 as [[first | n | text] | closure | closure];
        cbv beta delta [Finest Fine Debug Trace Info Access] iota zeta;
        run_wrapper;
        try destruct (isLevelEnabled_loop _ _ false); reflexivity.
    + destruct arg0 as [[first | n | text] | closure | closure]; reflexivity.
    + destruct arg0 as [[first | n | text] | closure | closure]; reflexivity.
Qed.

(** The logger is handed the text of the error: the call that [Warn] and
    [Error] make, rendered. *)
Lemma logged_text (arg0 : Iface) (args : list Value) (calls : nat) :
  logf_render_formats -> logf_render_plain -> Sprintf_string ->
  Sprintf_copies_text -> Sprintf_empty ->
  logs_its_text arg0 args ->
  match arg0 with
  | IVal (VStr format) => logf_render format args
  | IFunc0 closure => logf_render "%s" [VStr (closure calls)]
  | _ => logf_render (Sprint arg0 +:+ Repeat " %v" (length args)) args
  end
  = rendered_message arg0 args calls.
Proof.
  intros HF HP HS HC HE Hshape.
  assert (Hplain : forall text,
             no_percent text = true -> Sprintf text [] = text).
  { intros text Htext. rewrite <- (append_empty_r text) at 1.
    rewrite (HC text EmptyString [] Htext), HE. apply append_empty_r. }
  assert (Hother : forall first : Iface,
             args = [] \/ no_percent (Sprint first) = true ->
             logf_render (Sprint first +:+ Repeat " %v" (length args)) args
             = Sprint first +:+ Sprintf (Repeat " %v" (length args)) args).
  { intros first Hfirst. destruct args as [| a args].
    - cbn [length Repeat]. now rewrite HP, HE.
    - destruct Hfirst as [Hnil | Hfirst]; [discriminate Hnil |].
      rewrite HF by discriminate. now apply HC. }
  destruct arg0 as [[format | n | text] | closure | closure];
    cbn [rendered_message logs_its_text] in *.
  - destruct args as [| a args].
    + destruct Hshape as [Hargs | Hformat]; [now destruct Hargs |].
      now rewrite HP, Hplain.
    + apply HF. discriminate.
  - now apply Hother.
  - now apply Hother.
  - rewrite HF by discriminate. apply HS.
  - now apply Hother.
Qed.

(** C6. [Warn], [Error] and [Critical] return an error that is not [nil] and
    whose text is the message the wrapper builds itself: the format filled
    with the arguments, what the closure returned at its one invocation, or
    the first argument printed and the others after it. For [Critical] the
    message of the logged call is always this text, a line feed and the
    stack. [Warn] and [Error] hand the logger one call; its message, and the
    message of every record delivered for it, is the text of the error when
    the first argument is a closure, a format string with arguments or
    without [%], or another value that comes alone or whose printed form has
    no [%] (under the assumptions on the formatting outside these
    sources). *)
Theorem Warn_Error_Critical_return_error (arg0 : Iface) (args : list Value)
    (w : World) :
  let text := rendered_message arg0 args (closure_calls w) in
  fst (Warn arg0 args w) = Ret (Some (errors_New text))
  /\ fst (Error arg0 args w) = Ret (Some (errors_New text))
  /\ (has_closure_argument arg0 args ->
      fst (Critical arg0 args w)
      = Ret (Some (errors_New
                     (rendered_message_Critical arg0 args (closure_calls w)))))
  /\ (Sprintf_joins_lines -> logf_render_joins_lines -> logf_render_plain ->
      has_closure_argument arg0 args ->
      exists e call,
        fst (Critical arg0 args w) = Ret (Some e)
        /\ log_calls (snd (Critical arg0 args w)) = log_calls w ++ [call]
        /\ logf_render (call_format call) (call_args call)
           = (match e with errors_New t => t end)
             +:+ nl +:+ CallStack_text 3)
  /\ (forall format,
      arg0 = IVal (VStr format) ->
      log_calls (snd (Warn arg0 args w))
      = log_calls w ++ [mkLogCall WARNING format args]
      /\ log_calls (snd (Error arg0 args w))
         = log_calls w ++ [mkLogCall ERROR format args]
      /\ text = Sprintf format args)
  /\ (forall closure,
      arg0 = IFunc0 closure ->
      log_calls (snd (Warn arg0 args w))
      = log_calls w ++ [mkLogCall WARNING "%s" [VStr text]]
      /\ log_calls (snd (Error arg0 args w))
         = log_calls w ++ [mkLogCall ERROR "%s" [VStr text]])
  /\ (exists format' args' to_warn to_error,
        log_calls (snd (Warn arg0 args w))
        = log_calls w ++ [mkLogCall WARNING format' args']
        /\ log_calls (snd (Error arg0 args w))
           = log_calls w ++ [mkLogCall ERROR format' args']
        /\ delivered (snd (Warn arg0 args w)) = delivered w ++ to_warn
        /\ delivered (snd (Error arg0 args w)) = delivered w ++ to_error
        /\ (logf_render_formats -> logf_render_plain -> Sprintf_string ->
            Sprintf_copies_text -> Sprintf_empty ->
            logs_its_text arg0 args ->
            logf_render format' args' = text
            /\ Forall (fun nr => Record_Message (snd nr) = text) to_warn
            /\ Forall (fun nr => Record_Message (snd nr) = text) to_error)).
Proof.
  cbv zeta. repeat apply conj.
  - destruct arg0 as [[first | n | text] | closure | closure]; reflexivity.
  - destruct arg0 as [[first | n | text] | closure | closure]; reflexivity.
  - intros Hargs.
    destruct arg0 as [[first | n | text] | closure | closure];
      try (destruct args as [| a0 args]; [destruct Hargs |]); reflexivity.
  - intros HS HL HP Hargs.
    destruct (Critical_effect arg0 args w HS HL HP Hargs)
      as (Hret & (call & Hcalls & _ & Hmsg) & _).
    eexists. exists call. split; [exact Hret | split; [exact Hcalls |]].
    exact Hmsg.
  - intros format ->. repeat split.
  - intros closure ->. repeat split.
  - pose proof (logged_text arg0 args (closure_calls w)) as Htext.
    destruct arg0 as [[first | n | text] | closure | closure];
      unfold Warn, Error; run_wrapper;
      (do 4 eexists;
       split; [reflexivity |]; split; [reflexivity |];
       split; [reflexivity |]; split; [reflexivity |];
       intros HF HP HS HC HE Hshape;
       specialize (Htext HF HP HS HC HE Hshape);
       split; [exact Htext |];
       split;
       apply (Forall_map_snd_const (fun r => Record_Message r = _));
       cbn [Record_Message]; exact Htext).
Qed.

(** ** The configuration loader: what a step leaves untouched *)

Lemma same_logger_refl (w : World) : same_logger w w.
Proof. repeat split. exists []. now rewrite app_nil_r. Qed.

Lemma same_logger_trans (w1 w2 w3 : World) :
  same_logger w1 w2 -> same_logger w2 w3 -> same_logger w1 w3.
Proof.
  intros (G1 & C1 & K1 & l1 & D1) (G2 & C2 & K2 & l2 & D2).
  repeat split; try congruence.
  exists (l1 ++ l2). now rewrite D2, D1, app_assoc.
Qed.

Lemma same_logger_print (d : Diag) (w : World) : same_logger w (add_diag d w).
Proof. repeat split. now exists [d]. Qed.

Lemma same_logger_mkdir (d : string) (w : World) :
  same_logger w (add_mkdir d w).
Proof. repeat split. exists []. cbn. now rewrite app_nil_r. Qed.

Lemma same_logger_diag_In (w w' : World) (d : Diag) :
  same_logger w w' -> In d (diag w) -> In d (diag w').
Proof.
  intros (_ & _ & _ & l & ->) H. apply in_or_app. now left.
Qed.

Lemma diag_add_diag_In (d : Diag) (w : World) : In d (diag (add_diag d w)).
Proof. cbn. apply in_or_app. right. now left. Qed.

Lemma is_empty_true (s : string) : is_empty s = true <-> s = EmptyString.
Proof. destruct s; cbn; split; congruence. Qed.

Lemma is_empty_false (s : string) : is_empty s = false <-> s <> EmptyString.
Proof. destruct s; cbn; split; congruence. Qed.

Lemma last_value_from_acc (name : string) (props : list xmlProperty) :
  forall acc,
    last_value_from name props acc
    = match last_value_from name props None with
      | Some v => Some v
      | None => acc
      end.
Proof.
  induction props as [| p props IH]; intros acc; cbn [last_value_from].
  - reflexivity.
  - destruct (String.eqb (Name p) name).
    + rewrite (IH (Some _)). now destruct (last_value_from name props None).
    + apply IH.
Qed.

(** A loop over the properties that sets one field from the property called
    [name] and warns about the names it does not know. *)
Lemma for_fold_props {S} (body : S -> xmlProperty -> M S) (field : S -> string)
    (name kind fn : string) (conv : string -> string) (known : list string) :
  (forall l p w, exists l' w',
      body l p w = (Ret l', w') /\ same_logger w w'
      /\ field l' = (if String.eqb (Name p) name
                     then conv (Trim (Value_ p) blanks) else field l)
      /\ (~ In (Name p) known ->
          In (Warn_UnknownProperty (Name p) kind fn) (diag w'))) ->
  forall props l w, exists l' w',
    for_fold body props l w = (Ret l', w') /\ same_logger w w'
    /\ field l' = match last_value name props with
                  | Some v => conv v
                  | None => field l
                  end
    /\ (forall p, In p props -> ~ In (Name p) known ->
                  In (Warn_UnknownProperty (Name p) kind fn) (diag w')).
Proof.
  intros Hbody. induction props as [| a props IH]; intros l w.
  - exists l, w. repeat split; [apply same_logger_refl | intros p []].
  - destruct (Hbody l a w) as (l1 & w1 & E1 & S1 & F1 & W1).
    destruct (IH l1 w1) as (l' & w' & E & S' & F & W).
    exists l', w'. cbn [for_fold]. unfold bind. rewrite E1.
    split; [exact E | split; [eapply same_logger_trans; eassumption | split]].
    + rewrite F, F1. unfold last_value. cbn [last_value_from].
      rewrite (last_value_from_acc name props
                 (if String.eqb (Name a) name then _ else _)).
      destruct (last_value_from name props None); [reflexivity |].
      now destruct (String.eqb (Name a) name).
    + intros p [<- | Hin] Hp.
      * eapply same_logger_diag_In; [exact S' | now apply W1].
      * now apply W.
Qed.

(** Membership in a list that is written out. *)
Ltac in_list := cbn; repeat first [left; reflexivity | right].

Ltac known_name H :=
  exfalso; apply H; cbn; match goal with
  | e : _ = _ |- _ => rewrite e; in_list
  end.

Lemma file_property_step (fn : string) (l : FileLocals) (p : xmlProperty)
    (w : World) :
  exists l' w',
    file_property fn l p w = (Ret l', w') /\ same_logger w w'
    /\ fl_file l' = (if String.eqb (Name p) "filename"
                     then filepath_Join exec_dir (Trim (Value_ p) blanks)
                     else fl_file l)
    /\ (~ In (Name p) (known_properties "file") ->
        In (Warn_UnknownProperty (Name p) "file" fn) (diag w')).
Proof.
  unfold file_property. cbv zeta.
  destruct (String.eqb_spec (Name p) "filename") as [e | _].
  { unfold bind, stat_missing, modify, ret.
    destruct (dir_missing _ && negb _); do 2 eexists;
      (split; [reflexivity |]);
      (split; [first [apply same_logger_mkdir | apply same_logger_refl] |]);
      (split; [reflexivity | intros H; known_name H]). }
  destruct (String.eqb_spec (Name p) "format") as [e | _];
    [do 2 eexists; repeat split;
       [apply same_logger_refl | intros H; known_name H] |].
  destruct (String.eqb_spec (Name p) "maxlines") as [e | _];
    [do 2 eexists; repeat split;
       [apply same_logger_refl | intros H; known_name H] |].
  destruct (String.eqb_spec (Name p) "maxsize") as [e | _];
    [do 2 eexists; repeat split;
       [apply same_logger_refl | intros H; known_name H] |].
  destruct (String.eqb_spec (Name p) "daily") as [e | _];
    [do 2 eexists; repeat split;
       [apply same_logger_refl | intros H; known_name H] |].
  destruct (String.eqb_spec (Name p) "rotate") as [e | _];
    [do 2 eexists; repeat split;
       [apply same_logger_refl | intros H; known_name H] |].
  do 2 eexists. repeat split;
    [apply same_logger_print | intros _; apply diag_add_diag_In].
Qed.

Lemma xml_property_step (fn : string) (l : XMLLocals) (p : xmlProperty)
    (w : World) :
  exists l' w',
    xml_property fn l p w = (Ret l', w') /\ same_logger w w'
    /\ xl_file l' = (if String.eqb (Name p) "filename"
                     then filepath_Join exec_dir (Trim (Value_ p) blanks)
                     else xl_file l)
    /\ (~ In (Name p) (known_properties "xml") ->
        In (Warn_UnknownProperty (Name p) "xml" fn) (diag w')).
Proof.
  unfold xml_property. cbv zeta.
  destruct (String.eqb_spec (Name p) "filename") as [e | _];
    [do 2 eexists; repeat split;
       [apply same_logger_refl | intros H; known_name H] |].
  destruct (String.eqb_spec (Name p) "maxrecords") as [e | _];
    [do 2 eexists; repeat split;
       [apply same_logger_refl | intros H; known_name H] |].
  destruct (String.eqb_spec (Name p) "maxsize") as [e | _];
    [do 2 eexists; repeat split;
       [apply same_logger_refl | intros H; known_name H] |].
  destruct (String.eqb_spec (Name p) "daily") as [e | _];
    [do 2 eexists; repeat split;
       [apply same_logger_refl | intros H; known_name H] |].
  destruct (String.eqb_spec (Name p) "rotate") as [e | _];
    [do 2 eexists; repeat split;
       [apply same_logger_refl | intros H; known_name H] |].
  do 2 eexists. repeat split;
    [apply same_logger_print | intros _; apply diag_add_diag_In].
Qed.

Lemma socket_property_step (fn : string) (l : SocketLocals) (p : xmlProperty)
    (w : World) :
  exists l' w',
    socket_property fn l p w = (Ret l', w') /\ same_logger w w'
    /\ sl_endpoint l' = (if String.eqb (Name p) "endpoint"
                         then Trim (Value_ p) blanks else sl_endpoint l)
    /\ (~ In (Name p) (known_properties "socket") ->
        In (Warn_UnknownProperty (Name p) "file" fn) (diag w')).
Proof.
  unfold socket_property. cbv zeta.
  destruct (String.eqb_spec (Name p) "endpoint") as [e | _];
    [do 2 eexists; repeat split;
       [apply same_logger_refl | intros H; known_name H] |].
  destruct (String.eqb_spec (Name p) "protocol") as [e | _];
    [do 2 eexists; repeat split;
       [apply same_logger_refl | intros H; known_name H] |].
  do 2 eexists. repeat split;
    [apply same_logger_print | intros _; apply diag_add_diag_In].
Qed.

Lemma console_properties (fn : string) (props : list xmlProperty) :
  forall w, exists w',
    for_each (fun prop => print (Warn_UnknownProperty (Name prop) "console" fn))
      props w = (Ret tt, w')
    /\ same_logger w w'
    /\ forall p, In p props ->
                 In (Warn_UnknownProperty (Name p) "console" fn) (diag w').
Proof.
  induction props as [| a props IH]; intros w.
  - exists w. repeat split; [apply same_logger_refl | intros p []].
  - destruct (IH (add_diag (Warn_UnknownProperty (Name a) "console" fn) w))
      as (w' & E & S' & W).
    exists w'. cbn [for_each]. unfold bind, print, modify.
    split; [exact E | split].
    + eapply same_logger_trans; [apply same_logger_print | exact S'].
    + intros p [<- | Hin]; [| now apply W].
      eapply same_logger_diag_In; [exact S' | apply diag_add_diag_In].
Qed.

(** ** The writer loaders *)

Lemma xmlToConsoleLogWriter_outcome (fn : string) (ex : list string)
    (props : list xmlProperty) (en : bool) (w : World) :
  loader_outcome "console" fn props en w
    (xmlToConsoleLogWriter fn ex props en w).
Proof.
  unfold xmlToConsoleLogWriter, bind.
  destruct (console_properties fn props w) as (w1 & E & S1 & W).
  rewrite E. exists w1. split; [exact S1 | split].
  - intros p Hin _. now apply W.
  - right. destruct en; [right | left];
      (split; [discriminate | split; [reflexivity |]]).
    + eexists. reflexivity.
    + reflexivity.
Qed.

Lemma xmlToFileLogWriter_outcome (fn : string) (ex : list string)
    (props : list xmlProperty) (en : bool) (w : World) :
  loader_outcome "file" fn props en w (xmlToFileLogWriter fn ex props en w).
Proof.
  unfold xmlToFileLogWriter, bind.
  destruct (for_fold_props (file_property fn) fl_file "filename" "file" fn
              (filepath_Join exec_dir) (known_properties "file")
              (file_property_step fn) props
              (mkFileLocals "" "[%D %T] [%L] (%S) %M" 0 0 false false) w)
    as (l' & w1 & E & S1 & F & W).
  rewrite E. exists w1. split; [exact S1 | split; [exact W |]].
  assert (Hreq : required_field "file" props = Some (fl_file l'))
    by (rewrite F; reflexivity).
  rewrite Hreq. destruct (is_empty (fl_file l')) eqn:Hfile.
  - left. exists "filename". apply is_empty_true in Hfile.
    split; [now rewrite Hfile | reflexivity].
  - right. apply is_empty_false in Hfile. destruct en; [right | left];
      (split; [congruence | split; [reflexivity |]]).
    + eexists. reflexivity.
    + reflexivity.
Qed.

Lemma xmlToXMLLogWriter_outcome (fn : string) (ex : list string)
    (props : list xmlProperty) (en : bool) (w : World) :
  loader_outcome "xml" fn props en w (xmlToXMLLogWriter fn ex props en w).
Proof.
  unfold xmlToXMLLogWriter, bind.
  destruct (for_fold_props (xml_property fn) xl_file "filename" "xml" fn
              (filepath_Join exec_dir) (known_properties "xml")
              (xml_property_step fn) props
              (mkXMLLocals "" 0 0 false false) w)
    as (l' & w1 & E & S1 & F & W).
  rewrite E. exists w1. split; [exact S1 | split; [exact W |]].
  assert (Hreq : required_field "xml" props = Some (xl_file l'))
    by (rewrite F; reflexivity).
  rewrite Hreq. destruct (is_empty (xl_file l')) eqn:Hfile.
  - left. exists "filename". apply is_empty_true in Hfile.
    split; [now rewrite Hfile | reflexivity].
  - right. apply is_empty_false in Hfile. destruct en; [right | left];
      (split; [congruence | split; [reflexivity |]]).
    + eexists. reflexivity.
    + reflexivity.
Qed.

Lemma xmlToSocketLogWriter_outcome (fn : string) (ex : list string)
    (props : list xmlProperty) (en : bool) (w : World) :
  loader_outcome "socket" fn props en w
    (xmlToSocketLogWriter fn ex props en w).
Proof.
  unfold xmlToSocketLogWriter, bind.
  destruct (for_fold_props (socket_property fn) sl_endpoint "endpoint" "file"
              fn (fun v => v) (known_properties "socket")
              (socket_property_step fn) props (mkSocketLocals "" "udp") w)
    as (l' & w1 & E & S1 & F & W).
  rewrite E. exists w1. split; [exact S1 | split; [exact W |]].
  assert (Hreq : required_field "socket" props = Some (sl_endpoint l'))
    by (rewrite F; reflexivity).
  rewrite Hreq. destruct (is_empty (sl_endpoint l')) eqn:Hep.
  - left. exists "endpoint". apply is_empty_true in Hep.
    split; [now rewrite Hep | reflexivity].
  - right. apply is_empty_false in Hep. destruct en; [right | left];
      (split; [congruence | split; [reflexivity |]]).
    + eexists. reflexivity.
    + reflexivity.
Qed.

Lemma LoadConfiguration_writer_outcome (fn : string) (xf : xmlFilter)
    (en : bool) (w : World) :
  (In (Type_ xf) writer_types ->
   loader_outcome (Type_ xf) fn (Property xf) en w
     (LoadConfiguration_writer fn xf en w))
  /\ (~ In (Type_ xf) writer_types ->
      LoadConfiguration_writer fn xf en w
      = (Exit 1, add_diag (Err_UnknownType fn (Type_ xf)) w)).
Proof.
  unfold LoadConfiguration_writer. cbv zeta.
  destruct (String.eqb_spec (Type_ xf) "console") as [-> | Hc].
  { split; [intros _; apply xmlToConsoleLogWriter_outcome |].
    intros H. exfalso. apply H. in_list. }
  destruct (String.eqb_spec (Type_ xf) "file") as [-> | Hf].
  { split; [intros _; apply xmlToFileLogWriter_outcome |].
    intros H. exfalso. apply H. in_list. }
  destruct (String.eqb_spec (Type_ xf) "xml") as [-> | Hx].
  { split; [intros _; apply xmlToXMLLogWriter_outcome |].
    intros H. exfalso. apply H. in_list. }
  destruct (String.eqb_spec (Type_ xf) "socket") as [-> | Hs].
  { split; [intros _; apply xmlToSocketLogWriter_outcome |].
    intros H. exfalso. apply H. in_list. }
  split; [| reflexivity].
  cbn. intros [H | [H | [H | [H | []]]]]; congruence.
Qed.

(** ** Levels of the configuration *)

Lemma convertLevel_cases (level fn : string) (w : World) :
  (forall lvl, In (level, lvl) level_names ->
               convertLevel level fn w = (Ret (lvl, false), w))
  /\ (~ known_level level ->
      convertLevel level fn w
      = (Ret (0, true), add_diag (Err_UnknownLevel fn level) w)).
Proof.
  unfold convertLevel, known_level.
  repeat match goal with
         | |- context [String.eqb level ?s] =>
             destruct (String.eqb_spec level s) as [-> | ?]
         end;
    (split;
     [ intros lvl Hin; cbn in Hin;
       repeat (destruct Hin as [Hin | Hin];
               [first [ injection Hin as <-; reflexivity
                      | congruence ] |]);
       destruct Hin
     | intros Hun; first [ exfalso; apply Hun; in_list; fail | reflexivity ] ]).
Qed.

Lemma known_level_In (level : string) :
  known_level level -> exists lvl, In (level, lvl) level_names.
Proof.
  unfold known_level. rewrite in_map_iff. intros ([n lvl] & <- & Hin).
  now exists lvl.
Qed.

Lemma known_level_dec (level : string) : {known_level level} + {~ known_level level}.
Proof. apply in_dec, String.string_dec. Qed.

Lemma writer_type_dec (t : string) : {In t writer_types} + {~ In t writer_types}.
Proof. apply in_dec, String.string_dec. Qed.

Lemma LoadConfiguration_required_cases (fn : string) (xf : xmlFilter)
    (w : World) :
  exists w0,
    same_logger w w0
    /\ (forall lvl,
          In (Level_ xf, lvl) level_names ->
          LoadConfiguration_required fn xf w = (Ret (lvl, enabled_of xf), w0))
    /\ (~ known_level (Level_ xf) ->
        LoadConfiguration_required fn xf w
        = (Exit 1, add_diag (Err_UnknownLevel fn (Level_ xf)) w0)).
Proof.
  unfold LoadConfiguration_required, enabled_of. cbv zeta.
  unfold bind, print, modify, ret, os_Exit.
  destruct (is_empty (Enabled xf)), (is_empty (Tag xf)),
    (is_empty (Type_ xf)), (is_empty (Level_ xf));
    cbn [fst snd negb andb];
    (eexists; split;
     [| split;
        [ intros lvl Hin;
          rewrite (proj1 (convertLevel_cases _ _ _) lvl Hin); reflexivity
        | intros Hun;
          rewrite (proj2 (convertLevel_cases _ _ _) Hun); reflexivity ]]).
  all: repeat first [ apply same_logger_refl
                    | eapply same_logger_trans;
                      [| apply same_logger_print] ].
Qed.

(** The body of the loop, for a filter whose level and type are known: the
    required children are checked, the loader of the type runs, and the
    filter is added if the loader is content and the filter is enabled. *)
Lemma LoadConfiguration_filter_known (fn : string) (xf : xmlFilter)
    (w : World) (lvl : Level) :
  In (Level_ xf, lvl) level_names -> In (Type_ xf) writer_types ->
  exists w0 lo,
    same_logger w w0
    /\ loader_outcome (Type_ xf) fn (Property xf) (enabled_of xf) w0 lo
    /\ LoadConfiguration_filter fn xf w
       = match lo with
         | (Ret (filt, good), w1) =>
             if negb good then (Exit 1, w1)
             else if negb (enabled_of xf) then (Ret tt, w1)
             else (Ret tt,
                   set_Global
                     (<[Tag xf := mkFilter lvl filt (Exclude xf)]> (Global w1))
                     w1)
         | (Exit c, w1) => (Exit c, w1)
         | (Panic, w1) => (Panic, w1)
         end.
Proof.
  intros Hlvl Htype.
  destruct (LoadConfiguration_required_cases fn xf w) as (w0 & S0 & Hk & _).
  exists w0, (LoadConfiguration_writer fn xf (enabled_of xf) w0).
  split; [exact S0 | split].
  - now apply LoadConfiguration_writer_outcome.
  - unfold LoadConfiguration_filter, bind. rewrite (Hk lvl Hlvl).
    cbn [fst snd].
    destruct (LoadConfiguration_writer fn xf (enabled_of xf) w0)
      as [[[filt good] | c |] w1]; try reflexivity.
    cbn [fst snd]. destruct good; cbn [negb]; [| reflexivity].
    unfold ret. destruct (enabled_of xf); reflexivity.
Qed.

(** What the body of the loop can do to the logger: exit with code 1, pass
    without a trace in the mapping, or add one filter under the tag, with a
    writer just instantiated. It closes nothing. *)
Lemma LoadConfiguration_filter_cases (fn : string) (xf : xmlFilter)
    (w : World) :
  let r := LoadConfiguration_filter fn xf w in
  closed (snd r) = closed w
  /\ ((fst r = Exit 1 /\ Global (snd r) = Global w
       /\ created (snd r) = created w)
      \/ (fst r = Ret tt /\ enabled_of xf = false
          /\ Global (snd r) = Global w /\ created (snd r) = created w)
      \/ (fst r = Ret tt /\ enabled_of xf = true
          /\ exists lvl x,
               In (Level_ xf, lvl) level_names
               /\ created (snd r) = created w ++ [x]
               /\ Global (snd r)
                  = <[Tag xf := mkFilter lvl (Some x) (Exclude xf)]>
                      (Global w))).
Proof.
  cbv zeta. destruct (known_level_dec (Level_ xf)) as [Hk | Hun].
  - destruct (known_level_In _ Hk) as [lvl Hlvl].
    destruct (writer_type_dec (Type_ xf)) as [Ht | Ht].
    + destruct (LoadConfiguration_filter_known fn xf w lvl Hlvl Ht)
        as (w0 & lo & (G0 & C0 & K0 & _) & (w1 & (G1 & C1 & K1 & _) & _ & Hlo)
            & ->).
      destruct Hlo as [(req & _ & ->) | [(_ & Hen & ->) | (_ & Hen & x & ->)]];
        cbn [negb fst snd]; rewrite ?Hen; cbn [negb fst snd closed Global
          created add_diag add_created set_Global].
      * split; [congruence | left; repeat split; congruence].
      * split; [congruence | right; left; repeat split; congruence].
      * split; [congruence | right; right; repeat split].
        exists lvl, x. repeat split; [exact Hlvl | congruence | congruence].
    + destruct (LoadConfiguration_required_cases fn xf w)
        as (w0 & (G0 & C0 & K0 & _) & Hreq & _).
      unfold LoadConfiguration_filter, bind. rewrite (Hreq lvl Hlvl).
      cbn [fst snd].
      rewrite (proj2 (LoadConfiguration_writer_outcome fn xf _ w0) Ht).
      cbn. split; [congruence | left; repeat split; congruence].
  - destruct (LoadConfiguration_required_cases fn xf w)
      as (w0 & (G0 & C0 & K0 & _) & _ & Hreq).
    unfold LoadConfiguration_filter, bind. rewrite (Hreq Hun).
    cbn. split; [congruence | left; repeat split; congruence].
Qed.

Lemma LoadConfiguration_filter_unknown_level (fn : string) (xf : xmlFilter)
    (w : World) :
  ~ known_level (Level_ xf) -> fst (LoadConfiguration_filter fn xf w) = Exit 1.
Proof.
  intros Hun.
  destruct (LoadConfiguration_required_cases fn xf w) as (w0 & _ & _ & Hreq).
  unfold LoadConfiguration_filter, bind. now rewrite (Hreq Hun).
Qed.

(** ** Loading a configuration *)

Lemma for_each_filters_exit (fn : string) (filters : list xmlFilter) :
  forall w,
    (exists xf, In xf filters /\ ~ known_level (Level_ xf)) ->
    fst (for_each (LoadConfiguration_filter fn) filters w) = Exit 1.
Proof.
  induction filters as [| a rest IH]; intros w (xf & Hin & Hun).
  - destruct Hin.
  - cbn [for_each]. unfold bind.
    pose proof (LoadConfiguration_filter_cases fn a w) as Hcases.
    pose proof (LoadConfiguration_filter_unknown_level fn a w) as Hhead.
    cbv zeta in Hcases.
    destruct (LoadConfiguration_filter fn a w) as [[[] | c |] w1];
      cbn [fst snd] in *.
    + destruct Hin as [-> | Hin]; [specialize (Hhead Hun); discriminate |].
      apply IH. now exists xf.
    + destruct Hcases as (_ & [(H & _) | [(H & _) | (H & _)]]);
        congruence.
    + destruct Hcases as (_ & [(H & _) | [(H & _) | (H & _)]]);
        discriminate.
Qed.

(** X16. [convertLevel] maps each of the nine names ACCESS, FINEST, FINE,
    DEBUG, TRACE, INFO, WARNING, ERROR, CRITICAL to its level without
    complaint, and flags every other string as bad (with an error line); so
    the flag is clear exactly on the nine names. A configuration in which
    some filter names an unknown level makes [LoadConfiguration] end the
    process with exit code 1. *)
Theorem convertLevel_nine_names_else_fatal :
  List.map fst level_names
  = ["ACCESS"; "FINEST"; "FINE"; "DEBUG"; "TRACE"; "INFO"; "WARNING"; "ERROR";
     "CRITICAL"]
  /\ (forall level filename w,
      (forall lvl, In (level, lvl) level_names ->
                   convertLevel level filename w = (Ret (lvl, false), w))
      /\ (~ known_level level ->
          convertLevel level filename w
          = (Ret (0, true), add_diag (Err_UnknownLevel filename level) w))
      /\ (known_level level
          <-> exists lvl w', convertLevel level filename w
                             = (Ret (lvl, false), w')))
  /\ (forall filename w xc xf,
      read_config filename = Decoded xc ->
      In xf (Filter_ xc) -> ~ known_level (Level_ xf) ->
      fst (LoadConfiguration filename w) = Exit 1).
Proof.
  split; [reflexivity | split].
  - intros level filename w.
    destruct (convertLevel_cases level filename w) as [Hk Hun].
    split; [exact Hk | split; [exact Hun |]]. split.
    + intros H. destruct (known_level_In _ H) as [lvl Hlvl].
      exists lvl, w. now apply Hk.
    + intros (lvl & w' & E). destruct (known_level_dec level) as [H | H];
        [exact H |]. rewrite (Hun H) in E. discriminate.
  - intros filename w xc xf Hread Hin Hun.
    unfold LoadConfiguration, bind, print, modify, Close. rewrite Hread.
    apply for_each_filters_exit. now exists xf.
Qed.

Lemma for_each_filters_inv (fn : string) (filters : list xmlFilter) :
  forall w,
    let w' := snd (for_each (LoadConfiguration_filter fn) filters w) in
    closed w' = closed w
    /\ forall name f,
         Global w' !! name = Some f ->
         Global w !! name = Some f
         \/ exists xf lvl x,
              In xf filters /\ Tag xf = name /\ enabled_of xf = true
              /\ In (Level_ xf, lvl) level_names
              /\ f = mkFilter lvl (Some x) (Exclude xf).
Proof.
  induction filters as [| a rest IH]; intros w; cbv zeta.
  - cbn. split; [reflexivity | intros; now left].
  - cbn [for_each]. unfold bind.
    pose proof (LoadConfiguration_filter_cases fn a w) as Hcases.
    cbv zeta in Hcases.
    destruct (LoadConfiguration_filter fn a w) as [[[] | c |] w1];
      cbn [fst snd] in *.
    + specialize (IH w1). cbv zeta in IH. destruct IH as [IHc IHg].
      destruct Hcases as (Hc & Heff). split; [congruence |].
      intros name f Hlook. destruct (IHg name f Hlook) as [H1 | H1].
      * destruct Heff as [(H & _) | [(_ & _ & HG & _) | (_ & Hen & lvl & x
                                                        & Hlvl & _ & HG)]].
        -- discriminate.
        -- left. congruence.
        -- rewrite HG in H1. apply lookup_insert_Some in H1
             as [[<- <-] | [_ H1]]; [right | now left].
           exists a, lvl, x. repeat split; auto. now left.
      * right. destruct H1 as (xf & lvl & x & Hin & H1).
        exists xf, lvl, x. split; [now right | exact H1].
    + destruct Hcases as (Hc & [(_ & HG & _) | [(H & _) | (H & _)]]);
        try discriminate.
      split; [exact Hc |]. intros name f Hlook. left. congruence.
    + destruct Hcases as (Hc & [(H & _) | [(H & _) | (H & _)]]);
        discriminate.
Qed.

(** C9. [LoadConfiguration] closes the logger first: every writer of the
    mapping it finds is closed, exactly those, and the filters that are in
    the mapping when the call ends, however it ends, are filters the new file
    declares and enables, with the level and excludes declared there. When
    the file cannot be opened, read or decoded, the mapping ends empty. *)
Theorem LoadConfiguration_replaces_filters (filename : string) (w : World) :
  let w' := snd (LoadConfiguration filename w) in
  closed w'
  = closed w
    ++ List.map (fun nf => Filter_LogWriter (snd nf)) (map_to_list (Global w))
  /\ (forall name f,
      Global w !! name = Some f -> In (Filter_LogWriter f) (closed w'))
  /\ (forall name f,
      Global w' !! name = Some f ->
      exists xc xf lvl x,
        read_config filename = Decoded xc
        /\ In xf (Filter_ xc) /\ Tag xf = name /\ enabled_of xf = true
        /\ In (Level_ xf, lvl) level_names
        /\ f = mkFilter lvl (Some x) (Exclude xf))
  /\ ((forall xc, read_config filename <> Decoded xc) -> Global w' = ∅).
Proof.
  cbv zeta.
  assert (Hclosed :
            closed (snd (LoadConfiguration filename w))
            = closed w
              ++ List.map (fun nf => Filter_LogWriter (snd nf))
                   (map_to_list (Global w))
            /\ (forall name f,
                   Global (snd (LoadConfiguration filename w)) !! name = Some f ->
                   exists xc xf lvl x,
                     read_config filename = Decoded xc
                     /\ In xf (Filter_ xc) /\ Tag xf = name
                     /\ enabled_of xf = true
                     /\ In (Level_ xf, lvl) level_names
                     /\ f = mkFilter lvl (Some x) (Exclude xf))
            /\ ((forall xc, read_config filename <> Decoded xc) ->
                Global (snd (LoadConfiguration filename w)) = ∅)).
  { unfold LoadConfiguration, bind, print, modify, Close.
    destruct (read_config filename) as [| | | xc] eqn:Hread;
      try (cbn; repeat split;
           [intros name f H; now rewrite lookup_empty in H]).
    match goal with
    | |- context [for_each _ _ ?w1] =>
        destruct (for_each_filters_inv filename (Filter_ xc) w1) as [Hc Hg]
    end.
    split; [exact Hc | split].
    - intros name f Hlook. destruct (Hg name f Hlook) as [H | H].
      + cbn in H. now rewrite lookup_empty in H.
      + destruct H as (xf & lvl & x & H). now exists xc, xf, lvl, x.
    - intros Hno. now contradiction (Hno xc). }
  destruct Hclosed as (Hc & Hg & He).
  split; [exact Hc | split; [| split; [exact Hg | exact He]]].
  intros name f Hlook. rewrite Hc. apply in_or_app. right.
  apply in_map_iff. exists (name, f). split; [reflexivity |].
  now apply In_map_to_list.
Qed.

Lemma required_field_missing (type req : string) (props : list xmlProperty) :
  In type writer_types ->
  required_property type = Some req -> last_value req props = None ->
  required_field type props = Some EmptyString.
Proof.
  cbn. intros [<- | [<- | [<- | [<- | []]]]]; cbn; intros [= <-] Hnone;
    unfold required_field; cbn; now rewrite Hnone.
Qed.

Lemma required_field_present (type : string) (props : list xmlProperty) :
  Join_not_empty -> In type writer_types ->
  required_property_present type props ->
  required_field type props <> Some EmptyString.
Proof.
  intros HJ. cbn. unfold required_property_present.
  intros [<- | [<- | [<- | [<- | []]]]]; cbn.
  - discriminate.
  - intros (v & Hv & _). unfold required_field. cbn. rewrite Hv.
    intros [= H]. exact (HJ v H).
  - intros (v & Hv & _). unfold required_field. cbn. rewrite Hv.
    intros [= H]. exact (HJ v H).
  - intros (v & Hv & Hne). unfold required_field. cbn. rewrite Hv.
    intros [= H]. now apply Hne.
Qed.

(** C7 (amended). For a filter with its required children, a known level and
    a known type: each property the loader of the type does not know yields a
    warning and nothing else; a missing required property (no [filename] for
    the file and xml writers, no [endpoint] for the socket writer) ends the
    process with exit code 1 whether the filter is enabled or not, with no
    writer instantiated and the logger as it was; with the required property
    there, a disabled filter passes with no writer instantiated and without
    being added to the logger, and an enabled filter has its writer
    instantiated and is added under its tag. *)
Theorem writer_properties_checked (filename : string) (xmlfilt : xmlFilter)
    (w : World) (lvl : Level) :
  Enabled xmlfilt <> EmptyString -> Tag xmlfilt <> EmptyString ->
  In (Level_ xmlfilt, lvl) level_names -> In (Type_ xmlfilt) writer_types ->
  let r := LoadConfiguration_filter filename xmlfilt w in
  (forall prop,
      In prop (Property xmlfilt) ->
      ~ In (Name prop) (known_properties (Type_ xmlfilt)) ->
      In (Warn_UnknownProperty (Name prop) (message_kind (Type_ xmlfilt))
            filename) (diag (snd r)))
  /\ (forall req,
      required_property (Type_ xmlfilt) = Some req ->
      last_value req (Property xmlfilt) = None ->
      fst r = Exit 1 /\ Global (snd r) = Global w
      /\ created (snd r) = created w)
  /\ (Join_not_empty ->
      required_property_present (Type_ xmlfilt) (Property xmlfilt) ->
      fst r = Ret tt
      /\ (Enabled xmlfilt = "false" ->
          Global (snd r) = Global w /\ created (snd r) = created w)
      /\ (Enabled xmlfilt <> "false" ->
          exists x,
            created (snd r) = created w ++ [x]
            /\ Global (snd r)
               = <[Tag xmlfilt := mkFilter lvl (Some x) (Exclude xmlfilt)]>
                   (Global w))).
Proof.
  intros HEn HTag Hlvl Htype. cbv zeta.
  assert (Hen : enabled_of xmlfilt = negb (String.eqb (Enabled xmlfilt) "false")).
  { unfold enabled_of. apply is_empty_false in HEn. now rewrite HEn. }
  destruct (LoadConfiguration_filter_known filename xmlfilt w lvl Hlvl Htype)
    as (w0 & lo & (G0 & C0 & K0 & l0 & D0)
        & (w1 & (G1 & C1 & K1 & l1 & D1) & Hwarn & Hlo) & ->).
  repeat apply conj.
  - intros prop Hin Hunknown. specialize (Hwarn prop Hin Hunknown).
    destruct Hlo as [(req & _ & ->) | [(_ & -> & ->) | (_ & -> & x & ->)]];
      cbn [negb fst snd diag add_diag add_created set_Global].
    + apply in_or_app. now left.
    + exact Hwarn.
    + exact Hwarn.
  - intros req Hreq Hnone.
    pose proof (required_field_missing _ req _ Htype Hreq Hnone) as Hfield.
    destruct Hlo as [(req' & _ & ->) | [(Hp & _) | (Hp & _)]];
      [| contradiction | contradiction].
    cbn [negb fst snd Global created add_diag]. repeat split; congruence.
  - intros HJ Hpresent.
    pose proof (required_field_present _ _ HJ Htype Hpresent) as Hfield.
    destruct Hlo as [(req & Hp & _) | [(_ & He & ->) | (_ & He & x & ->)]];
      [contradiction | |]; rewrite He; cbn [negb fst snd].
    + split; [reflexivity | split].
      * intros _. split; congruence.
      * intros Hnotfalse. rewrite Hen in He.
        apply negb_false_iff, String.eqb_eq in He. contradiction.
    + split; [reflexivity | split].
      * intros Hfalse. rewrite Hen, Hfalse in He. discriminate.
      * intros _. cbn [Global created set_Global add_created].
        exists x. split; congruence.
Qed.

(** * Further properties *)

(** ** Suffix letters of [strToNumSuffix] on arbitrary strings *)

Lemma wrap_int_mul_l (a b : Z) : wrap_int (wrap_int a * b) = wrap_int (a * b).
Proof. rewrite (Z.mul_comm (wrap_int a)), wrap_int_mul_r. f_equal. ring. Qed.

(** With a suffix letter behind any string that is not empty, the result is
    what [Atoi] makes of that string, scaled. *)
Lemma strToNumSuffix_scaled (p : string) (c : ascii) (k mult : Z) :
  nonempty p = true -> suffix_power c = Some k ->
  strToNumSuffix (p +:+ String c EmptyString) mult
  = wrap_int (fst (Atoi p) * mult ^ k).
Proof.
  intros Hne Hk. rewrite strToNumSuffix_eq.
  destruct (suffix_switch_suffix p c k mult Hne Hk) as [Hsnd Hfst].
  now rewrite Hsnd, Hfst.
Qed.

Lemma strToNumSuffix_letter_alone (c : ascii) (k mult : Z) :
  suffix_power c = Some k ->
  strToNumSuffix (String c EmptyString) mult = 0.
Proof.
  intros Hk.
  destruct (suffix_power_cases c k Hk)
    as [[_ [-> | ->]] | [[_ [-> | ->]] | [_ [-> | ->]]]]; reflexivity.
Qed.

(** X1. The suffix letter of [strToNumSuffix] is read without regard to case,
    whatever stands in front of it, and the three suffixes are steps of one
    scale: the result with M is the result with K times the multiplier, the
    result with G the result with M times the multiplier, in the arithmetic of
    [int]. *)
Theorem strToNumSuffix_suffix_scale (p : string) (mult : Z) :
  (strToNumSuffix (p +:+ "k") mult = strToNumSuffix (p +:+ "K") mult
   /\ strToNumSuffix (p +:+ "m") mult = strToNumSuffix (p +:+ "M") mult
   /\ strToNumSuffix (p +:+ "g") mult = strToNumSuffix (p +:+ "G") mult)
  /\ strToNumSuffix (p +:+ "M") mult
     = int_mul (strToNumSuffix (p +:+ "K") mult) mult
  /\ strToNumSuffix (p +:+ "G") mult
     = int_mul (strToNumSuffix (p +:+ "M") mult) mult.
Proof.
  destruct (nonempty p) eqn:Hne.
  - rewrite (strToNumSuffix_scaled p "k" 1 mult Hne eq_refl),
      (strToNumSuffix_scaled p "K" 1 mult Hne eq_refl),
      (strToNumSuffix_scaled p "m" 2 mult Hne eq_refl),
      (strToNumSuffix_scaled p "M" 2 mult Hne eq_refl),
      (strToNumSuffix_scaled p "g" 3 mult Hne eq_refl),
      (strToNumSuffix_scaled p "G" 3 mult Hne eq_refl).
    repeat split; unfold int_mul; rewrite wrap_int_mul_l; f_equal; ring.
  - destruct p; [| discriminate]. repeat split.
Qed.

(** ** The level-enabled check, across levels and mappings *)


(** X2. What is enabled stays enabled at every higher level, and in every
    mapping that extends the one at hand: raising the level of a call or
    adding filters never disables it. *)
Theorem isLevelEnabled_monotone (w w' : World) (lvl lvl' : Level) :
  lvl <= lvl' -> Global w ⊆ Global w' ->
  fst (isLevelEnabled lvl w) = Ret true ->
  fst (isLevelEnabled lvl' w') = Ret true.
Proof.
  intros Hle Hsub. unfold isLevelEnabled. cbn [fst].
  intros [= H]. f_equal.
  apply isLevelEnabled_loop_true in H as (name & filt & Hin & Hthr).
  apply isLevelEnabled_loop_true. exists name, filt. split; [| lia].
  apply In_map_to_list. apply In_map_to_list in Hin.
  eapply lookup_weaken; eassumption.
Qed.


(** ** The wrappers in the style of package [log] *)

Lemma slice_Repeat (n : nat) :
  slice_from_1 (Repeat " %v" (S n)) = Some (spaced_verbs (S n)).
Proof. reflexivity. Qed.

Lemma spaced_verbs_length (n : nat) :
  String.length (spaced_verbs (S n)) = (3 * S n - 1)%nat.
Proof.
  cbn [spaced_verbs].
  assert (H : forall k, String.length (Repeat " %v" k) = (3 * k)%nat).
  { induction k as [| k IH]; [reflexivity |].
    change (Repeat " %v" (S k))
      with (String " " (String "%" (String "v" (Repeat " %v" k)))).
    cbn [String.length]. lia. }
  change ("%v" +:+ Repeat " %v" n)
    with (String "%" (String "v" (Repeat " %v" n))).
  cbn [String.length]. rewrite H. lia.
Qed.

(** X3. [Stdout], [Stderr], [Exit] and [Crash] hand nothing to the logger
    when they are called without arguments; with [n] arguments they hand over
    one call whose format is [n] verbs [%v] separated by single blanks (of
    length [3n-1], no blank in front), at INFO, ERROR, ERROR and CRITICAL.
    Slicing the repeated verb never panics: [Stdout] and [Stderr] always
    return. *)
Theorem print_style_wrappers (args : list Value) (w : World) :
  fst (Stdout args w) = Ret tt
  /\ fst (Stderr args w) = Ret tt
  /\ log_calls (snd (Stdout args w)) = log_calls w ++ print_call INFO args
  /\ log_calls (snd (Stderr args w)) = log_calls w ++ print_call ERROR args
  /\ log_calls (snd (Exit_ args w)) = log_calls w ++ print_call ERROR args
  /\ log_calls (snd (Crash args w)) = log_calls w ++ print_call CRITICAL args
  /\ (args <> [] ->
      String.length (spaced_verbs (length args))
      = (3 * length args - 1)%nat).
Proof.
  destruct args as [| a args].
  - repeat split; cbn; now rewrite app_nil_r.
  - unfold Stdout, Stderr, Exit_, Crash.
    cbn [length]. rewrite slice_Repeat.
    repeat apply conj; try reflexivity.
    intros _. apply spaced_verbs_length.
Qed.

(** X4. [Exit] and [Exitf] never return and never panic: they end the process
    with status 0, although their message is logged at ERROR, and the logger
    is closed by then. [Crash] and [Crashf] always panic; [Crashf] has closed
    the logger by then, [Crash] leaves the mapping and its writers as they
    are. *)
Theorem Exit_and_Crash_endings (format : string) (args : list Value)
    (w : World) :
  (fst (Exit_ args w) = Exit 0 /\ Global (snd (Exit_ args w)) = ∅)
  /\ (fst (Exitf format args w) = Exit 0
      /\ Global (snd (Exitf format args w)) = ∅)
  /\ (fst (Crashf format args w) = Panic
      /\ Global (snd (Crashf format args w)) = ∅)
  /\ (fst (Crash args w) = Panic
      /\ Global (snd (Crash args w)) = Global w
      /\ closed (snd (Crash args w)) = closed w).
Proof.
  repeat split; try reflexivity.
  all: unfold Exit_, Crash; destruct args as [| a args]; try reflexivity.
Qed.

(** ** [Recover] *)

(** X5. Without a panic in flight [Recover] does nothing at all. With one it
    always returns normally (the index [args[0]] of [Critical] is always
    there), having handed the logger one call at CRITICAL and captured one
    stack at depth 3. A [func(interface{}) string] is applied to the recovered
    value; a format string is extended by a line feed and [%v], and formatted
    with the arguments followed by the recovered value; in both cases the
    logged message is that text, a line feed and the stack (under the
    assumptions on the formatting outside these sources). *)
Theorem Recover_logs_and_returns :
  (forall arg0 args w, Recover None arg0 args w = (Ret tt, w))
  /\ (forall err arg0 args w,
      let r := Recover (Some err) arg0 args w in
      fst r = Ret tt
      /\ stack_captures (snd r) = stack_captures w ++ [3]
      /\ (closure_calls (snd r) <= S (closure_calls w))%nat
      /\ exists call,
           log_calls (snd r) = log_calls w ++ [call]
           /\ call_level call = CRITICAL)
  /\ (Sprintf_joins_lines -> logf_render_joins_lines -> logf_render_plain ->
      forall err args w,
        (forall closure,
            exists call,
              log_calls (snd (Recover (Some err) (IFunc1 closure) args w))
              = log_calls w ++ [call]
              /\ logf_render (call_format call) (call_args call)
                 = closure err +:+ nl +:+ CallStack_text 3)
        /\ (forall format,
            exists call,
              log_calls (snd (Recover (Some err) (IVal (VStr format)) args w))
              = log_calls w ++ [call]
              /\ logf_render (call_format call) (call_args call)
                 = Sprintf (format +:+ nl +:+ "%v") (args ++ [err])
                   +:+ nl +:+ CallStack_text 3)).
Proof.
  split; [reflexivity | split].
  - intros err arg0 args w. cbv zeta.
    destruct arg0 as [[first | n | text] | closure | closure];
      unfold Recover, Critical; run_wrapper; cbn [app];
      repeat apply conj;
      first [reflexivity | lia | eexists; split; reflexivity].
  - intros HS HL HP err args w. split.
    + intros closure.
      destruct (Critical_effect (IFunc1 closure) ([err] ++ [slice_value args])
                  w HS HL HP I) as (Hret & (call & Hcalls & _ & Hmsg) & _).
      exists call. unfold Recover, bind.
      destruct (Critical (IFunc1 closure) ([err] ++ [slice_value args]) w)
        as [[e | c |] w1]; cbn [fst snd] in *; try discriminate.
      split; [exact Hcalls | exact Hmsg].
    + intros format.
      destruct (Critical_effect (IVal (VStr (format +:+ nl +:+ "%v")))
                  (args ++ [err]) w HS HL HP I)
        as (Hret & (call & Hcalls & _ & Hmsg) & _).
      exists call. unfold Recover, bind.
      destruct (Critical (IVal (VStr (format +:+ nl +:+ "%v"))) (args ++ [err])
                  w) as [[e | c |] w1]; cbn [fst snd] in *; try discriminate.
      split; [exact Hcalls |].
      rewrite Hmsg. unfold rendered_message_Critical, rendered_message.
      now destruct (args ++ [err]).
Qed.

(** ** The loaders, property by property *)

Lemma for_fold_pure {A S} (body : S -> A -> M S) (step : S -> A -> S) :
  (forall s a w, exists w',
      body s a w = (Ret (step s a), w') /\ same_logger w w') ->
  forall l s w, exists w',
    for_fold body l s w = (Ret (fold_left step l s), w') /\ same_logger w w'.
Proof.
  intros Hbody. induction l as [| a l IH]; intros s w.
  - exists w. split; [reflexivity | apply same_logger_refl].
  - destruct (Hbody s a w) as (w1 & E1 & S1).
    destruct (IH (step s a) w1) as (w' & E & S').
    exists w'. cbn [for_fold fold_left]. unfold bind. rewrite E1.
    split; [exact E | eapply same_logger_trans; eassumption].
Qed.

Lemma last_value_cons (name : string) (p : xmlProperty)
    (props : list xmlProperty) :
  last_value name (p :: props)
  = match last_value name props with
    | Some v => Some v
    | None => if String.eqb (Name p) name
              then Some (Trim (Value_ p) blanks) else None
    end.
Proof. unfold last_value. cbn [last_value_from]. apply last_value_from_acc. Qed.

(** A field that each step sets from the property called [name] ends up with
    what the last such property says. *)
Lemma fold_left_last_value {S T} (step : S -> xmlProperty -> S)
    (field : S -> T) (name : string) (conv : string -> T) :
  (forall l p, field (step l p)
               = if String.eqb (Name p) name
                 then conv (Trim (Value_ p) blanks) else field l) ->
  forall props l,
    field (fold_left step props l)
    = match last_value name props with
      | Some v => conv v
      | None => field l
      end.
Proof.
  intros Hstep. induction props as [| p props IH]; intros l.
  - reflexivity.
  - cbn [fold_left]. rewrite IH, Hstep, last_value_cons.
    destruct (last_value name props); [reflexivity |].
    now destruct (String.eqb (Name p) name).
Qed.

Lemma file_property_pure (fn : string) (l : FileLocals) (p : xmlProperty)
    (w : World) :
  exists w', file_property fn l p w = (Ret (file_step l p), w')
             /\ same_logger w w'.
Proof.
  destruct p as [n v]. unfold file_property, file_step. cbn [Name Value_].
  cbv zeta.
  destruct (String.eqb_spec n "filename") as [-> | _].
  { unfold bind, stat_missing, modify, ret.
    destruct (dir_missing _ && negb _); eexists;
      (split; [reflexivity |
               first [apply same_logger_mkdir | apply same_logger_refl]]). }
  destruct (String.eqb_spec n "format") as [-> | _];
    [eexists; split; [reflexivity | apply same_logger_refl] |].
  destruct (String.eqb_spec n "maxlines") as [-> | _];
    [eexists; split; [reflexivity | apply same_logger_refl] |].
  destruct (String.eqb_spec n "maxsize") as [-> | _];
    [eexists; split; [reflexivity | apply same_logger_refl] |].
  destruct (String.eqb_spec n "daily") as [-> | _];
    [eexists; split; [reflexivity | apply same_logger_refl] |].
  destruct (String.eqb_spec n "rotate") as [-> | _];
    [eexists; split; [reflexivity | apply same_logger_refl] |].
  eexists. split; [destruct l; reflexivity | apply same_logger_print].
Qed.

Lemma xml_property_pure (fn : string) (l : XMLLocals) (p : xmlProperty)
    (w : World) :
  exists w', xml_property fn l p w = (Ret (xml_step l p), w')
             /\ same_logger w w'.
Proof.
  destruct p as [n v]. unfold xml_property, xml_step. cbn [Name Value_].
  cbv zeta.
  destruct (String.eqb_spec n "filename") as [-> | _];
    [eexists; split; [reflexivity | apply same_logger_refl] |].
  destruct (String.eqb_spec n "maxrecords") as [-> | _];
    [eexists; split; [reflexivity | apply same_logger_refl] |].
  destruct (String.eqb_spec n "maxsize") as [-> | _];
    [eexists; split; [reflexivity | apply same_logger_refl] |].
  destruct (String.eqb_spec n "daily") as [-> | _];
    [eexists; split; [reflexivity | apply same_logger_refl] |].
  destruct (String.eqb_spec n "rotate") as [-> | _];
    [eexists; split; [reflexivity | apply same_logger_refl] |].
  eexists. split; [destruct l; reflexivity | apply same_logger_print].
Qed.

Lemma socket_property_pure (fn : string) (l : SocketLocals) (p : xmlProperty)
    (w : World) :
  exists w', socket_property fn l p w = (Ret (socket_step l p), w')
             /\ same_logger w w'.
Proof.
  destruct p as [n v]. unfold socket_property, socket_step. cbn [Name Value_].
  cbv zeta.
  destruct (String.eqb_spec n "endpoint") as [-> | _];
    [eexists; split; [reflexivity | apply same_logger_refl] |].
  destruct (String.eqb_spec n "protocol") as [-> | _];
    [eexists; split; [reflexivity | apply same_logger_refl] |].
  eexists. split; [destruct l; reflexivity | apply same_logger_print].
Qed.

Lemma file_fold_writer (props : list xmlProperty) :
  let l := fold_left file_step props
             (mkFileLocals "" "[%D %T] [%L] (%S) %M" 0 0 false false) in
  FileLogWriter (fl_file l) (fl_rotate l) (fl_format l) (fl_maxlines l)
    (fl_maxsize l) (fl_daily l)
  = file_writer_of props
  /\ required_field "file" props = Some (fl_file l).
Proof.
  cbv zeta. unfold file_writer_of, last_flag, last_text, last_number,
    required_field. cbn [String.eqb Ascii.eqb Bool.eqb orb andb].
  rewrite (fold_left_last_value file_step fl_file "filename"
             (filepath_Join exec_dir)) by reflexivity.
  rewrite (fold_left_last_value file_step fl_rotate "rotate"
             (fun v => negb (String.eqb v "false"))) by reflexivity.
  rewrite (fold_left_last_value file_step fl_format "format" (fun v => v))
    by reflexivity.
  rewrite (fold_left_last_value file_step fl_maxlines "maxlines"
             (fun v => strToNumSuffix v 1000)) by reflexivity.
  rewrite (fold_left_last_value file_step fl_maxsize "maxsize"
             (fun v => strToNumSuffix v 1024)) by reflexivity.
  rewrite (fold_left_last_value file_step fl_daily "daily"
             (fun v => negb (String.eqb v "false"))) by reflexivity.
  split; reflexivity.
Qed.

Lemma xml_fold_writer (props : list xmlProperty) :
  let l := fold_left xml_step props (mkXMLLocals "" 0 0 false false) in
  XMLLogWriter (xl_file l) (xl_rotate l) (xl_maxrecords l) (xl_maxsize l)
    (xl_daily l)
  = xml_writer_of props
  /\ required_field "xml" props = Some (xl_file l).
Proof.
  cbv zeta. unfold xml_writer_of, last_flag, last_number, required_field.
  cbn [String.eqb Ascii.eqb Bool.eqb orb andb].
  rewrite (fold_left_last_value xml_step xl_file "filename"
             (filepath_Join exec_dir)) by reflexivity.
  rewrite (fold_left_last_value xml_step xl_rotate "rotate"
             (fun v => negb (String.eqb v "false"))) by reflexivity.
  rewrite (fold_left_last_value xml_step xl_maxrecords "maxrecords"
             (fun v => strToNumSuffix v 1000)) by reflexivity.
  rewrite (fold_left_last_value xml_step xl_maxsize "maxsize"
             (fun v => strToNumSuffix v 1024)) by reflexivity.
  rewrite (fold_left_last_value xml_step xl_daily "daily"
             (fun v => negb (String.eqb v "false"))) by reflexivity.
  split; reflexivity.
Qed.

Lemma socket_fold_writer (props : list xmlProperty) :
  let l := fold_left socket_step props (mkSocketLocals "" "udp") in
  SocketLogWriter (sl_protocol l) (sl_endpoint l) = socket_writer_of props
  /\ sl_endpoint l = last_text "endpoint" EmptyString props.
Proof.
  cbv zeta. unfold socket_writer_of, last_text.
  rewrite (fold_left_last_value socket_step sl_endpoint "endpoint"
             (fun v => v)) by reflexivity.
  rewrite (fold_left_last_value socket_step sl_protocol "protocol"
             (fun v => v)) by reflexivity.
  split; reflexivity.
Qed.

Lemma xmlToFileLogWriter_exact (fn : string) (ex : list string)
    (props : list xmlProperty) (w : World) :
  exists field w1,
    same_logger w w1
    /\ required_field "file" props = Some field
    /\ forall en,
         xmlToFileLogWriter fn ex props en w
         = loader_result (file_writer_of props) field
             (Err_MissingProperty "filename" "file" fn) en w1.
Proof.
  destruct (for_fold_pure (file_property fn) file_step (file_property_pure fn)
              props (mkFileLocals "" "[%D %T] [%L] (%S) %M" 0 0 false false) w)
    as (w1 & E & S1).
  destruct (file_fold_writer props) as [Hw Hf]. cbv zeta in Hw, Hf.
  eexists. exists w1. split; [exact S1 | split; [exact Hf |]]. intros en.
  unfold xmlToFileLogWriter, bind, loader_result. rewrite E, Hw.
  destruct (is_empty _); [reflexivity |]. now destruct en.
Qed.

Lemma xmlToXMLLogWriter_exact (fn : string) (ex : list string)
    (props : list xmlProperty) (w : World) :
  exists field w1,
    same_logger w w1
    /\ required_field "xml" props = Some field
    /\ forall en,
         xmlToXMLLogWriter fn ex props en w
         = loader_result (xml_writer_of props) field
             (Err_MissingProperty "filename" "xml" fn) en w1.
Proof.
  destruct (for_fold_pure (xml_property fn) xml_step (xml_property_pure fn)
              props (mkXMLLocals "" 0 0 false false) w) as (w1 & E & S1).
  destruct (xml_fold_writer props) as [Hw Hf]. cbv zeta in Hw, Hf.
  eexists. exists w1. split; [exact S1 | split; [exact Hf |]]. intros en.
  unfold xmlToXMLLogWriter, bind, loader_result. rewrite E, Hw.
  destruct (is_empty _); [reflexivity |]. now destruct en.
Qed.

Lemma xmlToSocketLogWriter_endpoint (fn : string) (ex : list string)
    (props : list xmlProperty) (w : World) :
  exists w1,
    same_logger w w1
    /\ forall en,
         xmlToSocketLogWriter fn ex props en w
         = loader_result (socket_writer_of props)
             (last_text "endpoint" EmptyString props)
             (Err_MissingProperty "endpoint" "file" fn) en w1.
Proof.
  destruct (for_fold_pure (socket_property fn) socket_step
              (socket_property_pure fn) props (mkSocketLocals "" "udp") w)
    as (w1 & E & S1).
  destruct (socket_fold_writer props) as [Hw Hf]. cbv zeta in Hw, Hf.
  exists w1. split; [exact S1 |]. intros en.
  unfold xmlToSocketLogWriter, bind, loader_result. rewrite E, Hw, Hf.
  destruct (is_empty _); [reflexivity |]. now destruct en.
Qed.

Lemma xmlToSocketLogWriter_exact (fn : string) (ex : list string)
    (props : list xmlProperty) (w : World) :
  exists field w1,
    same_logger w w1
    /\ required_field "socket" props = Some field
    /\ forall en,
         xmlToSocketLogWriter fn ex props en w
         = loader_result (socket_writer_of props) field
             (Err_MissingProperty "endpoint" "file" fn) en w1.
Proof.
  destruct (xmlToSocketLogWriter_endpoint fn ex props w) as (w1 & S1 & Hres).
  exists (last_text "endpoint" EmptyString props), w1.
  split; [exact S1 | split; [reflexivity | exact Hres]].
Qed.

Lemma TrimLeft_all (s cutset : string) :
  all_in_cutset s cutset = true -> TrimLeft s cutset = EmptyString.
Proof.
  induction s as [| c s IH]; [reflexivity |]. cbn [all_in_cutset TrimLeft].
  intros H. apply andb_true_iff in H as [Hc Hs]. rewrite Hc. now apply IH.
Qed.

Lemma Trim_all (s cutset : string) :
  all_in_cutset s cutset = true -> Trim s cutset = EmptyString.
Proof. intros H. unfold Trim. now rewrite (TrimLeft_all s cutset H). Qed.

Lemma last_value_snoc (name : string) (props : list xmlProperty)
    (p : xmlProperty) :
  last_value name (props ++ [p])
  = if String.eqb (Name p) name then Some (Trim (Value_ p) blanks)
    else last_value name props.
Proof.
  unfold last_value. generalize (@None string).
  induction props as [| q props IH]; intros acc; [reflexivity |].
  cbn [app last_value_from]. apply IH.
Qed.

(** X6. The file writer is set up from the last property of each name:
    [filename] joined to the directory of the executable, [format] (the
    default layout without one), [maxlines] and [maxsize] read by
    [strToNumSuffix] with multipliers 1000 and 1024 (0 without one, and
    whatever number results otherwise, negative or clamped ones too), [daily]
    and [rotate] on for every value but ["false"] (off without one). All
    values are trimmed of blanks and line ends first. A disabled filter goes
    through the same parsing and builds nothing. *)
Theorem file_writer_settings (filename : string) (excludes : list string)
    (props : list xmlProperty) (w : World) (v : string) :
  Join_not_empty -> last_value "filename" props = Some v ->
  let x :=
    FileLogWriter (filepath_Join exec_dir v) (last_flag "rotate" props)
      (last_text "format" "[%D %T] [%L] (%S) %M" props)
      (last_number "maxlines" 1000 props) (last_number "maxsize" 1024 props)
      (last_flag "daily" props) in
  exists w1,
    same_logger w w1
    /\ xmlToFileLogWriter filename excludes props true w
       = (Ret (Some x, true), add_created x w1)
    /\ xmlToFileLogWriter filename excludes props false w
       = (Ret (None, true), w1).
Proof.
  intros HJ Hv. cbv zeta.
  destruct (xmlToFileLogWriter_exact filename excludes props w)
    as (field & w1 & S1 & Hf & Hres).
  assert (Hfield : is_empty field = false).
  { apply is_empty_false. intros ->.
    unfold required_field in Hf. cbn in Hf. rewrite Hv in Hf.
    injection Hf as Hf. exact (HJ v Hf). }
  exists w1. split; [exact S1 |].
  rewrite !Hres. unfold loader_result. rewrite Hfield.
  unfold file_writer_of. rewrite Hv. split; reflexivity.
Qed.

(** X7. The xml writer likewise: [filename], [maxrecords] (multiplier 1000),
    [maxsize] (multiplier 1024), [daily] and [rotate], each from the last
    property of the name. *)
Theorem xml_writer_settings (filename : string) (excludes : list string)
    (props : list xmlProperty) (w : World) (v : string) :
  Join_not_empty -> last_value "filename" props = Some v ->
  let x :=
    XMLLogWriter (filepath_Join exec_dir v) (last_flag "rotate" props)
      (last_number "maxrecords" 1000 props)
      (last_number "maxsize" 1024 props) (last_flag "daily" props) in
  exists w1,
    same_logger w w1
    /\ xmlToXMLLogWriter filename excludes props true w
       = (Ret (Some x, true), add_created x w1)
    /\ xmlToXMLLogWriter filename excludes props false w
       = (Ret (None, true), w1).
Proof.
  intros HJ Hv. cbv zeta.
  destruct (xmlToXMLLogWriter_exact filename excludes props w)
    as (field & w1 & S1 & Hf & Hres).
  assert (Hfield : is_empty field = false).
  { apply is_empty_false. intros ->.
    unfold required_field in Hf. cbn in Hf. rewrite Hv in Hf.
    injection Hf as Hf. exact (HJ v Hf). }
  exists w1. split; [exact S1 |].
  rewrite !Hres. unfold loader_result. rewrite Hfield.
  unfold xml_writer_of. rewrite Hv. split; reflexivity.
Qed.

(** X8. The socket writer takes the last [endpoint] and the last [protocol]
    (["udp"] without one). An endpoint that is empty once it is trimmed counts
    as missing, for an enabled filter as for a disabled one; an [endpoint]
    property of blanks and line ends at the end of the list is such a one. *)
Theorem socket_writer_settings (filename : string) (excludes : list string)
    (props : list xmlProperty) (w : World) :
  (forall v,
      last_value "endpoint" props = Some v -> v <> EmptyString ->
      let x := SocketLogWriter (last_text "protocol" "udp" props) v in
      exists w1,
        same_logger w w1
        /\ xmlToSocketLogWriter filename excludes props true w
           = (Ret (Some x, true), add_created x w1)
        /\ xmlToSocketLogWriter filename excludes props false w
           = (Ret (None, true), w1))
  /\ (last_value "endpoint" props = Some EmptyString
      \/ last_value "endpoint" props = None ->
      forall enabled,
        fst (xmlToSocketLogWriter filename excludes props enabled w)
        = Ret (None, false)
        /\ created (snd (xmlToSocketLogWriter filename excludes props enabled w))
           = created w)
  /\ (forall raw,
      all_in_cutset raw blanks = true ->
      last_value "endpoint" (props ++ [mkProperty "endpoint" raw])
      = Some EmptyString).
Proof.
  destruct (xmlToSocketLogWriter_endpoint filename excludes props w)
    as (w1 & S1 & Hres).
  repeat apply conj.
  - intros v Hv Hne. cbv zeta. exists w1. split; [exact S1 |].
    assert (He : last_text "endpoint" EmptyString props = v)
      by (unfold last_text; now rewrite Hv).
    rewrite !Hres. unfold loader_result. rewrite He.
    apply is_empty_false in Hne. rewrite Hne.
    unfold socket_writer_of. rewrite He. split; reflexivity.
  - intros Hblank enabled. rewrite Hres. unfold loader_result.
    assert (He : last_text "endpoint" EmptyString props = EmptyString)
      by (unfold last_text; destruct Hblank as [H | H]; now rewrite H).
    rewrite He. cbn. split; [reflexivity |].
    destruct S1 as (_ & _ & K & _). exact K.
  - intros raw Hraw. rewrite last_value_snoc. cbn [Name Value_].
    cbn [String.eqb Ascii.eqb Bool.eqb]. now rewrite (Trim_all raw blanks Hraw).
Qed.

Lemma console_properties_exact (fn : string) (props : list xmlProperty) :
  forall w, exists w1,
    for_each (fun prop => print (Warn_UnknownProperty (Name prop) "console" fn))
      props w = (Ret tt, w1)
    /\ same_logger w w1
    /\ diag w1 = diag w ++ console_warnings fn props.
Proof.
  induction props as [| a props IH]; intros w.
  - exists w. repeat split; [apply same_logger_refl |].
    cbn. now rewrite app_nil_r.
  - destruct (IH (add_diag (Warn_UnknownProperty (Name a) "console" fn) w))
      as (w1 & E & S1 & D).
    exists w1. cbn [for_each]. unfold bind, print, modify.
    split; [exact E | split].
    + eapply same_logger_trans; [apply same_logger_print | exact S1].
    + rewrite D. cbn. now rewrite <- app_assoc.
Qed.

(** X9. The console loader cannot fail: it knows no property, warns once
    about each one it is given, in their order, and then builds the console
    writer for an enabled filter and nothing for a disabled one. *)
Theorem console_writer_never_fails (filename : string) (excludes : list string)
    (props : list xmlProperty) (enabled : bool) (w : World) :
  exists w1,
    same_logger w w1
    /\ diag w1 = diag w ++ console_warnings filename props
    /\ xmlToConsoleLogWriter filename excludes props enabled w
       = if enabled
         then (Ret (Some ConsoleLogWriter, true),
               add_created ConsoleLogWriter w1)
         else (Ret (None, true), w1).
Proof.
  destruct (console_properties_exact filename props w) as (w1 & E & S1 & D).
  exists w1. split; [exact S1 | split; [exact D |]].
  unfold xmlToConsoleLogWriter, bind. rewrite E. now destruct enabled.
Qed.

(** ** A whole configuration *)

Lemma level_of_In (name : string) (lvl : Level) :
  In (name, lvl) level_names -> level_of name = lvl.
Proof.
  cbn. intros H.
  repeat (destruct H as [H | H]; [injection H as <- <-; reflexivity |]).
  destruct H.
Qed.

Lemma LoadConfiguration_writer_exact (fn : string) (xf : xmlFilter)
    (w : World) :
  In (Type_ xf) writer_types ->
  exists w1,
    same_logger w w1
    /\ forall en,
         LoadConfiguration_writer fn xf en w
         = if field_missing xf
           then (Ret (None, false),
                 add_diag
                   (Err_MissingProperty
                      (if String.eqb (Type_ xf) "socket"
                       then "endpoint" else "filename")
                      (message_kind (Type_ xf)) fn) w1)
           else if en
                then (Ret (Some (writer_of xf), true),
                      add_created (writer_of xf) w1)
                else (Ret (None, true), w1).
Proof.
  unfold LoadConfiguration_writer, field_missing, writer_of. cbv zeta.
  cbn. intros [<- | [<- | [<- | [<- | []]]]];
    cbn [String.eqb Ascii.eqb Bool.eqb].
  - destruct (console_properties_exact fn (Property xf) w) as (w2 & E & S2 & _).
    exists w2. split; [exact S2 |]. intros en.
    unfold xmlToConsoleLogWriter, bind. rewrite E. now destruct en.
  - destruct (xmlToFileLogWriter_exact fn (Exclude xf) (Property xf) w)
      as (field & w1 & S1 & Hf & Hres).
    exists w1. split; [exact S1 |]. intros en. rewrite Hres, Hf.
    unfold loader_result. reflexivity.
  - destruct (xmlToXMLLogWriter_exact fn (Exclude xf) (Property xf) w)
      as (field & w1 & S1 & Hf & Hres).
    exists w1. split; [exact S1 |]. intros en. rewrite Hres, Hf.
    unfold loader_result. reflexivity.
  - destruct (xmlToSocketLogWriter_exact fn (Exclude xf) (Property xf) w)
      as (field & w1 & S1 & Hf & Hres).
    exists w1. split; [exact S1 |]. intros en. rewrite Hres, Hf.
    unfold loader_result. reflexivity.
Qed.

Lemma filter_loads_field (xf : xmlFilter) :
  In (Type_ xf) writer_types ->
  (required_field (Type_ xf) (Property xf) <> Some EmptyString
   <-> field_missing xf = false).
Proof.
  intros _. unfold field_missing.
  destruct (required_field (Type_ xf) (Property xf)) as [field |].
  - rewrite is_empty_false. split; [congruence |].
    intros H [= E]. now apply H.
  - split; [reflexivity | discriminate].
Qed.

(** The body of the loop on a filter that loads. *)
Lemma LoadConfiguration_filter_exact (fn : string) (xf : xmlFilter)
    (w : World) :
  filter_loads xf ->
  exists w1,
    same_logger w w1
    /\ LoadConfiguration_filter fn xf w
       = if enabled_of xf
         then (Ret tt,
               set_Global (<[Tag xf := loaded_filter xf]> (Global w1))
                 (add_created (writer_of xf) w1))
         else (Ret tt, w1).
Proof.
  intros (Hk & Ht & Hfield). apply (filter_loads_field xf Ht) in Hfield.
  destruct (known_level_In _ Hk) as [lvl Hlvl].
  destruct (LoadConfiguration_required_cases fn xf w) as (w0 & S0 & Hreq & _).
  destruct (LoadConfiguration_writer_exact fn xf w0 Ht) as (w1 & S1 & Hres).
  exists w1. split; [eapply same_logger_trans; eassumption |].
  unfold LoadConfiguration_filter, bind. rewrite (Hreq lvl Hlvl).
  cbn [fst snd]. rewrite Hres, Hfield. unfold loaded_filter.
  rewrite (level_of_In _ lvl Hlvl).
  destruct (enabled_of xf); reflexivity.
Qed.

(** ... and on one that does not. *)
Lemma LoadConfiguration_filter_Ret_loads (fn : string) (xf : xmlFilter)
    (w : World) :
  fst (LoadConfiguration_filter fn xf w) = Ret tt -> filter_loads xf.
Proof.
  intros Hret. destruct (known_level_dec (Level_ xf)) as [Hk | Hun].
  - destruct (writer_type_dec (Type_ xf)) as [Ht | Ht].
    + split; [exact Hk | split; [exact Ht |]].
      apply (filter_loads_field xf Ht).
      destruct (known_level_In _ Hk) as [lvl Hlvl].
      destruct (LoadConfiguration_required_cases fn xf w)
        as (w0 & S0 & Hreq & _).
      destruct (LoadConfiguration_writer_exact fn xf w0 Ht)
        as (w1 & S1 & Hres).
      unfold LoadConfiguration_filter, bind in Hret.
      rewrite (Hreq lvl Hlvl) in Hret. cbn [fst snd] in Hret.
      rewrite Hres in Hret.
      destruct (field_missing xf); [discriminate Hret | reflexivity].
    + destruct (known_level_In _ Hk) as [lvl Hlvl].
      destruct (LoadConfiguration_required_cases fn xf w)
        as (w0 & _ & Hreq & _).
      unfold LoadConfiguration_filter, bind in Hret.
      rewrite (Hreq lvl Hlvl) in Hret. cbn [fst snd] in Hret.
      rewrite (proj2 (LoadConfiguration_writer_outcome fn xf _ w0) Ht) in Hret.
      discriminate Hret.
  - rewrite (LoadConfiguration_filter_unknown_level fn xf w Hun) in Hret.
    discriminate Hret.
Qed.

Lemma LoadConfiguration_filter_Ret_or_Exit (fn : string) (xf : xmlFilter)
    (w : World) :
  fst (LoadConfiguration_filter fn xf w) = Ret tt
  \/ fst (LoadConfiguration_filter fn xf w) = Exit 1.
Proof.
  destruct (LoadConfiguration_filter_cases fn xf w)
    as (_ & [(H & _) | [(H & _) | (H & _)]]); auto.
Qed.

Lemma for_each_filters_exact (fn : string) (filters : list xmlFilter) :
  Forall filter_loads filters ->
  forall w, exists w',
    for_each (LoadConfiguration_filter fn) filters w = (Ret tt, w')
    /\ (forall name,
          Global w' !! name
          = match last_enabled name filters with
            | Some xf => Some (loaded_filter xf)
            | None => Global w !! name
            end)
    /\ created w'
       = created w ++ List.map writer_of (List.filter enabled_of filters)
    /\ closed w' = closed w.
Proof.
  induction 1 as [| a rest Ha Hrest IH]; intros w.
  - exists w. repeat split. cbn. now rewrite app_nil_r.
  - destruct (LoadConfiguration_filter_exact fn a w Ha)
      as (w1 & (G1 & C1 & K1 & _) & E1).
    cbn [for_each]. unfold bind. rewrite E1.
    destruct (enabled_of a) eqn:Hen.
    + match goal with
      | |- context [for_each _ rest ?w2] =>
          destruct (IH w2) as (w' & E & HG & HK & HC)
      end.
      exists w'. split; [exact E | split; [| split]].
      * intros name. rewrite HG. cbn [last_enabled]. rewrite Hen.
        destruct (last_enabled name rest); [reflexivity |].
        cbn [Global set_Global andb].
        destruct (String.eqb_spec (Tag a) name) as [<- | Hne].
        -- apply lookup_insert_eq.
        -- rewrite lookup_insert_ne by exact Hne. now rewrite G1.
      * rewrite HK. cbn [created set_Global add_created List.filter].
        rewrite Hen. cbn [List.map]. rewrite K1, <- app_assoc. reflexivity.
      * rewrite HC. cbn. exact C1.
    + destruct (IH w1) as (w' & E & HG & HK & HC).
      exists w'. split; [exact E | split; [| split]].
      * intros name. rewrite HG. cbn [last_enabled]. rewrite Hen.
        destruct (last_enabled name rest); [reflexivity |].
        cbn [andb]. now rewrite G1.
      * rewrite HK. cbn [List.filter]. rewrite Hen. now rewrite K1.
      * now rewrite HC.
Qed.

Lemma for_each_filters_Ret (fn : string) (filters : list xmlFilter) :
  forall w,
    fst (for_each (LoadConfiguration_filter fn) filters w) = Ret tt ->
    Forall filter_loads filters.
Proof.
  induction filters as [| a rest IH]; intros w Hret; [constructor |].
  cbn [for_each] in Hret. unfold bind in Hret.
  pose proof (LoadConfiguration_filter_Ret_loads fn a w) as Ha.
  destruct (LoadConfiguration_filter fn a w) as [[[] | c |] w1];
    cbn [fst snd] in *; try discriminate Hret.
  constructor; [now apply Ha | now apply (IH w1)].
Qed.

Lemma for_each_filters_Ret_or_Exit (fn : string) (filters : list xmlFilter) :
  forall w,
    fst (for_each (LoadConfiguration_filter fn) filters w) = Ret tt
    \/ fst (for_each (LoadConfiguration_filter fn) filters w) = Exit 1.
Proof.
  induction filters as [| a rest IH]; intros w; [now left |].
  cbn [for_each]. unfold bind.
  pose proof (LoadConfiguration_filter_Ret_or_Exit fn a w) as Ha.
  destruct (LoadConfiguration_filter fn a w) as [[[] | c |] w1];
    cbn [fst snd] in *.
  - apply IH.
  - right. destruct Ha as [Ha | Ha]; [discriminate | exact Ha].
  - destruct Ha; discriminate.
Qed.

Lemma LoadConfiguration_decoded (fn : string) (xc : xmlLoggerConfig)
    (w : World) :
  read_config fn = Decoded xc ->
  LoadConfiguration fn w
  = for_each (LoadConfiguration_filter fn) (Filter_ xc)
      (snd (Close (add_diag (Out_Load fn) w))).
Proof.
  intros Hr. unfold LoadConfiguration, bind, print, modify. rewrite Hr.
  reflexivity.
Qed.

(** X10. [LoadConfiguration] returns exactly when the file decodes and every
    filter in it, enabled or not, has a known level, a known type and the
    field its loader requires; in every other case the process exits with
    status 1. It never panics. *)
Theorem LoadConfiguration_returns_iff_all_load (filename : string)
    (w : World) :
  (fst (LoadConfiguration filename w) = Ret tt
   <-> exists xc,
         read_config filename = Decoded xc
         /\ Forall filter_loads (Filter_ xc))
  /\ (fst (LoadConfiguration filename w) = Ret tt
      \/ fst (LoadConfiguration filename w) = Exit 1).
Proof.
  destruct (read_config filename) as [| | | xc] eqn:Hr.
  1-3: (split;
        [ split;
          [ unfold LoadConfiguration, bind, print, modify, os_Exit;
            rewrite Hr; discriminate
          | intros (xc & Hxc & _); discriminate Hxc ]
        | right; unfold LoadConfiguration, bind, print, modify, os_Exit;
          rewrite Hr; reflexivity ]).
  rewrite (LoadConfiguration_decoded filename xc w Hr). split.
  - split.
    + intros Hret. exists xc. split; [reflexivity |].
      eapply for_each_filters_Ret. exact Hret.
    + intros (xc' & [= <-] & Hall).
      destruct (for_each_filters_exact filename (Filter_ xc) Hall
                  (snd (Close (add_diag (Out_Load filename) w))))
        as (w' & E & _).
      now rewrite E.
  - apply for_each_filters_Ret_or_Exit.
Qed.

(** X11. After a load that returns, the logger holds, under each tag, the
    filter built from the last enabled [<filter>] of the file with that tag,
    and nothing else: filters of the former configuration are gone, disabled
    filters add nothing, and of two enabled filters with one tag the later
    one stays. *)
Theorem LoadConfiguration_last_filter_wins (filename : string)
    (xc : xmlLoggerConfig) (w : World) (name : string) :
  read_config filename = Decoded xc ->
  Forall filter_loads (Filter_ xc) ->
  Global (snd (LoadConfiguration filename w)) !! name
  = loaded_filter <$> last_enabled name (Filter_ xc).
Proof.
  intros Hr Hall. rewrite (LoadConfiguration_decoded filename xc w Hr).
  destruct (for_each_filters_exact filename (Filter_ xc) Hall
              (snd (Close (add_diag (Out_Load filename) w))))
    as (w' & E & HG & _).
  rewrite E. cbn [snd]. rewrite HG.
  destruct (last_enabled name (Filter_ xc)); [reflexivity |].
  cbn. apply lookup_empty.
Qed.

(** X12. A load that returns instantiates one writer for each enabled filter
    of the file, in the order of the file, also for a filter whose tag a
    later filter takes over; a disabled filter instantiates none. *)
Theorem LoadConfiguration_writers_created (filename : string)
    (xc : xmlLoggerConfig) (w : World) :
  read_config filename = Decoded xc ->
  Forall filter_loads (Filter_ xc) ->
  created (snd (LoadConfiguration filename w))
  = created w ++ List.map writer_of (List.filter enabled_of (Filter_ xc)).
Proof.
  intros Hr Hall. rewrite (LoadConfiguration_decoded filename xc w Hr).
  destruct (for_each_filters_exact filename (Filter_ xc) Hall
              (snd (Close (add_diag (Out_Load filename) w))))
    as (w' & E & _ & HK & _).
  rewrite E. cbn [snd]. rewrite HK. reflexivity.
Qed.

(** ** [SetupFileLog] *)

Lemma json_writer_props (cnf : jsonConfig) :
  file_writer_of
    [mkProperty "filename" (Filename cnf);
     mkProperty "maxlines" (Maxlines cnf);
     mkProperty "maxsize" (Maxsize cnf);
     mkProperty "daily" "true";
     mkProperty "rotate" "true"]
  = json_writer cnf.
Proof. reflexivity. Qed.

Lemma SetupFileLog_writer (cnf : jsonConfig) (w0 : World) :
  Join_not_empty ->
  exists w1,
    same_logger w0 w1
    /\ xmlToFileLogWriter (Filename cnf) (Split (Excludes cnf) ",")
         [mkProperty "filename" (Filename cnf);
          mkProperty "maxlines" (Maxlines cnf);
          mkProperty "maxsize" (Maxsize cnf);
          mkProperty "daily" "true";
          mkProperty "rotate" "true"] true w0
       = (Ret (Some (json_writer cnf), true),
          add_created (json_writer cnf) w1).
Proof.
  intros HJ.
  destruct (xmlToFileLogWriter_exact (Filename cnf)
              (Split (Excludes cnf) ",")
              [mkProperty "filename" (Filename cnf);
               mkProperty "maxlines" (Maxlines cnf);
               mkProperty "maxsize" (Maxsize cnf);
               mkProperty "daily" "true";
               mkProperty "rotate" "true"] w0)
    as (field & w1 & S1 & Hf & Hres).
  exists w1. split; [exact S1 |]. rewrite Hres. unfold loader_result.
  assert (Hfield : is_empty field = false).
  { apply is_empty_false. intros ->. injection Hf as Hf.
    exact (HJ _ Hf). }
  rewrite Hfield, json_writer_props. reflexivity.
Qed.

(** X13. [SetupFileLog] sets the filter ["file"]: a file writer for the file
    name of the configuration with the default layout (the [format] of the
    configuration is not read), the two limits read by [strToNumSuffix],
    daily rotation and rotation on, and the excludes split at commas. The
    writer is built before the level is looked at: with an unknown level the
    process exits with status 1 after the writer has been instantiated, and
    the logger is left as it was. *)
Theorem SetupFileLog_sets_file_filter (cnf : jsonConfig) (w : World) :
  Join_not_empty ->
  exists w1,
    same_logger w w1
    /\ (known_level (json_Level cnf) ->
        SetupFileLog cnf w
        = (Ret tt,
           set_Global
             (<["file" := mkFilter (level_of (json_Level cnf))
                            (Some (json_writer cnf))
                            (Split (Excludes cnf) ",")]> (Global w1))
             (add_created (json_writer cnf) w1)))
    /\ (~ known_level (json_Level cnf) ->
        SetupFileLog cnf w = (Exit 1, add_created (json_writer cnf) w1)).
Proof.
  intros HJ.
  destruct (convertLevel_cases (json_Level cnf) (Filename cnf) w)
    as [Hknown Hunknown].
  destruct (known_level_dec (json_Level cnf)) as [Hk | Hun].
  - destruct (known_level_In _ Hk) as [lvl Hlvl].
    destruct (SetupFileLog_writer cnf w HJ) as (w1 & S1 & E).
    exists w1. split; [exact S1 | split; [| contradiction]].
    intros _. unfold SetupFileLog, bind. rewrite (Hknown lvl Hlvl).
    cbn [fst snd]. rewrite E. cbn [fst snd orb negb].
    rewrite (level_of_In _ lvl Hlvl). reflexivity.
  - destruct (SetupFileLog_writer cnf
                (add_diag (Err_UnknownLevel (Filename cnf) (json_Level cnf))
                   w) HJ)
      as (w1 & S1 & E).
    exists w1. split; [| split; [contradiction |]].
    + eapply same_logger_trans; [apply same_logger_print | exact S1].
    + intros _. unfold SetupFileLog, bind. rewrite (Hunknown Hun).
      cbn [fst snd]. rewrite E. reflexivity.
Qed.

Lemma Split_length (s : string) (sep : ascii) :
  length (Split s sep) = S (count_byte sep s).
Proof.
  induction s as [| c rest IH]; [reflexivity |].
  cbn [Split count_byte]. destruct (Ascii.eqb c sep).
  - cbn [length]. now rewrite IH.
  - destruct (Split rest sep) as [| piece pieces]; [discriminate IH |].
    exact IH.
Qed.

(** X14. The filter that [SetupFileLog] sets has one exclude pattern more
    than its [excludes] has commas: never none, and for a configuration
    without excludes the one pattern is the empty string. *)
Theorem SetupFileLog_excludes_count (cnf : jsonConfig) (w : World) :
  Join_not_empty -> known_level (json_Level cnf) ->
  exists f,
    Global (snd (SetupFileLog cnf w)) !! "file" = Some f
    /\ length (Filter_Excludes f) = S (count_byte "," (Excludes cnf))
    /\ (Excludes cnf = EmptyString -> Filter_Excludes f = [EmptyString]).
Proof.
  intros HJ Hk. destruct (known_level_In _ Hk) as [lvl Hlvl].
  destruct (SetupFileLog_writer cnf w HJ) as (w1 & _ & E).
  unfold SetupFileLog, bind.
  rewrite (proj1 (convertLevel_cases (json_Level cnf) (Filename cnf) w)
             lvl Hlvl).
  cbn [fst snd]. rewrite E. cbn [fst snd orb negb set_filter modify Global].
  eexists. split; [apply lookup_insert_eq |].
  cbn [Filter_Excludes]. split; [apply Split_length |].
  intros ->. reflexivity.
Qed.
End Log4go.

(** * The statements at work

    The small environment satisfies what the statements assume, and each
    statement is applied to a concrete call. *)

Lemma Sprintf_sv_joins_lines : Sprintf_joins_lines Sprintf_sv.
Proof.
  intros a b.
  transitivity (a +:+ String "010" (b +:+ EmptyString)); [reflexivity |].
  rewrite append_empty_r. reflexivity.
Qed.

Lemma logf_render_sv_joins_lines : logf_render_joins_lines logf_render_sv.
Proof. intros a b. apply Sprintf_sv_joins_lines. Qed.

Lemma logf_render_sv_plain : logf_render_plain logf_render_sv.
Proof. intros msg. reflexivity. Qed.

Lemma logf_render_sv_formats : logf_render_formats Sprintf_sv logf_render_sv.
Proof. intros format [| a args] Hargs; [now destruct Hargs | reflexivity]. Qed.

Lemma Sprintf_sv_string : Sprintf_string Sprintf_sv.
Proof. intros s. apply append_empty_r. Qed.

Lemma Sprintf_sv_copies_text : Sprintf_copies_text Sprintf_sv.
Proof.
  intros text format args. induction text as [| c text IH]; [reflexivity |].
  cbn [no_percent]. intros [Hc Htext]%andb_prop.
  rewrite append_cons. cbn [Sprintf_sv].
  destruct (Ascii.eqb c "%"); [discriminate Hc |].
  now rewrite IH.
Qed.

Lemma Join_slash_not_empty : Join_not_empty "/opt/app" Join_slash.
Proof. intros v H. discriminate H. Qed.

Lemma World_errors_only_threshold (lvl : Level) :
  lvl < ERROR ->
  forall name filt,
    Global World_errors_only !! name = Some filt -> lvl < Filter_Level filt.
Proof.
  intros Hlvl name filt H. cbn [Global World_errors_only] in H.
  apply lookup_singleton_Some in H as [_ <-]. exact Hlvl.
Qed.

(** C1, applied: a filter at INFO that excludes ["noisy"] accepts what the same
    filter at ERROR accepts. *)
Lemma Filter_accepts_lower_threshold_witness :
  Filter_accepts String.prefix (mkFilter INFO None ["noisy"])
    (mkLogRecord ERROR 0 "main.run" "disk full") = true.
Proof.
  apply (proj1 (proj2 (Filter_accepts_threshold_and_excludes 0 String.prefix))
           None INFO ERROR ["noisy"]).
  - unfold INFO, ERROR. lia.
  - reflexivity.
Defined.

(** C2, as stated, fails for [Warn]: on a logger without filters no threshold
    admits WARNING, and [Warn] has run the closure once. *)
Lemma Warn_runs_closure_without_filters :
  Global World0 = ∅
  /\ fst (isLevelEnabled WARNING World0) = Ret false
  /\ closure_calls
       (snd (Warn Sprintf_sv Sprint_sv 0 logf_render_sv "main.main"
               String.prefix (IFunc0 (fun _ => "expensive")) [] World0))
     = 1%nat.
Proof. repeat split. Qed.

(** C2 (amended), applied: under a logger whose one filter is at ERROR,
    [Debug] does not run the closure. *)
Lemma closure_invocations_witness :
  closure_calls
    (snd (Debug Sprint_sv 0 logf_render_sv "main.main" String.prefix
            (IFunc0 (fun _ => "expensive")) [] World_errors_only))
  = closure_calls World_errors_only.
Proof.
  refine (proj1 (proj2 (proj1
            (closure_invocations Sprintf_sv Sprint_sv (fun _ => "") 0
               logf_render_sv "main.main" String.prefix World_errors_only
               (fun _ => "expensive") [])
            _ DEBUG _)) _).
  - cbn. tauto.
  - apply World_errors_only_threshold. unfold DEBUG, ERROR. lia.
Defined.

(** C3, as stated, fails on twenty nines: the string is a numeral, and the
    result is neither the number it denotes nor 0 but the largest [int]; the
    same holds with a letter after the digits, a string that is no numeral. *)
Lemma strToNumSuffix_beyond_int :
  numeral_value "99999999999999999999" = Some 99999999999999999999
  /\ strToNumSuffix "99999999999999999999" 1000 = 9223372036854775807
  /\ numeral_value "99999999999999999999x" = None
  /\ strToNumSuffix "99999999999999999999x" 1000 = 9223372036854775807.
Proof. repeat split; vm_compute; reflexivity. Qed.

(** C3 (amended), applied to ["-12k"] with multiplier 1024. *)
Lemma strToNumSuffix_numerals_witness :
  strToNumSuffix ("-12" +:+ String "k" EmptyString) 1024 = -12 * 1024 ^ 1.
Proof.
  refine (proj2 (proj1 (proj2 strToNumSuffix_numerals)
                   "-12" (-12) "k"%char 1 1024 _ _ _) _).
  - reflexivity.
  - unfold minInt, maxInt. lia.
  - reflexivity.
  - unfold minInt, maxInt. lia.
Defined.

(** C4, applied: nothing is enabled on a logger without filters. *)
Lemma isLevelEnabled_no_filters_witness :
  isLevelEnabled DEBUG World0 = (Ret false, World0).
Proof.
  apply (proj1 (proj2 (isLevelEnabled_iff_some_threshold World0 DEBUG))).
  reflexivity.
Defined.

(** C5, applied to a closure of one argument, as [Recover] passes it. *)
Lemma Critical_logs_message_and_stack_witness :
  stack_captures
    (snd (Critical Sprintf_sv Sprint_sv (fun _ => "main.main") 0
            logf_render_sv "main.main" String.prefix
            (IFunc1 show_value) [VErr "boom"] World0))
  = stack_captures World0 ++ [3].
Proof.
  refine (proj2 (proj2 (proj1
            (Critical_logs_message_and_stack Sprintf_sv Sprint_sv
               (fun _ => "main.main") 0 logf_render_sv "main.main"
               String.prefix)
            (IFunc1 show_value) [VErr "boom"] World0 _ _ _ _))).
  - exact Sprintf_sv_joins_lines.
  - exact logf_render_sv_joins_lines.
  - exact logf_render_sv_plain.
  - exact I.
Defined.

(** C6, as stated, fails for [Error]: with a format that ends in [%] and no
    arguments the logger delivers the format as it is, and the error carries
    what [fmt.Sprintf] makes of it; with a first value whose printed form
    holds a verb, the logger formats that verb with the argument, and the
    error keeps it. *)
Lemma Error_text_differs_from_logged_message :
  (fst (Error Sprintf_sv Sprint_sv 0 logf_render_sv "main.main" String.prefix
          (IVal (VStr "100%")) [] World_errors_only)
   = Ret (Some (errors_New "100%!(NOVERB)"))
   /\ List.map (fun nr => Record_Message (snd nr))
        (delivered
           (snd (Error Sprintf_sv Sprint_sv 0 logf_render_sv "main.main"
                   String.prefix (IVal (VStr "100%")) [] World_errors_only)))
      = ["100%"])
  /\ (fst (Error Sprintf_sv Sprint_sv 0 logf_render_sv "main.main"
             String.prefix (IVal (VErr "50%s")) [VInt 7] World_errors_only)
      = Ret (Some (errors_New "50%s 7"))
      /\ List.map (fun nr => Record_Message (snd nr))
           (delivered
              (snd (Error Sprintf_sv Sprint_sv 0 logf_render_sv "main.main"
                      String.prefix (IVal (VErr "50%s")) [VInt 7]
                      World_errors_only)))
         = ["507 %!v(MISSING)"]).
Proof. repeat split; vm_compute; reflexivity. Qed.

(** C6 (amended), applied to a call in the style of [Sprint]: the error of
    [Error(7, "files")] and every record delivered for it read ["7 files"];
    and to [Critical] with a closure of one argument. *)
Lemma Warn_Error_Critical_return_error_witness :
  (fst (Error Sprintf_sv Sprint_sv 0 logf_render_sv "main.main" String.prefix
          (IVal (VInt 7)) [VStr "files"] World_errors_only)
   = Ret (Some (errors_New "7 files"))
   /\ exists to_error,
        delivered
          (snd (Error Sprintf_sv Sprint_sv 0 logf_render_sv "main.main"
                  String.prefix (IVal (VInt 7)) [VStr "files"]
                  World_errors_only))
        = delivered World_errors_only ++ to_error
        /\ Forall (fun nr => Record_Message (snd nr) = "7 files") to_error)
  /\ fst (Critical Sprintf_sv Sprint_sv (fun _ => "main.main") 0
            logf_render_sv "main.main" String.prefix (IFunc1 show_value)
            [VErr "boom"] World0)
     = Ret (Some (errors_New "boom")).
Proof.
  split.
  - destruct (Warn_Error_Critical_return_error Sprintf_sv Sprint_sv
                (fun _ => "main.main") 0 logf_render_sv "main.main"
                String.prefix (IVal (VInt 7)) [VStr "files"]
                World_errors_only)
      as (_ & Herr & _ & _ & _ & _
          & (format' & args' & to_warn & to_error
             & _ & _ & _ & Hdelivered & Hsame)).
    split; [exact Herr |]. exists to_error. split; [exact Hdelivered |].
    apply Hsame.
    + exact logf_render_sv_formats.
    + exact logf_render_sv_plain.
    + exact Sprintf_sv_string.
    + exact Sprintf_sv_copies_text.
    + reflexivity.
    + right. reflexivity.
  - refine (proj1 (proj2 (proj2
              (Warn_Error_Critical_return_error Sprintf_sv Sprint_sv
                 (fun _ => "main.main") 0 logf_render_sv "main.main"
                 String.prefix (IFunc1 show_value) [VErr "boom"] World0))) _).
    exact I.
Defined.

(** C7, as stated, fails: a file filter with the attribute [enabled] set to
    [false] and no [filename] ends the load with exit code 1. *)
Lemma disabled_filter_without_filename_is_fatal :
  Enabled filter_disabled_no_file = "false"
  /\ last_value "filename" (Property filter_disabled_no_file) = None
  /\ fst (LoadConfiguration
            (fun _ => Decoded (mkXmlLoggerConfig [filter_disabled_no_file]))
            "/opt/app" Join_slash (fun p => p) (fun _ => false)
            "log4go.xml" World0)
     = Exit 1.
Proof. repeat split. Qed.

(** C7 (amended), applied: the enabled file filter with an unknown property
    loads. *)
Lemma writer_properties_checked_witness :
  fst (LoadConfiguration_filter "/opt/app" Join_slash (fun p => p)
         (fun _ => false) "log4go.xml" filter_file_with_colour World0)
  = Ret tt.
Proof.
  refine (proj1 (proj2 (proj2
            (writer_properties_checked "/opt/app" Join_slash (fun p => p)
               (fun _ => false) "log4go.xml" filter_file_with_colour World0
               INFO _ _ _ _)) _ _)).
  - discriminate.
  - discriminate.
  - cbn. tauto.
  - cbn. tauto.
  - exact Join_slash_not_empty.
  - eexists. split; [reflexivity | discriminate].
Defined.

(** X16, applied: a configuration whose second filter names the level VERBOSE
    ends the load with exit code 1. *)
Lemma unknown_level_is_fatal_witness :
  fst (LoadConfiguration
         (fun _ => Decoded (mkXmlLoggerConfig
                              [filter_file_with_colour;
                               filter_verbose_console]))
         "/opt/app" Join_slash (fun p => p) (fun _ => false)
         "log4go.xml" World0)
  = Exit 1.
Proof.
  refine (proj2 (proj2
            (convertLevel_nine_names_else_fatal
               (fun _ => Decoded (mkXmlLoggerConfig
                                    [filter_file_with_colour;
                                     filter_verbose_console]))
               "/opt/app" Join_slash (fun p => p) (fun _ => false)))
            "log4go.xml" World0 _ filter_verbose_console eq_refl _ _).
  - cbn. tauto.
  - unfold known_level. cbn. intuition discriminate.
Defined.

(** C8, at a configuration whose filters lack a required child: the flag that
    the checks of the required children set does not reach the test that
    follows [convertLevel], which assigns it anew. A filter without the
    attribute [enabled] is reported and then passed like a disabled one, and a
    filter without a tag is reported and then added under the empty tag; the
    load returns. *)
Lemma LoadConfiguration_missing_children_not_fatal :
  fst (LoadConfiguration
         (fun _ => Decoded (mkXmlLoggerConfig
                              [filter_console_no_enabled;
                               filter_console_no_tag]))
         "/opt/app" Join_slash (fun p => p) (fun _ => false)
         "log4go.xml" World0)
  = Ret tt
  /\ diag (snd (LoadConfiguration
                  (fun _ => Decoded (mkXmlLoggerConfig
                                       [filter_console_no_enabled;
                                        filter_console_no_tag]))
                  "/opt/app" Join_slash (fun p => p) (fun _ => false)
                  "log4go.xml" World0))
     = [Out_Load "log4go.xml"; Err_MissingAttr "enabled" "log4go.xml";
        Err_MissingChild "tag" "log4go.xml"]
  /\ Global (snd (LoadConfiguration
                    (fun _ => Decoded (mkXmlLoggerConfig
                                         [filter_console_no_enabled;
                                          filter_console_no_tag]))
                    "/opt/app" Join_slash (fun p => p) (fun _ => false)
                    "log4go.xml" World0))
     = {[EmptyString := mkFilter INFO (Some ConsoleLogWriter) []]}.
Proof. repeat split. Qed.

(** The flag that the checks of the required children set does not reach the
    test that follows [convertLevel]: a filter without the [enabled] attribute
    and with a known level is reported, and then passed like a disabled
    one. *)
Remark missing_enabled_attribute_passes :
  fst (LoadConfiguration_filter "/opt/app" Join_slash (fun p => p)
         (fun _ => false) "log4go.xml" filter_console_no_enabled World0)
  = Ret tt
  /\ diag (snd (LoadConfiguration_filter "/opt/app" Join_slash (fun p => p)
                  (fun _ => false) "log4go.xml" filter_console_no_enabled
                  World0))
     = [Err_MissingAttr "enabled" "log4go.xml"].
Proof. split; reflexivity. Qed.

(** C9, applied: a reload that cannot open its file has closed the console
    writer of the logger it found. *)
Lemma LoadConfiguration_replaces_filters_witness :
  In (Some ConsoleLogWriter)
    (closed (snd (LoadConfiguration (fun _ => OpenFails) "/opt/app"
                    Join_slash (fun p => p) (fun _ => false)
                    "missing.xml" World_errors_only))).
Proof.
  refine (proj1 (proj2
            (LoadConfiguration_replaces_filters (fun _ => OpenFails)
               "/opt/app" Join_slash (fun p => p) (fun _ => false)
               "missing.xml" World_errors_only))
            "stdout" (mkFilter ERROR (Some ConsoleLogWriter) []) _).
  apply lookup_singleton_eq.
Defined.

(** C10, applied: the one-byte string ["K"] is not split. *)
Lemma suffix_needs_prefix_witness :
  suffix_switch "K" 1000 = (1, "K").
Proof.
  apply (proj1 strToNumSuffix_suffix_needs_prefix "K" 1000).
  cbn. lia.
Defined.

(** ** The further statements at work *)

(** A configuration file in which two enabled filters carry the tag
    ["logfile"], and one with a filter that lacks the attribute [enabled]. *)
Lemma two_logfile_filters_load :
  Forall (filter_loads "/opt/app" Join_slash)
    [filter_file_with_colour; filter_console_as_logfile].
Proof.
  repeat constructor; try (cbn; tauto); discriminate.
Qed.

Lemma filters_without_enabled_load :
  Forall (filter_loads "/opt/app" Join_slash)
    [filter_console_no_enabled; filter_file_with_colour].
Proof.
  repeat constructor; try (cbn; tauto); discriminate.
Qed.

(** X2, applied: a logger that lets ERROR through lets CRITICAL through. *)
Lemma isLevelEnabled_monotone_witness :
  fst (isLevelEnabled CRITICAL World_errors_only) = Ret true.
Proof.
  apply (isLevelEnabled_monotone World_errors_only World_errors_only
           ERROR CRITICAL).
  - unfold ERROR, CRITICAL. lia.
  - reflexivity.
  - reflexivity.
Defined.

(** X3, applied: two arguments give the format ["%v %v"], of five bytes. *)
Lemma print_style_wrappers_witness :
  (String.length (spaced_verbs (length [VStr "disk"; VInt 7]))
   = 3 * length [VStr "disk"; VInt 7] - 1)%nat.
Proof.
  apply (proj2 (proj2 (proj2 (proj2 (proj2 (proj2
           (print_style_wrappers 0 logf_render_sv "main.main" String.prefix
              [VStr "disk"; VInt 7] World0))))))).
  discriminate.
Defined.

(** X5, applied: a recovered panic with a closure of one argument. *)
Lemma Recover_logs_and_returns_witness :
  exists call,
    log_calls
      (snd (Recover Sprintf_sv Sprint_sv (fun _ => "main.main") 0
              logf_render_sv "main.main" String.prefix (fun _ => VStr "[]")
              (Some (VErr "boom")) (IFunc1 show_value) [] World0))
    = log_calls World0 ++ [call]
    /\ logf_render_sv (call_format call) (call_args call)
       = show_value (VErr "boom") +:+ nl +:+ "main.main".
Proof.
  exact (proj1 (proj2 (proj2
                  (Recover_logs_and_returns Sprintf_sv Sprint_sv
                     (fun _ => "main.main") 0 logf_render_sv "main.main"
                     String.prefix (fun _ => VStr "[]")))
                 Sprintf_sv_joins_lines logf_render_sv_joins_lines
                 logf_render_sv_plain (VErr "boom") [] World0)
           show_value).
Defined.

(** X6, applied: the file name is trimmed and joined, the rest is default. *)
Lemma file_writer_settings_witness :
  fst (xmlToFileLogWriter "/opt/app" Join_slash (fun p => p) (fun _ => false)
         "log4go.xml" [] (Property filter_file_with_colour) true World0)
  = Ret (Some (FileLogWriter "/opt/app/app.log" false "[%D %T] [%L] (%S) %M"
                 0 0 false), true).
Proof.
  destruct (file_writer_settings "/opt/app" Join_slash (fun p => p)
              (fun _ => false) "log4go.xml" []
              (Property filter_file_with_colour) World0 "app.log"
              Join_slash_not_empty eq_refl)
    as (w1 & _ & E & _).
  cbv zeta in E. rewrite E. reflexivity.
Defined.

(** X7, applied: an xml writer with a limit of records. *)
Lemma xml_writer_settings_witness :
  fst (xmlToXMLLogWriter "/opt/app" Join_slash "log4go.xml" []
         [mkProperty "filename" "trace.xml"; mkProperty "maxrecords" "2k";
          mkProperty "daily" "yes"] true World0)
  = Ret (Some (XMLLogWriter "/opt/app/trace.xml" false 2000 0 true), true).
Proof.
  destruct (xml_writer_settings "/opt/app" Join_slash "log4go.xml" []
              [mkProperty "filename" "trace.xml";
               mkProperty "maxrecords" "2k"; mkProperty "daily" "yes"]
              World0 "trace.xml" Join_slash_not_empty eq_refl)
    as (w1 & _ & E & _).
  cbv zeta in E. rewrite E. reflexivity.
Defined.

(** X8, applied: an endpoint of two blanks and a line feed is missing. *)
Lemma socket_writer_settings_witness :
  last_value "endpoint" ([] ++ Property filter_socket_blank)
  = Some EmptyString.
Proof.
  apply (proj2 (proj2 (socket_writer_settings "log4go.xml" [] [] World0))
           ("  " +:+ nl)).
  reflexivity.
Defined.

(** X10, applied: a filter without the attribute [enabled] does not stop the
    load. *)
Lemma LoadConfiguration_returns_iff_all_load_witness :
  fst (LoadConfiguration
         (fun _ => Decoded (mkXmlLoggerConfig
                              [filter_console_no_enabled;
                               filter_file_with_colour]))
         "/opt/app" Join_slash (fun p => p) (fun _ => false)
         "log4go.xml" World_errors_only)
  = Ret tt.
Proof.
  apply (proj2 (proj1
           (LoadConfiguration_returns_iff_all_load
              (fun _ => Decoded (mkXmlLoggerConfig
                                   [filter_console_no_enabled;
                                    filter_file_with_colour]))
              "/opt/app" Join_slash (fun p => p) (fun _ => false)
              "log4go.xml" World_errors_only))).
  eexists. split; [reflexivity | exact filters_without_enabled_load].
Defined.

(** X11, applied: of two enabled filters tagged ["logfile"] the console
    filter, which comes later, stays. *)
Lemma LoadConfiguration_last_filter_wins_witness :
  Global
    (snd (LoadConfiguration
            (fun _ => Decoded (mkXmlLoggerConfig
                                 [filter_file_with_colour;
                                  filter_console_as_logfile]))
            "/opt/app" Join_slash (fun p => p) (fun _ => false)
            "log4go.xml" World_errors_only)) !! "logfile"
  = Some (mkFilter WARNING (Some ConsoleLogWriter) ["net/http"]).
Proof.
  apply (LoadConfiguration_last_filter_wins
           (fun _ => Decoded (mkXmlLoggerConfig
                                [filter_file_with_colour;
                                 filter_console_as_logfile]))
           "/opt/app" Join_slash (fun p => p) (fun _ => false)
           "log4go.xml"
           (mkXmlLoggerConfig
              [filter_file_with_colour; filter_console_as_logfile])
           World_errors_only "logfile" eq_refl two_logfile_filters_load).
Defined.

(** X12, applied: the file writer of the filter that is replaced has been
    instantiated all the same. *)
Lemma LoadConfiguration_writers_created_witness :
  created
    (snd (LoadConfiguration
            (fun _ => Decoded (mkXmlLoggerConfig
                                 [filter_file_with_colour;
                                  filter_console_as_logfile]))
            "/opt/app" Join_slash (fun p => p) (fun _ => false)
            "log4go.xml" World_errors_only))
  = [FileLogWriter "/opt/app/app.log" false "[%D %T] [%L] (%S) %M" 0 0 false;
     ConsoleLogWriter].
Proof.
  apply (LoadConfiguration_writers_created
           (fun _ => Decoded (mkXmlLoggerConfig
                                [filter_file_with_colour;
                                 filter_console_as_logfile]))
           "/opt/app" Join_slash (fun p => p) (fun _ => false)
           "log4go.xml"
           (mkXmlLoggerConfig
              [filter_file_with_colour; filter_console_as_logfile])
           World_errors_only eq_refl two_logfile_filters_load).
Defined.

(** X13, applied to the configuration of the documentation. *)
Lemma SetupFileLog_sets_file_filter_witness :
  fst (SetupFileLog "/opt/app" Join_slash (fun p => p) (fun _ => false)
         json_example World0)
  = Ret tt.
Proof.
  destruct (SetupFileLog_sets_file_filter "/opt/app" Join_slash (fun p => p)
              (fun _ => false) json_example World0 Join_slash_not_empty)
    as (w1 & _ & E & _).
  rewrite E; [reflexivity | cbn; tauto].
Defined.

(** X14, applied: without excludes the filter has the one pattern [""]. *)
Lemma SetupFileLog_excludes_count_witness :
  exists f,
    Global (snd (SetupFileLog "/opt/app" Join_slash (fun p => p)
                   (fun _ => false) json_example World0)) !! "file"
    = Some f
    /\ Filter_Excludes f = [EmptyString].
Proof.
  destruct (SetupFileLog_excludes_count "/opt/app" Join_slash (fun p => p)
              (fun _ => false) json_example World0 Join_slash_not_empty)
    as (f & Hf & _ & He); [cbn; tauto |].
  exists f. split; [exact Hf | apply He; reflexivity].
Defined.

